(** * gh_summarizer: a shallow embedding and its verified properties

    The development follows [src/gh_summarizer.py], and [cpt.py] beside it:
    - [Str]: the operations of Python's [str] and [list] that the script uses;
    - [Difflib]: [difflib.ndiff], on which [generate_readme] relies;
    - the exceptions, the data classes and the effects of the script
      (files, the Gemini client, the SCP GraphQL endpoint, [secrets]);
    - [generate_readme], [get_random_scp], [get_random_wikipedia_url],
      [summarize] and [_main];
    - [Logging]: [_setup_logging] and what it configures;
    - [Cpt]: the script [cpt.py];
    - the notions that the properties are stated with, and the properties. *)

From Stdlib Require Import QArith.
From stdpp Require Import base numbers list strings gmap.

Local Open Scope N_scope.
Local Open Scope nat_scope.

(** ** Python strings

    A Python [str] is a sequence of Unicode code points: [text] is a list of
    code points, so [length] is Python's [len]. *)

Abbreviation text := (list N).

Module Str.

(** A literal of the script, character by character. *)
Fixpoint py (s : string) : text :=
  match s with
  | EmptyString => []
  | String c s' => Ascii.N_of_ascii c :: py s'
  end.

Definition LF : N := 10%N.
Definition CR : N := 13%N.
Definition SPACE : N := 32%N.

(** [str.isspace] on one code point, the set that [str.strip] removes. *)
Definition isspace (c : N) : bool :=
  ((9 <=? c) && (c <=? 13) || (28 <=? c) && (c <=? 32)
   || (c =? 0x85) || (c =? 0xA0) || (c =? 0x1680)
   || (0x2000 <=? c) && (c <=? 0x200A)
   || (c =? 0x2028) || (c =? 0x2029) || (c =? 0x202F)
   || (c =? 0x205F) || (c =? 0x3000))%N.

(** The line boundaries of [str.splitlines]. *)
Definition is_linebreak (c : N) : bool :=
  ((10 <=? c) && (c <=? 13) || (28 <=? c) && (c <=? 30)
   || (c =? 0x85) || (c =? 0x2028) || (c =? 0x2029))%N.

Fixpoint startswith (p s : text) : bool :=
  match p, s with
  | [], _ => true
  | _ :: _, [] => false
  | x :: p', y :: s' => (x =? y)%N && startswith p' s'
  end.

(** [s.removeprefix(p)] *)
Definition removeprefix (p s : text) : text :=
  if startswith p s then drop (length p) s else s.

(** [sub in s] *)
Fixpoint contains (sub s : text) : bool :=
  startswith sub s
  || match s with
     | [] => false
     | _ :: s' => contains sub s'
     end.

Fixpoint lstrip (s : text) : text :=
  match s with
  | [] => []
  | c :: s' => if isspace c then lstrip s' else s
  end.

Definition rstrip (s : text) : text := reverse (lstrip (reverse s)).

(** [s.strip()] *)
Definition strip (s : text) : text := rstrip (lstrip s).

(** [s.replace(old, new)] scans from the left; inside an occurrence of
    [old] the next [skip] characters are dropped, and the text put in is
    not looked at again. *)
Fixpoint replace_from (old new : text) (skip : nat) (s : text) : text :=
  match s with
  | [] => []
  | c :: s' =>
      match skip with
      | S k => replace_from old new k s'
      | O =>
          if startswith old s
          then new ++ replace_from old new (length old - 1) s'
          else c :: replace_from old new 0 s'
      end
  end.

Definition replace (s old new : text) : text :=
  match old with
  | [] => new ++ flat_map (fun c => c :: new) s
  | _ :: _ => replace_from old new 0 s
  end.

(** [s.splitlines(keepends)]: ["\r\n"] is one boundary; a last line
    without a boundary is a line; the text after the last boundary, when
    empty, is not. *)
Definition push (c : N) (ls : list text) : list text :=
  match ls with
  | [] => [[c]]
  | l :: ls' => (c :: l) :: ls'
  end.

Definition cr_before_lf (c : N) (s' : text) : bool :=
  (c =? CR)%N && match s' with
                 | d :: _ => (d =? LF)%N
                 | [] => false
                 end.

Fixpoint splitlines (keepends : bool) (s : text) : list text :=
  match s with
  | [] => []
  | c :: s' =>
      let rest := splitlines keepends s' in
      if cr_before_lf c s' then (if keepends then push c rest else rest)
      else if is_linebreak c then (if keepends then [c] else []) :: rest
      else push c rest
  end.

(** ["".join(lines)] *)
Definition join (lines : list text) : text := concat lines.

(** [xs.index(x)]: the first position of [x], [None] for [ValueError]. *)
Fixpoint index (xs : list text) (x : text) : option nat :=
  match xs with
  | [] => None
  | y :: ys => if decide (y = x) then Some 0 else S <$> index ys x
  end.

End Str.

Import Str.

(** ** difflib

    [difflib.ndiff] as in CPython's [Lib/difflib.py]: [SequenceMatcher],
    with its automatic junk heuristic, and [Differ], with the recursive
    [_fancy_replace] of CPython 3.11. The ratios, floats in Python, are
    exact fractions here; the two agree on the comparisons made as long as
    a line has fewer than 2^26 characters.

    Later versions of CPython search the synch pairs of a block in a loop
    and may pair the lines of a block otherwise. A block in which no two
    lines are equal or similar is a plain replacement in all of them, and
    the runs below that meet a block that is replaced meet one of this
    kind. *)

Module Difflib.

Inductive tag := Replace | Delete | Insert | Equal.

Definition _calculate_ratio (matches len : nat) : Q :=
  if len =? 0 then 1%Q
  else Qmake (2 * Z.of_nat matches) (Pos.of_nat len).

(** [x > y] on ratios *)
Definition Qgtb (x y : Q) : bool :=
  (Qnum y * Zpos (Qden x) <? Qnum x * Zpos (Qden y))%Z.

Section SequenceMatcher.

Context {A : Type} `{Countable A}.
Variable isjunk : A -> bool.
Variable a b : list A.

(** *** __chain_b

    [b2j] maps an element of [b] to the positions where it occurs, in
    increasing order; junk elements are purged from it, and so are, when
    [b] has 200 elements or more, the popular ones. *)

Fixpoint indices_from (x : A) (i : nat) (l : list A) : list nat :=
  match l with
  | [] => []
  | y :: l' =>
      if decide (y = x) then i :: indices_from x (S i) l'
      else indices_from x (S i) l'
  end.

Definition isbjunk (x : A) : bool := bool_decide (x ∈ b) && isjunk x.

Definition ispopular (x : A) : bool :=
  negb (isbjunk x) && (200 <=? length b)
  && (length b / 100 + 1 <? length (indices_from x 0 b)).

(** [b2j.get(x, [])] *)
Definition b2j_get (x : A) : list nat :=
  if isbjunk x || ispopular x then [] else indices_from x 0 b.

(** *** find_longest_match *)

(** The loop [for j in b2j.get(a[i], nothing)], with its [continue] and
    its [break]. *)
Fixpoint scan_row (i blo bhi : nat) (j2len : gmap nat nat)
    (js : list nat) (newj2len : gmap nat nat) (best : nat * nat * nat)
    : gmap nat nat * (nat * nat * nat) :=
  match js with
  | [] => (newj2len, best)
  | j :: js' =>
      if j <? blo then scan_row i blo bhi j2len js' newj2len best
      else if bhi <=? j then (newj2len, best)
      else
        let k := match j with
                 | O => 0
                 | S j' => default 0 (j2len !! j')
                 end + 1 in
        let best := if best.2 <? k then (i + 1 - k, j + 1 - k, k)
                    else best in
        scan_row i blo bhi j2len js' (<[j := k]> newj2len) best
  end.

(** The loop [for i in range(alo, ahi)]. *)
Fixpoint scan_rows (blo bhi : nat) (is_ : list nat)
    (j2len : gmap nat nat) (best : nat * nat * nat) : nat * nat * nat :=
  match is_ with
  | [] => best
  | i :: is' =>
      let js := match a !! i with
                | Some x => b2j_get x
                | None => []
                end in
      let '(newj2len, best) := scan_row i blo bhi j2len js ∅ best in
      scan_rows blo bhi is' newj2len best
  end.

(** [a[besti-1] == b[bestj-1]], for elements that are junk or are not. *)
Definition same_at (junk : bool) (i j : nat) : bool :=
  match a !! i, b !! j with
  | Some x, Some y => bool_decide (isbjunk y = junk) && bool_decide (x = y)
  | _, _ => false
  end.

Fixpoint extend_back (junk : bool) (alo blo : nat)
    (besti bestj bestsize : nat) : nat * nat * nat :=
  match besti, bestj with
  | S i', S j' =>
      if (alo <? besti) && (blo <? bestj) && same_at junk i' j'
      then extend_back junk alo blo i' j' (S bestsize)
      else (besti, bestj, bestsize)
  | _, _ => (besti, bestj, bestsize)
  end.

Fixpoint extend_fwd (junk : bool) (ahi bhi : nat) (n : nat)
    (besti bestj bestsize : nat) : nat :=
  match n with
  | O => bestsize
  | S n' =>
      if (besti + bestsize <? ahi) && (bestj + bestsize <? bhi)
         && same_at junk (besti + bestsize) (bestj + bestsize)
      then extend_fwd junk ahi bhi n' besti bestj (S bestsize)
      else bestsize
  end.

Definition find_longest_match (alo ahi blo bhi : nat) : nat * nat * nat :=
  let '(besti, bestj, bestsize) :=
    scan_rows blo bhi (seq alo (ahi - alo)) ∅ (alo, blo, 0) in
  let '(besti, bestj, bestsize) :=
    extend_back false alo blo besti bestj bestsize in
  let bestsize :=
    extend_fwd false ahi bhi (ahi - (besti + bestsize))
      besti bestj bestsize in
  let '(besti, bestj, bestsize) :=
    extend_back true alo blo besti bestj bestsize in
  let bestsize :=
    extend_fwd true ahi bhi (ahi - (besti + bestsize))
      besti bestj bestsize in
  (besti, bestj, bestsize).

(** *** get_matching_blocks *)

(** The loop [while queue]; the head of [queue] is its last element, the
    one [queue.pop()] takes. Each pass takes one range and adds at most
    two, both inside it and smaller, so [2 * len(a) + 1] passes empty the
    queue. *)
Fixpoint matching_loop (fuel : nat) (queue : list (nat * nat * nat * nat))
    (matching_blocks : list (nat * nat * nat)) : list (nat * nat * nat) :=
  match fuel, queue with
  | S fuel', (alo, ahi, blo, bhi) :: queue =>
      let '(i, j, k) := find_longest_match alo ahi blo bhi in
      if k =? 0 then matching_loop fuel' queue matching_blocks
      else
        let queue := if (alo <? i) && (blo <? j)
                     then (alo, i, blo, j) :: queue else queue in
        let queue := if (i + k <? ahi) && (j + k <? bhi)
                     then (i + k, ahi, j + k, bhi) :: queue else queue in
        matching_loop fuel' queue (matching_blocks ++ [(i, j, k)])
  | _, _ => matching_blocks
  end.

(** The order of tuples, and [list.sort]. *)
Definition triple_leb (x y : nat * nat * nat) : bool :=
  let '(i1, j1, k1) := x in
  let '(i2, j2, k2) := y in
  (i1 <? i2) || (i1 =? i2) && ((j1 <? j2) || (j1 =? j2) && (k1 <=? k2)).

Fixpoint insert_sorted (x : nat * nat * nat) (l : list (nat * nat * nat))
    : list (nat * nat * nat) :=
  match l with
  | [] => [x]
  | y :: l' => if triple_leb x y then x :: l else y :: insert_sorted x l'
  end.

Definition sort (l : list (nat * nat * nat)) : list (nat * nat * nat) :=
  foldr insert_sorted [] l.

(** The loop that collapses adjacent blocks; [cur] is [(i1, j1, k1)]. *)
Fixpoint collapse (cur : nat * nat * nat) (l : list (nat * nat * nat))
    : list (nat * nat * nat) :=
  let '(i1, j1, k1) := cur in
  match l with
  | [] => if k1 =? 0 then [] else [cur]
  | (i2, j2, k2) :: l' =>
      if (i1 + k1 =? i2) && (j1 + k1 =? j2)
      then collapse (i1, j1, k1 + k2) l'
      else (if k1 =? 0 then [] else [cur]) ++ collapse (i2, j2, k2) l'
  end.

Definition get_matching_blocks : list (nat * nat * nat) :=
  let la := length a in
  let lb := length b in
  let matching_blocks :=
    sort (matching_loop (2 * la + 1) [(0, la, 0, lb)] []) in
  collapse (0, 0, 0) matching_blocks ++ [(la, lb, 0)].

(** *** get_opcodes *)

Fixpoint opcodes_from (i j : nat) (blocks : list (nat * nat * nat))
    : list (tag * nat * nat * nat * nat) :=
  match blocks with
  | [] => []
  | (ai, bj, size) :: blocks' =>
      (if (i <? ai) && (j <? bj) then [(Replace, i, ai, j, bj)]
       else if i <? ai then [(Delete, i, ai, j, bj)]
       else if j <? bj then [(Insert, i, ai, j, bj)]
       else [])
      ++ (if size =? 0 then []
          else [(Equal, ai, ai + size, bj, bj + size)])
      ++ opcodes_from (ai + size) (bj + size) blocks'
  end.

Definition get_opcodes : list (tag * nat * nat * nat * nat) :=
  opcodes_from 0 0 get_matching_blocks.

(** *** ratio, quick_ratio, real_quick_ratio *)

Definition ratio : Q :=
  _calculate_ratio (sum_list (map (fun t => t.2) get_matching_blocks))
    (length a + length b).

Definition fullbcount : gmap A Z :=
  foldl (fun m elt => <[elt := (default 0 (m !! elt) + 1)%Z]> m) ∅ b.

Fixpoint quick_matches (l : list A) (avail : gmap A Z) (matches : nat)
    : nat :=
  match l with
  | [] => matches
  | elt :: l' =>
      let numb := match avail !! elt with
                  | Some n => n
                  | None => default 0%Z (fullbcount !! elt)
                  end in
      quick_matches l' (<[elt := (numb - 1)%Z]> avail)
        (if (0 <? numb)%Z then matches + 1 else matches)
  end.

Definition quick_ratio : Q :=
  _calculate_ratio (quick_matches a ∅ 0) (length a + length b).

Definition real_quick_ratio : Q :=
  _calculate_ratio (min (length a) (length b)) (length a + length b).

End SequenceMatcher.

(** *** Differ *)

(** [linejunk=None] *)
Definition no_junk (line : text) : bool := false.

Definition IS_CHARACTER_JUNK (ch : N) : bool := (ch =? 32)%N || (ch =? 9)%N.

(** [x[lo:hi]] *)
Definition slice {A} (x : list A) (lo hi : nat) : list A :=
  take (hi - lo) (drop lo x).

Definition _dump (tg : text) (x : list text) (lo hi : nat) : list text :=
  map (fun line => tg ++ py " " ++ line) (slice x lo hi).

Definition _plain_replace (a : list text) (alo ahi : nat)
    (b : list text) (blo bhi : nat) : list text :=
  if bhi - blo <? ahi - alo
  then _dump (py "+") b blo bhi ++ _dump (py "-") a alo ahi
  else _dump (py "-") a alo ahi ++ _dump (py "+") b blo bhi.

Fixpoint _keep_original_ws (s tag_s : text) : text :=
  match s, tag_s with
  | c :: s', tag_c :: tag_s' =>
      (if (tag_c =? SPACE)%N && isspace c then c else tag_c)
      :: _keep_original_ws s' tag_s'
  | _, _ => []
  end.

Definition _qformat (aline bline atags btags : text) : list text :=
  let atags := rstrip (_keep_original_ws aline atags) in
  let btags := rstrip (_keep_original_ws bline btags) in
  [py "- " ++ aline]
  ++ (if atags is [] then [] else [py "? " ++ atags ++ [LF]])
  ++ [py "+ " ++ bline]
  ++ (if btags is [] then [] else [py "? " ++ btags ++ [LF]]).

(** [atags] and [btags] of the synch pair, from its opcodes. *)
Fixpoint intraline_tags (ops : list (tag * nat * nat * nat * nat))
    : text * text :=
  match ops with
  | [] => ([], [])
  | (tg, ai1, ai2, bj1, bj2) :: ops' =>
      let la := ai2 - ai1 in
      let lb := bj2 - bj1 in
      let '(atags, btags) := intraline_tags ops' in
      match tg with
      | Replace => (replicate la 94%N ++ atags, replicate lb 94%N ++ btags)
      | Delete => (replicate la 45%N ++ atags, btags)
      | Insert => (atags, replicate lb 43%N ++ btags)
      | Equal => (replicate la SPACE ++ atags, replicate lb SPACE ++ btags)
      end
  end.

(** The state of the search for a synch pair: [best_ratio], [(best_i,
    best_j)] once assigned, and [(eqi, eqj)]. *)
Record search := {
  best_ratio : Q;
  best_ij : option (nat * nat);
  eq_ij : option (nat * nat)
}.

Definition search_pair (a b : list text) (j : nat) (st : search) (i : nat)
    : search :=
  match a !! i, b !! j with
  | Some ai, Some bj =>
      if decide (ai = bj) then
        match eq_ij st with
        | None => {| best_ratio := best_ratio st; best_ij := best_ij st;
                     eq_ij := Some (i, j) |}
        | Some _ => st
        end
      else if Qgtb (real_quick_ratio ai bj) (best_ratio st)
              && Qgtb (quick_ratio ai bj) (best_ratio st)
              && Qgtb (ratio IS_CHARACTER_JUNK ai bj) (best_ratio st)
      then {| best_ratio := ratio IS_CHARACTER_JUNK ai bj;
              best_ij := Some (i, j); eq_ij := eq_ij st |}
      else st
  | _, _ => st
  end.

Definition search_pairs (a : list text) (alo ahi : nat)
    (b : list text) (blo bhi : nat) : search :=
  foldl (fun st j => foldl (search_pair a b j) st (seq alo (ahi - alo)))
    {| best_ratio := 74 # 100; best_ij := None; eq_ij := None |}
    (seq blo (bhi - blo)).

(** [fuel] bounds the depth of the recursion; a block of [n] lines of [a]
    and [m] lines of [b] needs no more than [n + m]. *)
Fixpoint _fancy_replace (fuel : nat) (a : list text) (alo ahi : nat)
    (b : list text) (blo bhi : nat) : list text :=
  match fuel with
  | O => []
  | S fuel' =>
      let _fancy_helper := fun alo ahi blo bhi =>
        if alo <? ahi then
          if blo <? bhi then _fancy_replace fuel' a alo ahi b blo bhi
          else _dump (py "-") a alo ahi
        else if blo <? bhi then _dump (py "+") b blo bhi
        else [] in
      let st := search_pairs a alo ahi b blo bhi in
      let synch :=
        if Qgtb (3 # 4) (best_ratio st)
        then (fun '(i, j) => (i, j, true)) <$> eq_ij st
        else (fun '(i, j) => (i, j, false)) <$> best_ij st in
      match synch with
      | None => _plain_replace a alo ahi b blo bhi
      | Some (best_i, best_j, identical) =>
          _fancy_helper alo best_i blo best_j
          ++ match a !! best_i, b !! best_j with
             | Some aelt, Some belt =>
                 if identical : bool then [py "  " ++ aelt]
                 else
                   let '(atags, btags) :=
                     intraline_tags
                       (get_opcodes IS_CHARACTER_JUNK aelt belt) in
                   _qformat aelt belt atags btags
             | _, _ => []
             end
          ++ _fancy_helper (best_i + 1) ahi (best_j + 1) bhi
      end
  end.

Definition compare (a b : list text) : list text :=
  flat_map
    (fun '(tg, alo, ahi, blo, bhi) =>
       match tg with
       | Replace =>
           _fancy_replace ((ahi - alo) + (bhi - blo)) a alo ahi b blo bhi
       | Delete => _dump (py "-") a alo ahi
       | Insert => _dump (py "+") b blo bhi
       | Equal => _dump (py " ") a alo ahi
       end)
    (get_opcodes no_junk a b).

Definition ndiff (a b : list text) : list text := compare a b.

End Difflib.

(** ** Exceptions

    The exception classes of the script, and the built-in ones that its
    collaborators raise. All of them derive from [Exception]. *)

Inductive exn :=
| MissingEnvironmentVariableError (var_name purpose additional_info : text)
| LLMResponseError
| LLMResponseInvalidError (resp_text : text)
| LLMResponseInappropriateError (resp_text : text)
| LLMResponseTooShortError (resp_text : text)
| SCPResponseInvalidError (resp_text : text) (status_code : Z)
| ValueError (message : text)
| IndexError
| KeyError (key : text)
| TypeError
| FileNotFoundError (path : text)
| OtherError (name : text).

(** [isinstance(e, LLMResponseError)]: the base class and its three
    subclasses. *)
Definition is_LLMResponseError (e : exn) : bool :=
  match e with
  | LLMResponseError | LLMResponseInvalidError _
  | LLMResponseInappropriateError _ | LLMResponseTooShortError _ => true
  | _ => false
  end.

(** ** Data classes *)

Record SCPData := {
  scp_title : text;
  scp_title_alt : text;
  scp_url : text;
  scp_summary : text
}.

Record WikipediaData := {
  wikipedia_title : text;
  wikipedia_url : text;
  wikipedia_summary : text
}.

(** The values of [json.loads]; of a number only its truth value is kept. *)
#[warnings="-register-all"]
Inductive json :=
| JNull
| JBool (b : bool)
| JNumber (nonzero : bool)
| JString (s : text)
| JArray (items : list json)
| JObject (members : list (text * json)).

(** ** The world outside the script

    [Env] is what the collaborators answer: the Gemini client, the GraphQL
    endpoint and the random source, each as a function of the number of
    calls made before, and the library functions [json.loads],
    [str.format] and [urllib.parse.unquote]. [World] is what the script
    changes: the files, the transcript of the calls, standard output. *)

Record Request := {
  req_model : text;
  req_contents : text;
  req_system_instruction : option text
}.

Inductive Reply :=
| ReplyText (resp_text : option text)
| ReplyRaises (e : exn).

Inductive Fetched :=
| FetchRaises (e : exn)
| FetchResponse (status : Z) (body : text).

Record Env := {
  generate_content : nat -> Request -> Reply;
  urlopen : nat -> text -> Fetched;
  json_loads : text -> exn + json;
  randbits : nat -> nat;
  str_format : text -> text -> text -> exn + text;
  unquote : text -> text
}.

Record World := {
  files : gmap text text;
  requests : list Request;
  fetches : list text;
  draws : nat;
  stdout : list text
}.

Definition add_request (req : Request) (w : World) : World :=
  {| files := files w; requests := requests w ++ [req];
     fetches := fetches w; draws := draws w; stdout := stdout w |}.

Definition add_fetch (url : text) (w : World) : World :=
  {| files := files w; requests := requests w;
     fetches := fetches w ++ [url]; draws := draws w; stdout := stdout w |}.

Definition add_draw (w : World) : World :=
  {| files := files w; requests := requests w;
     fetches := fetches w; draws := S (draws w); stdout := stdout w |}.

Definition add_stdout (t : text) (w : World) : World :=
  {| files := files w; requests := requests w;
     fetches := fetches w; draws := draws w; stdout := stdout w ++ [t] |}.

Definition set_file (fp t : text) (w : World) : World :=
  {| files := <[fp := t]> (files w); requests := requests w;
     fetches := fetches w; draws := draws w; stdout := stdout w |}.

(** ** Computations

    A computation runs in a world and ends with a value or a raised
    exception, and the world it leaves; [None] is a run that needs more
    fuel than it was given (a loop or a recursion that has not ended). *)

Inductive outcome (A : Type) :=
| Ok (a : A)
| Raise (e : exn).
Arguments Ok {A} a.
Arguments Raise {A} e.

Definition M (A : Type) : Type := World -> option (outcome A * World).

Definition ret {A} (a : A) : M A := fun w => Some (Ok a, w).
Definition raise {A} (e : exn) : M A := fun w => Some (Raise e, w).
Definition diverge {A} : M A := fun _ => None.

Definition bind {A B} (m : M A) (k : A -> M B) : M B :=
  fun w =>
    match m w with
    | None => None
    | Some (Ok a, w') => k a w'
    | Some (Raise e, w') => Some (Raise e, w')
    end.

(** [try: m except ...: h e]; the handler sees every exception, and
    re-raises the ones no [except] clause names. *)
Definition try_except {A} (m : M A) (h : exn -> M A) : M A :=
  fun w =>
    match m w with
    | None => None
    | Some (Ok a, w') => Some (Ok a, w')
    | Some (Raise e, w') => h e w'
    end.

Definition lift {A} (r : exn + A) : M A :=
  match r with
  | inl e => raise e
  | inr a => ret a
  end.

Notation "'let*' x ':=' m 'in' k" := (bind m (fun x => k))
  (at level 10, x name, m at level 100, k at level 200).

(** ** Files and standard output *)

(** [Path(fp).read_text(encoding="UTF-8")]. A file holds the text that
    reading it gives, its line ends translated as universal newlines
    do. *)
Definition read_text (fp : text) : M text :=
  fun w =>
    match files w !! fp with
    | Some t => Some (Ok t, w)
    | None => Some (Raise (FileNotFoundError fp), w)
    end.

(** [Path(fp).write_text(t, encoding="UTF-8")] *)
Definition write_text (fp t : text) : M unit :=
  fun w => Some (Ok tt, set_file fp t w).

(** [print(t)] *)
Definition print (t : text) : M unit :=
  fun w => Some (Ok tt, add_stdout t w).

(** ** generate_readme *)

(** The chain of [str.replace] calls. *)
Definition render (scp_data : option SCPData)
    (wikipedia_data : option WikipediaData) (readme_template : text)
    : text :=
  let readme_inter := readme_template in
  let readme_inter :=
    match scp_data with
    | Some scp_data =>
        let readme_inter :=
          replace readme_inter (py "{{SCP_URL}}") (scp_url scp_data) in
        let readme_inter :=
          replace readme_inter (py "{{SCP_TITLE}}") (scp_title scp_data) in
        let readme_inter :=
          replace readme_inter (py "{{SCP_TITLE_ALT}}")
            (scp_title_alt scp_data) in
        replace readme_inter (py "{{SCP_SUMMARY}}") (scp_summary scp_data)
    | None => readme_inter
    end in
  match wikipedia_data with
  | Some wikipedia_data =>
      let readme_inter :=
        replace readme_inter (py "{{WIKIPEDIA_URL}}")
          (wikipedia_url wikipedia_data) in
      let readme_inter :=
        replace readme_inter (py "{{WIKIPEDIA_TITLE}}")
          (wikipedia_title wikipedia_data) in
      replace readme_inter (py "{{WIKIPEDIA_SUMMARY}}")
        (wikipedia_summary wikipedia_data)
  | None => readme_inter
  end.

Definition update_error_message (readme_fp readme_template_fp : text)
    : text :=
  py "Could not update given README file (" ++ readme_fp
  ++ py ")! This could be because line counts differ between the given README file ("
  ++ readme_fp ++ py ") and template README file (" ++ readme_template_fp
  ++ py ") or given summaries include newlines.".

(** The body of the loop over the lines of the delta: [list.index] and
    the assignment [readme_lines[idx] = changed_line] inside [try], both
    failures raised again as [ValueError]. *)
Definition patch_line (readme_fp readme_template_fp : text)
    (readme_inter_lines readme_lines : list text) (line : text)
    : outcome (list text) :=
  if startswith (py "+ ") line then
    let changed_line := removeprefix (py "+ ") line in
    match index readme_inter_lines changed_line with
    | None =>
        Raise (ValueError (update_error_message readme_fp readme_template_fp))
    | Some idx =>
        if idx <? length readme_lines
        then Ok (<[idx := changed_line]> readme_lines)
        else
          Raise (ValueError
                   (update_error_message readme_fp readme_template_fp))
    end
  else Ok readme_lines.

Fixpoint patch_lines (readme_fp readme_template_fp : text)
    (readme_inter_lines : list text) (delta : list text)
    (readme_lines : list text) : outcome (list text) :=
  match delta with
  | [] => Ok readme_lines
  | line :: delta' =>
      match patch_line readme_fp readme_template_fp readme_inter_lines
              readme_lines line with
      | Ok readme_lines =>
          patch_lines readme_fp readme_template_fp readme_inter_lines
            delta' readme_lines
      | Raise e => Raise e
      end
  end.

(** The update of the lines of the output README, up to the text that is
    written. *)
Definition patch (readme_fp readme_template_fp : text)
    (readme_template readme_inter readme_text : text) : outcome text :=
  let readme_lines := splitlines true readme_text in
  let readme_template_lines := splitlines true readme_template in
  let readme_inter_lines := splitlines true readme_inter in
  match patch_lines readme_fp readme_template_fp readme_inter_lines
          (Difflib.ndiff readme_template_lines readme_inter_lines)
          readme_lines with
  | Ok readme_lines => Ok (join readme_lines)
  | Raise e => Raise e
  end.

Definition generate_readme (scp_data : option SCPData)
    (wikipedia_data : option WikipediaData) (readme_fp : option text)
    (readme_template_fp : text) : M text :=
  let* readme_template := read_text readme_template_fp in
  match scp_data, wikipedia_data with
  | None, None =>
      match readme_fp with
      | Some (c :: fp) => read_text (c :: fp)
      | _ => ret readme_template
      end
  | _, _ =>
      let readme_inter := render scp_data wikipedia_data readme_template in
      match readme_fp with
      | Some readme_fp =>
          let* readme_text := read_text readme_fp in
          match patch readme_fp readme_template_fp readme_template
                  readme_inter readme_text with
          | Raise e => raise e
          | Ok readme_text =>
              let* _ := write_text readme_fp readme_text in
              ret readme_text
          end
      | None => ret readme_inter
      end
  end.

(** ** The parts of _main that do not call the collaborators *)

(** The parsed arguments, and the two system prompts of the
    environment. *)
Record Args := {
  max_retries : Z;
  model : text;
  wikipedia_urls : text;
  template : text;
  output_readme : option text;
  gemini_api_key : option text;
  scp_user_prompt : option text;
  wikipedia_user_prompt : option text;
  scp_system_prompt : option text;
  wikipedia_system_prompt : option text
}.

(** [v[key]] on a value of [json.loads]; an object keeps the last of
    the members with the same name. *)
Definition getitem (v : json) (key : text) : exn + json :=
  match v with
  | JObject members =>
      match list_find (fun m => m.1 = key) (reverse members) with
      | Some (_, (_, x)) => inr x
      | None => inl (KeyError key)
      end
  | _ => inl TypeError
  end.

(** [v[0]] *)
Definition getitem0 (v : json) : exn + json :=
  match v with
  | JArray (x :: _) => inr x
  | JArray [] => inl IndexError
  | JString (c :: _) => inr (JString [c])
  | JString [] => inl IndexError
  | JObject _ => inl (KeyError (py "0"))
  | _ => inl TypeError
  end.

(** [bool(v)] *)
Definition truthy (v : json) : bool :=
  match v with
  | JNull => false
  | JBool b => b
  | JNumber nonzero => nonzero
  | JString s => negb (bool_decide (s = []))
  | JArray items => negb (bool_decide (length items = 0))
  | JObject members => negb (bool_decide (length members = 0))
  end.

(** The fields of [SCPData] are strings. A value that is not one is
    refused here, where it is read; the script carries it on to
    [str.replace], which raises the same [TypeError]. *)
Definition as_str (v : json) : exn + text :=
  match v with
  | JString s => inr s
  | _ => inl TypeError
  end.

(** How a pass of [while data is None] ends. *)
Inductive flow (A : Type) :=
| Continue
| Break
| Assign (a : A).
Arguments Continue {A}.
Arguments Break {A}.
Arguments Assign {A} a.

Fixpoint while_none {A} (fuel : nat) (body : M (flow A)) : M (option A) :=
  match fuel with
  | O => diverge
  | S fuel' =>
      let* f := body in
      match f with
      | Continue => while_none fuel' body
      | Break => ret None
      | Assign a => ret (Some a)
      end
  end.

(** The [except] clauses around [summarize], the same in both loops. *)
Definition on_summarize_error {A} (e : exn) : M (flow A + text) :=
  match e with
  | LLMResponseInappropriateError _ | LLMResponseTooShortError _ =>
      ret (inl Continue)
  | LLMResponseInvalidError _ | LLMResponseError => ret (inl Break)
  | _ => ret (inl Break)
  end.

(** [s.split("/")[-1]] *)
Fixpoint last_segment (s : text) : text :=
  match s with
  | [] => []
  | c :: s' =>
      if contains (py "/") s' then last_segment s'
      else if (c =? 47)%N then s' else s
  end.

(** ** The functions that call the collaborators *)

Section Script.

Variable env : Env.

(** *** Effects *)

(** [gemini_client.models.generate_content(...)]: the request is sent,
    and the reply is the client's. *)
Definition models_generate_content (req : Request) : M (option text) :=
  fun w =>
    match generate_content env (length (requests w)) req with
    | ReplyText t => Some (Ok t, add_request req w)
    | ReplyRaises e => Some (Raise e, add_request req w)
    end.

(** [ureq.urlopen(req)], [resp.read().decode("UTF-8")] and
    [resp.status] *)
Definition ureq_urlopen (url : text) : M (Z * text) :=
  fun w =>
    match urlopen env (length (fetches w)) url with
    | FetchResponse status body => Some (Ok (status, body), add_fetch url w)
    | FetchRaises e => Some (Raise e, add_fetch url w)
    end.

(** [secrets.choice(seq)]: [IndexError] on an empty sequence, else the
    element at a random position below [len(seq)]. *)
Definition secrets_choice {A} (seq : list A) : M A :=
  fun w =>
    match seq with
    | [] => Some (Raise IndexError, w)
    | x :: _ =>
        Some (Ok (nth (randbits env (draws w) mod length seq) seq x),
              add_draw w)
    end.

(** *** get_random_scp *)

Definition default_graphql_api_endpoint : text :=
  py "https://api.crom.avn.sh/graphql".

Fixpoint get_random_scp (fuel : nat) (max_retries : Z)
    (graphql_api_endpoint : text) : M json :=
  match fuel with
  | O => diverge
  | S fuel' =>
      if negb (startswith (py "http:") graphql_api_endpoint
               || startswith (py "https:") graphql_api_endpoint)
      then
        raise (ValueError
                 (py "Invalid API endpoint URL format. The SCP Foundation GraphQL API endpoint must start with `http:` or `https:`. Provided URL: "
                  ++ graphql_api_endpoint
                  ++ py ". Please provide a valid URL including the protocol."))
      else
        let* resp := ureq_urlopen graphql_api_endpoint in
        let '(status, resp_text) := resp in
        let* resp_json := lift (json_loads env resp_text) in
        if negb (status =? 200)%Z
        then
          if (max_retries =? 0)%Z
          then raise (SCPResponseInvalidError resp_text status)
          else get_random_scp fuel' (max_retries - 1)
                 default_graphql_api_endpoint
        else ret resp_json
  end.

(** *** get_random_wikipedia_url *)

Definition get_random_wikipedia_url (wikipedia_urls_fp : text) : M text :=
  let* contents := read_text wikipedia_urls_fp in
  let wikipedia_urls := splitlines false contents in
  let* wikipedia_url := secrets_choice wikipedia_urls in
  ret (strip wikipedia_url).

(** *** summarize *)

Fixpoint summarize (fuel : nat) (user_prompt : text)
    (system_prompt : option text) (model : text) (max_retries : Z)
    : M text :=
  match fuel with
  | O => diverge
  | S fuel' =>
      let* resp :=
        models_generate_content
          {| req_model := model; req_contents := user_prompt;
             req_system_instruction := system_prompt |} in
      match resp with
      | None => raise LLMResponseError
      | Some resp_text =>
          if contains (py "INAPPROPRIATE") resp_text
          then raise (LLMResponseInappropriateError resp_text)
          else
            let* resp_text :=
              if contains (py "ERROR") resp_text
              then
                if (max_retries =? 0)%Z
                then raise (LLMResponseInvalidError resp_text)
                else summarize fuel' user_prompt system_prompt model
                       (max_retries - 1)
              else ret resp_text in
            let resp_text := strip resp_text in
            if length resp_text <=? 200
            then raise (LLMResponseTooShortError resp_text)
            else ret (replace resp_text [LF] [SPACE])
      end
  end.

(** *** _main *)

Definition scp_pass (fuel : nat) (args : Args) (scp_user_prompt : text)
    : M (flow SCPData) :=
  let* fetched :=
    try_except
      (let* d := get_random_scp fuel (max_retries args)
                   default_graphql_api_endpoint in
       ret (Some d))
      (fun e =>
         match e with
         | SCPResponseInvalidError _ _ => ret None
         | _ => ret None
         end) in
  match fetched with
  | None => ret Break
  | Some scp_raw_data =>
      let* data := lift (getitem scp_raw_data (py "data")) in
      let* random_page := lift (getitem data (py "randomPage")) in
      let* scp_raw_page := lift (getitem random_page (py "page")) in
      let* url := lift (getitem scp_raw_page (py "url")) in
      let* scp_url := lift (as_str url) in
      let* summarized :=
        try_except
          (let* prompt :=
             lift (str_format env scp_user_prompt (py "scp_url") scp_url) in
           let* scp_summary :=
             summarize fuel prompt (scp_system_prompt args) (model args)
               (max_retries args) in
           ret (inr scp_summary))
          on_summarize_error in
      match summarized with
      | inl f => ret f
      | inr scp_summary =>
          let* info := lift (getitem scp_raw_page (py "wikidotInfo")) in
          let* title_v := lift (getitem info (py "title")) in
          let* title := lift (as_str title_v) in
          let* alt_titles :=
            lift (getitem scp_raw_page (py "alternateTitles")) in
          let* title_alt :=
            if truthy alt_titles
            then
              let* first := lift (getitem0 alt_titles) in
              let* t := lift (getitem first (py "title")) in
              lift (as_str t)
            else ret [] in
          ret (Assign {| scp_title := title; scp_title_alt := title_alt;
                         scp_url := scp_url; scp_summary := scp_summary |})
      end
  end.

Definition wikipedia_pass (fuel : nat) (args : Args)
    (wikipedia_user_prompt : text) : M (flow WikipediaData) :=
  let* wikipedia_url := get_random_wikipedia_url (wikipedia_urls args) in
  let* summarized :=
    try_except
      (let* prompt :=
         lift (str_format env wikipedia_user_prompt (py "wikipedia_url")
                 wikipedia_url) in
       let* wikipedia_summary :=
         summarize fuel prompt (wikipedia_system_prompt args) (model args)
           (max_retries args) in
       ret (inr wikipedia_summary))
      on_summarize_error in
  match summarized with
  | inl f => ret f
  | inr wikipedia_summary =>
      ret (Assign {| wikipedia_title :=
                       replace (unquote env (last_segment wikipedia_url))
                         (py "_") (py " ");
                     wikipedia_url := wikipedia_url;
                     wikipedia_summary := wikipedia_summary |})
  end.

Definition _main (fuel : nat) (args : Args) : M unit :=
  match scp_user_prompt args, wikipedia_user_prompt args,
        gemini_api_key args with
  | None, _, _ =>
      raise (MissingEnvironmentVariableError
               (py "GH_SUMMARIZER_SCP_USER_PROMPT")
               (py "SCP content summarization")
               (py "Please provide a correct and Python-formattable user prompt string."))
  | Some _, None, _ =>
      raise (MissingEnvironmentVariableError
               (py "GH_SUMMARIZER_WIKIPEDIA_USER_PROMPT")
               (py "Wikipedia content summarization")
               (py "Please provide a correct and Python-formattable user prompt string."))
  | Some _, Some _, None =>
      raise (MissingEnvironmentVariableError
               (py "GH_SUMMARIZER_GEMINI_API_KEY")
               (py "content summarization")
               (py "Please provide a correct Gemini API key. You can get one from: https://aistudio.google.com/app/apikey"))
  | Some scp_user_prompt, Some wikipedia_user_prompt, Some _ =>
      let* scp_data :=
        while_none fuel (scp_pass fuel args scp_user_prompt) in
      let* wikipedia_data :=
        while_none fuel (wikipedia_pass fuel args wikipedia_user_prompt) in
      let* readme_text :=
        generate_readme scp_data wikipedia_data (output_readme args)
          (template args) in
      print readme_text
  end.

End Script.

(** ** _setup_logging

    The part of [logging] that [_setup_logging] configures, as in CPython's
    [Lib/logging/__init__.py]: the levels, the handlers with their level,
    formatter and filters, the loggers with their level and handlers, and
    the way from a call of [logger.log] to the handlers that emit the
    record. Of a record only its level matters on this way. *)

Module Logging.

Definition NOTSET : Z := 0.
Definition DEBUG : Z := 10.
Definition INFO : Z := 20.
Definition WARNING : Z := 30.
Definition ERROR : Z := 40.
Definition CRITICAL : Z := 50.

Inductive Stream := sys_stdout | sys_stderr.

Record Formatter := {
  fmt : text;
  datefmt : text
}.

(** A [StreamHandler]; a filter is a callable on the record. *)
Record Handler := {
  stream : Stream;
  level : Z;
  formatter : option Formatter;
  filters : list (Z -> bool)
}.

Record Logger := {
  logger_level : Z;
  handlers : list Handler;
  logger_filters : list (Z -> bool);
  propagate : bool;
  disabled : bool
}.

(** The state of the module [logging] that matters here: its globals, the
    logger of the script, [logging.getLogger(__name__)], and the loggers
    above it, the nearest first and the root logger last. *)
Record State := {
  capture_warnings : bool;
  raiseExceptions : bool;
  disable : Z;
  module_logger : Logger;
  ancestors : list Logger
}.

(** [Filterer.filter] *)
Definition filter_passes (fs : list (Z -> bool)) (levelno : Z) : bool :=
  forallb (fun f => f levelno) fs.

(** [if record.levelno >= hdlr.level: hdlr.handle(record)] *)
Definition handler_emits (hdlr : Handler) (levelno : Z) : bool :=
  (level hdlr <=? levelno)%Z && filter_passes (filters hdlr) levelno.

(** [Logger.callHandlers]: the handlers that emit, and [found]. *)
Fixpoint callHandlers (chain : list Logger) (levelno : Z)
    : list Handler * nat :=
  match chain with
  | [] => ([], 0)
  | c :: chain' =>
      let '(emitting, found) :=
        if propagate c then callHandlers chain' levelno else ([], 0) in
      (filter (fun hdlr => handler_emits hdlr levelno = true) (handlers c)
       ++ emitting,
       length (handlers c) + found)
  end.

Definition lastResort : Handler :=
  {| stream := sys_stderr; level := WARNING; formatter := None;
     filters := [] |}.

(** [Logger.getEffectiveLevel] *)
Fixpoint getEffectiveLevel (chain : list Logger) : Z :=
  match chain with
  | [] => NOTSET
  | c :: chain' =>
      if (logger_level c =? 0)%Z then getEffectiveLevel chain'
      else logger_level c
  end.

(** [Logger.isEnabledFor] *)
Definition isEnabledFor (st : State) (levelno : Z) : bool :=
  negb (disabled (module_logger st))
  && negb (levelno <=? disable st)%Z
  && (getEffectiveLevel (module_logger st :: ancestors st) <=? levelno)%Z.

(** [logger.log(levelno, ...)]: the handlers that emit the record. *)
Definition log (st : State) (levelno : Z) : list Handler :=
  if isEnabledFor st levelno
     && filter_passes (logger_filters (module_logger st)) levelno
  then
    let '(emitting, found) :=
      callHandlers (module_logger st :: ancestors st) levelno in
    if found =? 0
    then (if handler_emits lastResort levelno then [lastResort] else [])
    else emitting
  else [].

(** The state that [_setup_logging] leaves; the logger that it returns is
    the logger of the script in this state. The two handlers are new
    objects, so that [addHandler] does append them. *)
Definition _setup_logging (debug raise_exceptions : bool) (st : State)
    : State :=
  let base_log_level := if debug then DEBUG else INFO in
  let formatter_stream_basic :=
    {| fmt := py "%(asctime)s %(levelname)-8s # %(message)s";
       datefmt := py "%H:%M:%S" |} in
  let formatter_stream_detailed :=
    {| fmt := py "%(asctime)s %(levelname)-8s @ (%(name)s:%(module)s:%(funcName)s:%(lineno)d) # %(message)s";
       datefmt := py "%H:%M:%S" |} in
  let stream_handler_normal :=
    {| stream := sys_stdout; level := base_log_level;
       formatter := Some formatter_stream_basic;
       filters := [fun levelno => (levelno <=? WARNING)%Z] |} in
  let stream_handler_error :=
    {| stream := sys_stderr; level := ERROR;
       formatter := Some formatter_stream_detailed;
       filters := [] |} in
  let logger := module_logger st in
  {| capture_warnings := true;
     raiseExceptions := raise_exceptions;
     disable := disable st;
     module_logger :=
       {| logger_level := base_log_level;
          handlers := handlers logger
                      ++ [stream_handler_normal; stream_handler_error];
          logger_filters := logger_filters logger;
          propagate := propagate logger;
          disabled := disabled logger |};
     ancestors := ancestors st |}.

(** The state in which the script is started: [logging] as it is after
    its import, with the root logger above the logger of the script. *)
Definition at_import : State :=
  {| capture_warnings := false;
     raiseExceptions := true;
     disable := 0;
     module_logger :=
       {| logger_level := NOTSET; handlers := []; logger_filters := [];
          propagate := true; disabled := false |};
     ancestors :=
       [{| logger_level := WARNING; handlers := []; logger_filters := [];
           propagate := true; disabled := false |}] |}.

End Logging.

(** ** cpt.py

    The script [cpt.py], which has no functions: it reads two settings of
    the environment and the README, fetches a price for every currency,
    puts each price in the place of the text of a table cell of the README,
    and writes the README. The price service, the JSON decoding with the
    formatting of the price, and [str] of an exception are parameters;
    [re.search] is one too for a currency symbol that holds characters
    special in a pattern, and is read here, as the pattern reads, for
    a symbol that holds none. *)

Module Cpt.

Record Env := {
  environ : gmap text text;
  quote_urlopen : nat -> text -> Fetched;
  format_price : text -> exn + text;
  str_of_exception : exn -> text;
  re_search : text -> text -> exn + option text
}.

Definition SOURCE_PATH : text := py "README.md".

Definition COMMA : N := 44%N.
Definition QUOTE : N := 34%N.
Definition LESS : N := 60%N.

(** [s.split(sep)] for a separator of one character *)
Fixpoint split (sep : N) (s : text) : list text :=
  match s with
  | [] => [[]]
  | c :: s' =>
      if (c =? sep)%N then [] :: split sep s' else push c (split sep s')
  end.

(** The address of the price of [symbol]. *)
Definition price_url (symbol : text) : text :=
  py "https://pro-api.coinmarketcap.com/v2/tools/price-conversion?amount=1&symbol="
  ++ symbol.

(** The pattern [<td id="#symbol">(.*?)<], and its part before the
    group. *)
Definition cell_opening (symbol : text) : text :=
  py "<td id=" ++ [QUOTE] ++ py "#" ++ symbol ++ [QUOTE] ++ py ">".

Definition cell_pattern (symbol : text) : text :=
  cell_opening symbol ++ py "(.*?)<".

(** The characters that are special in a pattern. *)
Definition metacharacters : text := py ".^$*+?{}[]\|()".

Definition literal (symbol : text) : bool :=
  forallb (fun c => negb (bool_decide (c ∈ metacharacters))) symbol.

(** [(.*?)<] at the start of [s]: the shortest run of characters other
    than a newline that a [<] follows. *)
Fixpoint lazy_group (s : text) : option text :=
  match s with
  | [] => None
  | c :: s' =>
      if (c =? LESS)%N then Some []
      else if (c =? LF)%N then None
      else (fun g => c :: g) <$> lazy_group s'
  end.

(** [re.search] with a pattern that is [opening], literally, and then
    [(.*?)<]: the group of the first match, from the left. *)
Fixpoint search (opening s : text) : option text :=
  let here :=
    if startswith opening s then lazy_group (drop (length opening) s)
    else None in
  match here with
  | Some g => Some g
  | None =>
      match s with
      | [] => None
      | _ :: s' => search opening s'
      end
  end.

(** [re.search(f'<td id="#{symbol}">(.*?)<', source)], as the group of the
    match, or [None]. *)
Definition search_cell (env : Env) (symbol source : text)
    : exn + option text :=
  if literal symbol then inr (search (cell_opening symbol) source)
  else re_search env (cell_pattern symbol) source.

(** [request.urlopen(request.Request(url, headers=...))], and the body
    that [req.read()] gives. *)
Definition request_urlopen (env : Env) (url : text) : M text :=
  fun w =>
    match quote_urlopen env (length (fetches w)) url with
    | FetchResponse _ body => Some (Ok body, add_fetch url w)
    | FetchRaises e => Some (Raise e, add_fetch url w)
    end.

(** [os.exit(1)]: the module [os] has no attribute [exit]. *)
Definition os_exit {A} : M A := raise (OtherError (py "AttributeError")).

(** The body of the loop over the currencies. *)
Definition update_price (env : Env) (source symbol : text) : M text :=
  let* req :=
    try_except (request_urlopen env (price_url symbol))
      (fun e =>
         let* _ := print (str_of_exception env e) in
         os_exit) in
  let* found := lift (search_cell env symbol source) in
  match found with
  | None => raise (OtherError (py "AttributeError"))
  | Some old =>
      let* new := lift (format_price env req) in
      ret (replace source old new)
  end.

Fixpoint update_prices (env : Env) (CURRENCIES : list text) (source : text)
    : M text :=
  match CURRENCIES with
  | [] => ret source
  | symbol :: CURRENCIES' =>
      let* source := update_price env source symbol in
      update_prices env CURRENCIES' source
  end.

Definition script (env : Env) : M unit :=
  match environ env !! py "CMC_API_KEY" with
  | None => raise (KeyError (py "CMC_API_KEY"))
  | Some CMC_API_KEY =>
      match environ env !! py "CURRENCIES" with
      | None => raise (KeyError (py "CURRENCIES"))
      | Some currencies =>
          let CURRENCIES := split COMMA currencies in
          let* source := read_text SOURCE_PATH in
          let* source := update_prices env CURRENCIES source in
          write_text SOURCE_PATH source
      end
  end.

End Cpt.

(** * Properties *)

(** ** The notions that the properties are stated with *)

(** *** The outcomes of summarize *)

(** The rejection categories of the specification, and the one that an
    outcome of [summarize] falls in: the policy marker, the length check,
    and, as malformed, the error marker and the absent text. *)
Inductive verdict :=
| Accepted (summary : text)
| RejectedPolicy
| RejectedTooShort
| RejectedMalformed
| Unexpected.

Definition verdict_of (r : outcome text) : verdict :=
  match r with
  | Ok summary => Accepted summary
  | Raise (LLMResponseInappropriateError _) => RejectedPolicy
  | Raise (LLMResponseTooShortError _) => RejectedTooShort
  | Raise (LLMResponseInvalidError _) | Raise LLMResponseError =>
      RejectedMalformed
  | Raise _ => Unexpected
  end.

(** The world after [n] more requests, all of them [req]. *)
Fixpoint add_requests (n : nat) (req : Request) (w : World) : World :=
  match n with
  | O => w
  | S n' => add_requests n' req (add_request req w)
  end.

(** The reply carries the error marker and not the policy marker. *)
Definition error_marked (r : Reply) : Prop :=
  exists t, r = ReplyText (Some t)
    /\ contains (py "ERROR") t = true
    /\ contains (py "INAPPROPRIATE") t = false.

(** *** The work of a loop *)

(** What a run may have added to the world: at most [dr] requests, [df]
    fetches and [dd] draws, and nothing to the files or to the output. *)
Definition grows (dr df dd : nat) (w w' : World) : Prop :=
  files w' = files w /\ stdout w' = stdout w
  /\ length (requests w') <= length (requests w) + dr
  /\ length (fetches w') <= length (fetches w) + df
  /\ draws w' <= draws w + dd.

(** [k] passes that end in [continue], one after the other. *)
Inductive resamples {A} (body : M (flow A)) : nat -> World -> World -> Prop :=
| resamples_O w : resamples body 0 w w
| resamples_S k w w1 w2 :
    body w = Some (Ok Continue, w1) ->
    resamples body k w1 w2 ->
    resamples body (S k) w w2.

(** How the loop ends when a pass ends in [r]. *)
Definition loop_result {A} (r : outcome (flow A)) : outcome (option A) :=
  match r with
  | Ok (Assign a) => Ok (Some a)
  | Ok _ => Ok None
  | Raise e => Raise e
  end.

(** *** The lines of the README that are updated *)

(** The lines that the loop of [generate_readme] takes as changed: the
    lines of the delta that start with ["+ "], without this prefix. *)
Definition changed_lines (delta : list text) : list text :=
  omap (fun line => if startswith (py "+ ") line
                    then Some (removeprefix (py "+ ") line) else None) delta.

(** The position that the loop gives a changed line is in the README. *)
Definition in_range (readme_inter_lines : list text) (len : nat)
    (changed_line : text) : Prop :=
  exists idx, index readme_inter_lines changed_line = Some idx /\ idx < len.

(** How many times [line] stands in [lines]. *)
Definition occurrences (lines : list text) (line : text) : nat :=
  length (filter (fun l => l = line) lines).

(** [line] stands in [lines] at a position that a text of [len] lines
    has. *)
Definition stands_below (lines : list text) (len : nat) (line : text) : Prop :=
  exists i, lines !! i = Some line /\ i < len.

(** *** The placeholders *)

(** The replacements that [render] makes, in its order. *)
Definition substitutions (scp_data : option SCPData)
    (wikipedia_data : option WikipediaData) : list (text * text) :=
  match scp_data with
  | Some scp_data =>
      [(py "{{SCP_URL}}", scp_url scp_data);
       (py "{{SCP_TITLE}}", scp_title scp_data);
       (py "{{SCP_TITLE_ALT}}", scp_title_alt scp_data);
       (py "{{SCP_SUMMARY}}", scp_summary scp_data)]
  | None => []
  end
  ++ match wikipedia_data with
     | Some wikipedia_data =>
         [(py "{{WIKIPEDIA_URL}}", wikipedia_url wikipedia_data);
          (py "{{WIKIPEDIA_TITLE}}", wikipedia_title wikipedia_data);
          (py "{{WIKIPEDIA_SUMMARY}}", wikipedia_summary wikipedia_data)]
     | None => []
     end.

Definition OPEN : N := 123%N.
Definition CLOSE : N := 125%N.

(** A text without braces. *)
Definition brace_free (s : text) : Prop :=
  Forall (fun c => c <> OPEN /\ c <> CLOSE) s.

(** A name between two pairs of braces. *)
Definition token (placeholder : text) : Prop :=
  exists name,
    placeholder = OPEN :: OPEN :: name ++ [CLOSE; CLOSE] /\ brace_free name.

Definition placeholders : list text :=
  [py "{{SCP_URL}}"; py "{{SCP_TITLE}}"; py "{{SCP_TITLE_ALT}}";
   py "{{SCP_SUMMARY}}"; py "{{WIKIPEDIA_URL}}"; py "{{WIKIPEDIA_TITLE}}";
   py "{{WIKIPEDIA_SUMMARY}}"].

(** *** Templates in parts *)

(** A template as its placeholders and the texts between them. *)
Inductive part :=
| Gap (t : text)
| Slot (placeholder : text).

Definition template_of (parts : list part) : text :=
  concat (map (fun x => match x with
                        | Gap t => t
                        | Slot placeholder => placeholder
                        end) parts).

(** The value that the replacements [subs] have for [placeholder], and
    the placeholder itself when they have none. *)
Fixpoint value_of (subs : list (text * text)) (placeholder : text) : text :=
  match subs with
  | [] => placeholder
  | (p, value) :: subs' =>
      if decide (p = placeholder) then value else value_of subs' placeholder
  end.

(** The template with every placeholder replaced by its value, in one
    pass: what is put in is not looked at again. *)
Definition filled (subs : list (text * text)) (parts : list part) : text :=
  concat (map (fun x => match x with
                        | Gap t => t
                        | Slot placeholder => value_of subs placeholder
                        end) parts).

(** [s.endswith(p)] *)
Definition endswith (p s : text) : bool :=
  startswith (reverse p) (reverse s).

(** [s] ends with a beginning of [placeholder] that is not all of it,
    which a text that follows may complete. *)
Definition unfinished (placeholder s : text) : bool :=
  existsb (fun k => endswith (take k placeholder) s)
    (seq 1 (length placeholder - 1)).

(** *** The scan of [find_longest_match] on a sequence and itself *)

Module Runs.

Import Difflib.

Section Runs.

Context {A : Type} `{EqDecision A}.
Variable isjunk : A -> bool.
Variable l : list A.

(** The length of the run of equal elements, none of them popular, that
    ends at [l[i]] and [l[j]]: the value that the scan gives [j2len[j]] in
    row [i]. *)
Fixpoint run (i j : nat) : nat :=
  match l !! i, l !! j with
  | Some x, Some y =>
      if decide (x = y) then
        if ispopular isjunk l x then 0
        else S match i, j with
               | S i', S j' => run i' j'
               | _, _ => 0
               end
      else 0
  | _, _ => 0
  end.

Definition before (i j : nat) : nat :=
  match i with
  | S i' => run i' j
  | O => 0
  end.

(** What holds of [best] before row [i]: it is on the diagonal, it ends
    before row [i], and no run on the diagonal before row [i] is longer. *)
Definition diagonal (i : nat) (best : nat * nat * nat) : Prop :=
  let '(besti, bestj, bestsize) := best in
  besti = bestj /\ besti + bestsize <= i
  /\ forall i', i' < i -> run i' i' <= bestsize.

End Runs.

End Runs.


(** ** Further notions *)

(** *** Texts *)

(** A text that neither begins nor ends with white space. *)
Definition trimmed (s : text) : Prop :=
  (forall c, head s = Some c -> isspace c = false)
  /\ (forall c, last s = Some c -> isspace c = false).

(** What [summarize] lets through: more than 200 characters, no newline,
    no white space at either end, and neither marker. *)
Definition well_formed_summary (t : text) : Prop :=
  200 < length t /\ (LF ∉ t) /\ trimmed t
  /\ contains (py "ERROR") t = false
  /\ contains (py "INAPPROPRIATE") t = false.

(** *** Worlds *)

(** The world after fetches of [urls], in this order. *)
Fixpoint add_fetches (urls : list text) (w : World) : World :=
  match urls with
  | [] => w
  | url :: urls' => add_fetches urls' (add_fetch url w)
  end.

(** The addresses of [k] attempts of [get_random_scp]. *)
Definition scp_fetches (graphql_api_endpoint : text) (k : nat) : list text :=
  match k with
  | O => []
  | S k' => graphql_api_endpoint :: replicate k' default_graphql_api_endpoint
  end.

(** The files and the output are as they were. *)
Definition silent (w w' : World) : Prop :=
  files w' = files w /\ stdout w' = stdout w.

(** Every run of [m] that ends is in [R]. *)
Definition keeps {A} (R : World -> World -> Prop) (m : M A) : Prop :=
  forall w r w', m w = Some (r, w') -> R w w'.

(** *** Values of json.loads *)

(** [v[key1][key2]...] *)
Fixpoint getpath (v : json) (keys : list text) : exn + json :=
  match keys with
  | [] => inr v
  | key :: keys' =>
      match getitem v key with
      | inl e => inl e
      | inr x => getpath x keys'
      end
  end.

(** ** Concrete collaborators

    An environment whose Gemini client answers its [n]-th request with
    [reply n], whose endpoint answers its [n]-th fetch with [fetched n], and
    whose library functions are as simple as can be; and a world with given
    files in which nothing has happened yet. *)

Module Fixtures.

Definition answering (reply : nat -> Reply) (fetched : nat -> Fetched)
    (parsed : exn + json) : Env :=
  {| generate_content := fun n _ => reply n;
     urlopen := fun n _ => fetched n;
     json_loads := fun _ => parsed;
     randbits := fun n => n;
     str_format := fun tpl _ value => inr (tpl ++ value);
     unquote := fun t => t |}.

Definition offline : nat -> Fetched :=
  fun _ => FetchRaises (OtherError (py "URLError")).

Definition unparsed : exn + json :=
  inl (OtherError (py "JSONDecodeError")).

Definition world_of (fs : gmap text text) : World :=
  {| files := fs; requests := []; fetches := []; draws := 0; stdout := [] |}.

(** A line of a text file. *)
Definition ln (s : string) : text := py s ++ [LF].

(** An answer of the GraphQL endpoint, parsed. *)
Definition scp_173 : json :=
  JObject
    [(py "data",
      JObject
        [(py "randomPage",
          JObject
            [(py "page",
              JObject
                [(py "alternateTitles",
                  JArray
                    [JObject [(py "title", JString (py "The Sculpture"))]]);
                 (py "url",
                  JString (py "http://scp-wiki.wikidot.com/scp-173"));
                 (py "wikidotInfo",
                  JObject [(py "title", JString (py "SCP-173"))])])])])].

Definition online : nat -> Fetched :=
  fun _ => FetchResponse 200 (py "{...}").

(** The arguments of a run with the defaults of the parser and the
    settings of the environment. *)
Definition args_of (max_retries : Z) : Args :=
  {| max_retries := max_retries;
     model := py "gemini-2.5-flash-lite";
     wikipedia_urls := py "./wikipedia_urls.txt";
     template := py "./README_TEMPLATE.md";
     output_readme := Some (py "README.md");
     gemini_api_key := Some (py "key");
     scp_user_prompt := Some (py "Summarize the SCP article at ");
     wikipedia_user_prompt := Some (py "Summarize this: ");
     scp_system_prompt := None;
     wikipedia_system_prompt := None |}.

End Fixtures.

(** ** summarize: one request *)

Section SummarizeOnce.

Variable env : Env.
Variables (user_prompt : text) (system_prompt : option text) (model : text).

Let req : Request :=
  {| req_model := model; req_contents := user_prompt;
     req_system_instruction := system_prompt |}.

(** A reply without a marker is trimmed, measured and returned. *)
Lemma summarize_clean fuel max_retries w t :
  generate_content env (length (requests w)) req = ReplyText (Some t) ->
  contains (py "INAPPROPRIATE") t = false ->
  contains (py "ERROR") t = false ->
  summarize env (S fuel) user_prompt system_prompt model max_retries w
  = Some (if length (strip t) <=? 200
          then Raise (LLMResponseTooShortError (strip t))
          else Ok (replace (strip t) [LF] [SPACE]), add_request req w).
Proof.
  intros Hreply Hpol Herr.
  cbn [summarize]. unfold bind at 1, models_generate_content.
  fold req. rewrite Hreply, Hpol. unfold bind, ret. rewrite Herr.
  destruct (length (strip t) <=? 200); reflexivity.
Qed.

Lemma summarize_absent fuel max_retries w :
  generate_content env (length (requests w)) req = ReplyText None ->
  summarize env (S fuel) user_prompt system_prompt model max_retries w
  = Some (Raise LLMResponseError, add_request req w).
Proof.
  intros Hreply. cbn [summarize]. unfold bind, models_generate_content.
  fold req. by rewrite Hreply.
Qed.

End SummarizeOnce.

(** C4. Validation length boundary: a reply without the error or the
    policy marker whose length after trimming is exactly 200 is rejected
    as too short; one whose length after trimming is 201 is accepted, and
    [summarize] returns it (trimmed, its newlines turned into spaces). *)
Theorem summarize_length_boundary env user_prompt system_prompt model
    fuel max_retries w t :
  let req := {| req_model := model; req_contents := user_prompt;
                req_system_instruction := system_prompt |} in
  generate_content env (length (requests w)) req = ReplyText (Some t) ->
  contains (py "INAPPROPRIATE") t = false ->
  contains (py "ERROR") t = false ->
  (length (strip t) = 200 ->
   summarize env (S fuel) user_prompt system_prompt model max_retries w
   = Some (Raise (LLMResponseTooShortError (strip t)), add_request req w))
  /\ (length (strip t) = 201 ->
      summarize env (S fuel) user_prompt system_prompt model max_retries w
      = Some (Ok (replace (strip t) [LF] [SPACE]), add_request req w)).
Proof.
  intros req Hreply Hpol Herr.
  split; intros Hlen;
    rewrite (summarize_clean env _ _ _ _ _ _ t Hreply Hpol Herr), Hlen;
    reflexivity.
Qed.

Lemma summarize_length_boundary_witness :
  let env n := Fixtures.answering (fun _ => ReplyText (Some (replicate n 97%N)))
                 Fixtures.offline Fixtures.unparsed in
  let req := {| req_model := py "gemini"; req_contents := py "Summarize";
                req_system_instruction := None |} in
  summarize (env 200) 1 (py "Summarize") None (py "gemini") 3
    (Fixtures.world_of ∅)
  = Some (Raise (LLMResponseTooShortError (replicate 200 97%N)),
          add_request req (Fixtures.world_of ∅))
  /\ summarize (env 201) 1 (py "Summarize") None (py "gemini") 3
       (Fixtures.world_of ∅)
     = Some (Ok (replicate 201 97%N), add_request req (Fixtures.world_of ∅)).
Proof.
  intros env req. split.
  - exact (proj1 (summarize_length_boundary (env 200) (py "Summarize") None
                    (py "gemini") 0 3 (Fixtures.world_of ∅)
                    (replicate 200 97%N) eq_refl eq_refl eq_refl) eq_refl).
  - exact (proj2 (summarize_length_boundary (env 201) (py "Summarize") None
                    (py "gemini") 0 3 (Fixtures.world_of ∅)
                    (replicate 201 97%N) eq_refl eq_refl eq_refl) eq_refl).
Defined.

(** C8, as stated, fails: the empty string is rejected as too short, not
    as malformed. *)
Lemma empty_output_is_not_malformed :
  let env := Fixtures.answering (fun _ => ReplyText (Some []))
               Fixtures.offline Fixtures.unparsed in
  exists r w',
    summarize env 1 (py "Summarize") None (py "gemini") 3
      (Fixtures.world_of ∅) = Some (r, w')
    /\ verdict_of r = RejectedTooShort
    /\ verdict_of r <> RejectedMalformed.
Proof.
  intros env.
  exists (Raise (LLMResponseTooShortError [])),
    (add_request {| req_model := py "gemini"; req_contents := py "Summarize";
                    req_system_instruction := None |} (Fixtures.world_of ∅)).
  split; [reflexivity|]. split; [reflexivity|]. discriminate.
Qed.

(** C8, amended. An absent text makes [summarize] raise the base
    [LLMResponseError], the malformed category, whatever the retry budget;
    the empty string, and any text that is empty once trimmed and carries
    no marker, is rejected as too short. *)
Theorem summarize_absent_or_empty env user_prompt system_prompt model
    fuel max_retries w :
  let req := {| req_model := model; req_contents := user_prompt;
                req_system_instruction := system_prompt |} in
  (generate_content env (length (requests w)) req = ReplyText None ->
   summarize env (S fuel) user_prompt system_prompt model max_retries w
   = Some (Raise LLMResponseError, add_request req w)
   /\ verdict_of (Raise LLMResponseError) = RejectedMalformed)
  /\ (generate_content env (length (requests w)) req = ReplyText (Some []) ->
      summarize env (S fuel) user_prompt system_prompt model max_retries w
      = Some (Raise (LLMResponseTooShortError []), add_request req w)
      /\ verdict_of (Raise (LLMResponseTooShortError [])) = RejectedTooShort).
Proof.
  intros req. split; intros Hreply.
  - split; [|reflexivity]. by apply summarize_absent.
  - split; [|reflexivity].
    by rewrite (summarize_clean env _ _ _ _ _ _ [] Hreply eq_refl eq_refl).
Qed.

Lemma summarize_absent_or_empty_witness :
  let absent := Fixtures.answering (fun _ => ReplyText None)
                  Fixtures.offline Fixtures.unparsed in
  let empty := Fixtures.answering (fun _ => ReplyText (Some []))
                 Fixtures.offline Fixtures.unparsed in
  let req := {| req_model := py "gemini"; req_contents := py "Summarize";
                req_system_instruction := None |} in
  summarize absent 1 (py "Summarize") None (py "gemini") 3
    (Fixtures.world_of ∅)
  = Some (Raise LLMResponseError, add_request req (Fixtures.world_of ∅))
  /\ summarize empty 1 (py "Summarize") None (py "gemini") 3
       (Fixtures.world_of ∅)
     = Some (Raise (LLMResponseTooShortError []),
             add_request req (Fixtures.world_of ∅)).
Proof.
  intros absent empty req. split.
  - exact (proj1 (proj1 (summarize_absent_or_empty absent (py "Summarize")
                           None (py "gemini") 0 3 (Fixtures.world_of ∅))
                    eq_refl)).
  - exact (proj1 (proj2 (summarize_absent_or_empty empty (py "Summarize")
                           None (py "gemini") 0 3 (Fixtures.world_of ∅))
                    eq_refl)).
Defined.

(** ** get_random_wikipedia_url *)

Lemma splitlines_nonempty keepends s : s <> [] -> splitlines keepends s <> [].
Proof.
  destruct s as [|c s']; [done|]. intros _. cbn [splitlines].
  destruct (cr_before_lf c s') eqn:Hcr.
  - destruct keepends.
    + by destruct (splitlines true s').
    + unfold cr_before_lf in Hcr.
      destruct s' as [|d s'']; [by rewrite andb_false_r in Hcr|].
      apply andb_true_iff in Hcr as [_ Hd%N.eqb_eq]. by subst d.
  - destruct (is_linebreak c); [done|]. by destruct (splitlines keepends s').
Qed.

Lemma secrets_choice_nonempty env {A} (seq : list A) w :
  seq <> [] ->
  exists x, x ∈ seq /\ secrets_choice env seq w = Some (Ok x, add_draw w).
Proof.
  destruct seq as [|x0 seq']; [done|]. intros _.
  eexists. split; [|reflexivity].
  by apply list_elem_of_In, nth_In, Nat.mod_upper_bound.
Qed.

Lemma get_random_wikipedia_url_of_lines env wikipedia_urls_fp w contents :
  files w !! wikipedia_urls_fp = Some contents ->
  contents <> [] ->
  exists line, line ∈ splitlines false contents
    /\ get_random_wikipedia_url env wikipedia_urls_fp w
       = Some (Ok (strip line), add_draw w).
Proof.
  intros Hfile Hne. unfold get_random_wikipedia_url, bind, read_text.
  rewrite Hfile.
  destruct (secrets_choice_nonempty env (splitlines false contents) w
              (splitlines_nonempty false _ Hne)) as (line & Hin & ->).
  by exists line.
Qed.

(** C10. When the file of URLs has contents, the function returns one of
    its lines, stripped; when its contents are empty, it raises the
    [IndexError] of a choice in an empty sequence. *)
Theorem get_random_wikipedia_url_spec env wikipedia_urls_fp w contents :
  files w !! wikipedia_urls_fp = Some contents ->
  (contents <> [] ->
   exists line, line ∈ splitlines false contents
     /\ get_random_wikipedia_url env wikipedia_urls_fp w
        = Some (Ok (strip line), add_draw w))
  /\ (contents = [] ->
      get_random_wikipedia_url env wikipedia_urls_fp w
      = Some (Raise IndexError, w)).
Proof.
  intros Hfile. split.
  - by apply get_random_wikipedia_url_of_lines.
  - intros ->. unfold get_random_wikipedia_url, bind, read_text.
    by rewrite Hfile.
Qed.

Lemma get_random_wikipedia_url_spec_witness :
  let env := Fixtures.answering (fun _ => ReplyText None) Fixtures.offline
               Fixtures.unparsed in
  let urls := Fixtures.ln "https://en.wikipedia.org/wiki/Coq "
              ++ Fixtures.ln "https://en.wikipedia.org/wiki/Rooster" in
  (exists line, line ∈ splitlines false urls
     /\ get_random_wikipedia_url env (py "urls.txt")
          (Fixtures.world_of {[ py "urls.txt" := urls ]})
        = Some (Ok (strip line),
                add_draw (Fixtures.world_of {[ py "urls.txt" := urls ]})))
  /\ get_random_wikipedia_url env (py "urls.txt")
       (Fixtures.world_of {[ py "urls.txt" := [] ]})
     = Some (Raise IndexError, Fixtures.world_of {[ py "urls.txt" := [] ]}).
Proof.
  intros env urls.
  assert (Hurls : files (Fixtures.world_of {[ py "urls.txt" := urls ]})
                  !! py "urls.txt" = Some urls) by (vm_compute; reflexivity).
  assert (Hnone : files (Fixtures.world_of {[ py "urls.txt" := [] ]})
                  !! py "urls.txt" = Some []) by (vm_compute; reflexivity).
  split.
  - apply (proj1 (get_random_wikipedia_url_spec env (py "urls.txt") _ urls
                    Hurls)).
    discriminate.
  - exact (proj2 (get_random_wikipedia_url_spec env (py "urls.txt") _ []
                    Hnone) eq_refl).
Defined.

(** ** summarize: the retries *)

Lemma add_requests_requests n req w :
  requests (add_requests n req w) = requests w ++ replicate n req.
Proof.
  revert w. induction n as [|n IH]; intros w; cbn.
  - by rewrite app_nil_r.
  - rewrite IH. cbn. by rewrite <- app_assoc.
Qed.

Lemma add_requests_rest n req w :
  files (add_requests n req w) = files w
  /\ fetches (add_requests n req w) = fetches w
  /\ draws (add_requests n req w) = draws w
  /\ stdout (add_requests n req w) = stdout w.
Proof.
  revert w. induction n as [|n IH]; intros w; cbn; [done|].
  destruct (IH (add_request req w)) as (-> & -> & -> & ->). done.
Qed.

Section SummarizeRetries.

Variable env : Env.
Variables (user_prompt : text) (system_prompt : option text) (model : text).

Let req : Request :=
  {| req_model := model; req_contents := user_prompt;
     req_system_instruction := system_prompt |}.

(** A service that only answers with the error marker uses up the budget:
    [n + 1] requests, all the same, then [LLMResponseInvalidError]. *)
Lemma summarize_exhausted n fuel w :
  (forall k, error_marked (generate_content env k req)) ->
  n < fuel ->
  exists t,
    summarize env fuel user_prompt system_prompt model (Z.of_nat n) w
    = Some (Raise (LLMResponseInvalidError t), add_requests (S n) req w).
Proof.
  intros Hmarked. revert fuel w.
  induction n as [|n IH]; intros fuel w Hfuel;
    (destruct fuel as [|fuel]; [lia|]);
    destruct (Hmarked (length (requests w))) as (t & Hreply & Herr & Hpol);
    cbn [summarize]; unfold bind at 1, models_generate_content;
    fold req; rewrite Hreply, Hpol, Herr.
  - exists t. reflexivity.
  - rewrite (proj2 (Z.eqb_neq (Z.of_nat (S n)) 0)) by lia.
    replace (Z.of_nat (S n) - 1)%Z with (Z.of_nat n) by lia.
    destruct (IH fuel (add_request req w)) as (t' & Hrec); [lia|].
    exists t'. unfold bind. by rewrite Hrec.
Qed.

(** With a budget that is not negative, [summarize] ends, whatever the
    service answers, after at most [max_retries + 1] requests; it changes
    nothing else. *)
Lemma summarize_ends n fuel w :
  n < fuel ->
  exists r k,
    summarize env fuel user_prompt system_prompt model (Z.of_nat n) w
    = Some (r, add_requests k req w)
    /\ 1 <= k <= S n.
Proof.
  revert fuel w. induction n as [|n IH]; intros fuel w Hfuel;
    (destruct fuel as [|fuel]; [lia|]);
    cbn [summarize]; unfold bind at 1, models_generate_content; fold req;
    (destruct (generate_content env (length (requests w)) req)
       as [[t|]|e]; [|by eexists _, 1; split; [reflexivity|lia]..]);
    (destruct (contains (py "INAPPROPRIATE") t);
       [by eexists _, 1; split; [reflexivity|lia]|]);
    unfold bind, ret; destruct (contains (py "ERROR") t);
    try (destruct (length (strip t) <=? 200);
         by eexists _, 1; split; [reflexivity|lia]).
  rewrite (proj2 (Z.eqb_neq (Z.of_nat (S n)) 0)) by lia.
  replace (Z.of_nat (S n) - 1)%Z with (Z.of_nat n) by lia.
  destruct (IH fuel (add_request req w)) as (r & k & Hrec & Hk); [lia|].
  rewrite Hrec. destruct r as [t'|e].
  - destruct (length (strip t') <=? 200);
      eexists _, (S k); (split; [reflexivity|lia]).
  - eexists _, (S k). split; [reflexivity|lia].
Qed.

End SummarizeRetries.

(** ** The loops of _main *)

Lemma grows_refl dr df dd w : grows dr df dd w w.
Proof. unfold grows. repeat split; lia. Qed.

Lemma grows_trans dr1 df1 dd1 dr2 df2 dd2 dr df dd w1 w2 w3 :
  grows dr1 df1 dd1 w1 w2 -> grows dr2 df2 dd2 w2 w3 ->
  dr1 + dr2 <= dr -> df1 + df2 <= df -> dd1 + dd2 <= dd ->
  grows dr df dd w1 w3.
Proof.
  unfold grows. intros (-> & -> & ? & ? & ?) (-> & -> & ? & ? & ?) ? ? ?.
  repeat split; lia.
Qed.

Lemma grows_add_requests k req w dr df dd :
  k <= dr -> grows dr df dd w (add_requests k req w).
Proof.
  intros Hk. unfold grows.
  destruct (add_requests_rest k req w) as (-> & -> & -> & ->).
  rewrite add_requests_requests, length_app, length_replicate.
  repeat split; lia.
Qed.

Lemma grows_add_fetch url w dr df dd : 1 <= df -> grows dr df dd w (add_fetch url w).
Proof.
  intros ?. unfold grows; cbn. rewrite length_app; cbn. repeat split; lia.
Qed.

Lemma grows_add_draw w dr df dd : 1 <= dd -> grows dr df dd w (add_draw w).
Proof. intros ?. unfold grows; cbn. repeat split; lia. Qed.

Lemma bind_lift {A B} (r : exn + A) (k : A -> M B) w :
  bind (lift r) k w
  = match r with
    | inl e => Some (Raise e, w)
    | inr a => k a w
    end.
Proof. by destruct r. Qed.

Lemma while_none_ends {A} (body : M (flow A)) k w w1 r w2 fuel :
  resamples body k w w1 ->
  body w1 = Some (r, w2) ->
  r <> Ok Continue ->
  k < fuel ->
  while_none fuel body w = Some (loop_result r, w2).
Proof.
  intros Hk Hlast Hr. revert fuel.
  induction Hk as [w|k w w1 w' Hpass _ IH]; intros fuel Hfuel;
    (destruct fuel as [|fuel]; [lia|]); cbn [while_none]; unfold bind.
  - rewrite Hlast. by destruct r as [[| |a]|e].
  - rewrite Hpass. apply IH; [done|lia].
Qed.

Lemma while_none_diverges {A} (body : M (flow A)) (P : World -> Prop) :
  (forall w, P w -> exists w', body w = Some (Ok Continue, w') /\ P w') ->
  forall fuel w, P w -> while_none fuel body w = None.
Proof.
  intros Hbody fuel. induction fuel as [|fuel IH]; intros w Hw; [done|].
  cbn [while_none]. unfold bind.
  destruct (Hbody w Hw) as (w' & -> & Hw'). by apply IH.
Qed.

(** A value read with [lift]: either the reading raises, which [tac]
    settles, or the run goes on. *)
Ltac read_or tac :=
  rewrite bind_lift;
  match goal with
  | |- context [match ?x with inl _ => _ | inr _ => _ end] =>
      destruct x; [by tac|]
  end.

Section Passes.

Variable env : Env.
Variable args : Args.

(** [get_random_scp] ends, with a budget that is not negative, after at
    most [max_retries + 1] fetches. *)
Lemma get_random_scp_ends n fuel graphql_api_endpoint w :
  n < fuel ->
  exists r w',
    get_random_scp env fuel (Z.of_nat n) graphql_api_endpoint w
    = Some (r, w')
    /\ grows 0 (S n) 0 w w'.
Proof.
  revert fuel graphql_api_endpoint w.
  induction n as [|n IH]; intros fuel ep w Hfuel;
    (destruct fuel as [|fuel]; [lia|]); cbn [get_random_scp];
    (destruct (negb _);
       [by eexists _, _; split; [reflexivity|apply grows_refl]|]);
    unfold bind at 1, ureq_urlopen;
    (destruct (urlopen env (length (fetches w)) ep) as [e|status body];
       [by eexists _, _; split; [reflexivity|apply grows_add_fetch; lia]|]);
    rewrite bind_lift;
    (destruct (json_loads env body) as [e|j];
       [by eexists _, _; split; [reflexivity|apply grows_add_fetch; lia]|]);
    (destruct (negb (status =? 200)%Z);
       [|by eexists _, _; split; [reflexivity|apply grows_add_fetch; lia]]).
  - eexists _, _. split; [reflexivity|apply grows_add_fetch; lia].
  - rewrite (proj2 (Z.eqb_neq (Z.of_nat (S n)) 0)) by lia.
    replace (Z.of_nat (S n) - 1)%Z with (Z.of_nat n) by lia.
    destruct (IH fuel default_graphql_api_endpoint (add_fetch ep w))
      as (r & w' & -> & Hw'); [lia|].
    eexists _, _. split; [reflexivity|].
    eapply grows_trans;
      [apply (grows_add_fetch ep w 0 1 0); lia|exact Hw'|lia..].
Qed.

(** The [except] clauses catch every exception: the pass goes on or the
    loop is left. *)
Lemma on_summarize_error_catches {A} e w :
  exists f : flow A, on_summarize_error e w = Some (Ok (inl f), w).
Proof. destruct e; by eexists. Qed.

(** The [try] around [summarize], in either loop: it ends, after at most
    [max_retries + 1] requests. *)
Lemma summarized_ends {A} n fuel (prompt : exn + text) system_prompt w :
  n < fuel ->
  exists (r : flow A + text) w',
    try_except
      (let* prompt := lift prompt in
       let* summary :=
         summarize env fuel prompt system_prompt (model args) (Z.of_nat n) in
       ret (inr summary))
      on_summarize_error w = Some (Ok r, w')
    /\ grows (S n) 0 0 w w'.
Proof.
  intros Hfuel. unfold try_except. rewrite bind_lift.
  destruct prompt as [e|prompt].
  - destruct (on_summarize_error_catches (A:=A) e w) as (f & ->).
    eexists _, w. split; [reflexivity|apply grows_refl].
  - unfold bind.
    destruct (summarize_ends env prompt system_prompt (model args) n fuel w
                Hfuel) as (r & k & -> & Hk).
    destruct r as [summary|e].
    + eexists _, _. split; [reflexivity|]. apply grows_add_requests; lia.
    + destruct (on_summarize_error_catches (A:=A) e (add_requests k
                  {| req_model := model args; req_contents := prompt;
                     req_system_instruction := system_prompt |} w))
        as (f & ->).
      eexists _, _. split; [reflexivity|]. apply grows_add_requests; lia.
Qed.

Lemma wikipedia_pass_ends fuel wikipedia_user_prompt w :
  (0 <= max_retries args)%Z ->
  (max_retries args < Z.of_nat fuel)%Z ->
  exists r w',
    wikipedia_pass env fuel args wikipedia_user_prompt w = Some (r, w')
    /\ grows (Z.to_nat (max_retries args) + 1) 0 1 w w'.
Proof.
  intros Hpos Hfuel. unfold wikipedia_pass.
  unfold bind at 1, get_random_wikipedia_url, bind at 1, read_text.
  destruct (files w !! wikipedia_urls args) as [contents|];
    [|by eexists _, _; split; [reflexivity|apply grows_refl]].
  unfold bind at 1, secrets_choice.
  destruct (splitlines false contents) as [|line0 lines];
    [by eexists _, _; split; [reflexivity|apply grows_refl]|].
  unfold ret at 1. unfold bind at 1.
  rewrite <- (Z2Nat.id (max_retries args)) by done.
  edestruct (summarized_ends (A:=WikipediaData)
               (Z.to_nat (max_retries args)) fuel)
    as (r & w' & -> & Hw'); [lia|].
  destruct r as [f|summary]; eexists _, _; (split; [reflexivity|]);
    (eapply grows_trans;
       [apply (grows_add_draw w 0 0 1); lia|exact Hw'|lia..]).
Qed.

Lemma scp_pass_ends fuel scp_user_prompt w :
  (0 <= max_retries args)%Z ->
  (max_retries args < Z.of_nat fuel)%Z ->
  exists r w',
    scp_pass env fuel args scp_user_prompt w = Some (r, w')
    /\ grows (Z.to_nat (max_retries args) + 1)
         (Z.to_nat (max_retries args) + 1) 0 w w'.
Proof.
  intros Hpos Hfuel. unfold scp_pass.
  unfold bind at 1, try_except at 1, bind at 1.
  rewrite <- (Z2Nat.id (max_retries args)) by done.
  destruct (get_random_scp_ends (Z.to_nat (max_retries args)) fuel
              default_graphql_api_endpoint w) as (r & w1 & -> & Hw1); [lia|].
  rewrite Nat2Z.id.
  assert (Hraise : forall (e : exn) (w2 : World),
            grows (Z.to_nat (max_retries args) + 1) 0 0 w1 w2 ->
            exists (r : outcome (flow SCPData)) w',
              Some (Raise e, w2) = Some (r, w')
              /\ grows (Z.to_nat (max_retries args) + 1)
                   (Z.to_nat (max_retries args) + 1) 0 w w').
  { intros e w2 Hw2. eexists _, _. split; [reflexivity|].
    eapply grows_trans; [exact Hw1|exact Hw2|lia..]. }
  destruct r as [scp_raw_data|e]; cycle 1.
  { eexists _, _. split; [destruct e; reflexivity|].
    eapply grows_trans; [exact Hw1|apply (grows_refl 0 0 0)|lia..]. }
  unfold ret at 1.
  repeat read_or ltac:(apply Hraise, grows_refl).
  unfold bind at 1.
  edestruct (summarized_ends (A:=SCPData) (Z.to_nat (max_retries args)) fuel)
    as (r & w2 & -> & Hw2); [lia|].
  destruct r as [f|summary].
  { eexists _, _. split; [reflexivity|].
    eapply grows_trans; [exact Hw1|exact Hw2|lia..]. }
  assert (Hw2' : grows (Z.to_nat (max_retries args) + 1) 0 0 w1 w2).
  { eapply grows_trans; [apply (grows_refl 0 0 0)|exact Hw2|lia..]. }
  repeat read_or ltac:(apply Hraise).
  destruct (truthy _).
  - unfold bind at 1.
    repeat read_or ltac:(apply Hraise).
    unfold lift at 1.
    match goal with
    | |- context [as_str ?x] => destruct (as_str x)
    end; [by apply Hraise|].
    eexists _, _. split; [reflexivity|].
    eapply grows_trans; [exact Hw1|exact Hw2'|lia..].
  - eexists _, _. split; [reflexivity|].
    eapply grows_trans; [exact Hw1|exact Hw2'|lia..].
Qed.

End Passes.

(** ** Retry exhaustion *)

Lemma default_endpoint_accepted :
  negb (startswith (py "http:") default_graphql_api_endpoint
        || startswith (py "https:") default_graphql_api_endpoint) = false.
Proof. reflexivity. Qed.

(** C5. Retry exhaustion: when every reply of the service carries the error
    marker (and not the policy marker) and the budget is [N], [summarize]
    sends exactly [N + 1] requests, all with the same prompt, and raises
    [LLMResponseInvalidError]; the loop of either channel then leaves with
    no data after this one item: one draw, or one fetch, and the [N + 1]
    requests. *)
Theorem retry_exhaustion env args fuel w :
  (0 <= max_retries args)%Z ->
  (max_retries args < Z.of_nat fuel)%Z ->
  (forall k req, error_marked (generate_content env k req)) ->
  let attempts := Z.to_nat (max_retries args) + 1 in
  (forall user_prompt system_prompt model,
     exists t,
       summarize env fuel user_prompt system_prompt model (max_retries args) w
       = Some (Raise (LLMResponseInvalidError t),
               add_requests attempts
                 {| req_model := model; req_contents := user_prompt;
                    req_system_instruction := system_prompt |} w))
  /\ (forall wikipedia_user_prompt contents,
        files w !! wikipedia_urls args = Some contents ->
        contents <> [] ->
        (forall url, exists prompt,
           str_format env wikipedia_user_prompt (py "wikipedia_url") url
           = inr prompt) ->
        exists prompt,
          while_none fuel (wikipedia_pass env fuel args wikipedia_user_prompt) w
          = Some (Ok None,
                  add_requests attempts
                    {| req_model := model args; req_contents := prompt;
                       req_system_instruction := wikipedia_system_prompt args |}
                    (add_draw w)))
  /\ (forall scp_user_prompt body scp_raw_data data random_page page url,
        urlopen env (length (fetches w)) default_graphql_api_endpoint
        = FetchResponse 200 body ->
        json_loads env body = inr scp_raw_data ->
        getitem scp_raw_data (py "data") = inr data ->
        getitem data (py "randomPage") = inr random_page ->
        getitem random_page (py "page") = inr page ->
        getitem page (py "url") = inr (JString url) ->
        (forall url, exists prompt,
           str_format env scp_user_prompt (py "scp_url") url = inr prompt) ->
        exists prompt,
          while_none fuel (scp_pass env fuel args scp_user_prompt) w
          = Some (Ok None,
                  add_requests attempts
                    {| req_model := model args; req_contents := prompt;
                       req_system_instruction := scp_system_prompt args |}
                    (add_fetch default_graphql_api_endpoint w))).
Proof.
  intros Hpos Hfuel Hmarked attempts.
  assert (Hsum : forall user_prompt system_prompt model w,
            exists t,
              summarize env fuel user_prompt system_prompt model
                (max_retries args) w
              = Some (Raise (LLMResponseInvalidError t),
                      add_requests attempts
                        {| req_model := model; req_contents := user_prompt;
                           req_system_instruction := system_prompt |} w)).
  { intros user_prompt system_prompt model w0.
    subst attempts. rewrite Nat.add_1_r.
    remember (Z.to_nat (max_retries args)) as n eqn:Hn.
    replace (max_retries args) with (Z.of_nat n) by lia.
    apply summarize_exhausted; [by intros k|lia]. }
  destruct fuel as [|fuel]; [lia|].
  split; [by intros; apply Hsum|]. split.
  - intros wikipedia_user_prompt contents Hfile Hne Hformat.
    cbn [while_none]. unfold bind at 1, wikipedia_pass.
    unfold bind at 1.
    destruct (get_random_wikipedia_url_of_lines env _ _ _ Hfile Hne)
      as (line & _ & ->).
    destruct (Hformat (strip line)) as (prompt & Hprompt).
    unfold bind at 1, try_except. rewrite bind_lift, Hprompt. unfold bind.
    destruct (Hsum prompt (wikipedia_system_prompt args) (model args)
                (add_draw w)) as (t & ->).
    by exists prompt.
  - intros scp_user_prompt body scp_raw_data data random_page page url
      Hfetch Hparse Hdata Hrandom Hpage Hurl Hformat.
    cbn [while_none]. unfold bind at 1, scp_pass.
    unfold bind at 1, try_except at 1, bind at 1.
    cbn [get_random_scp]. rewrite default_endpoint_accepted.
    unfold bind at 1, ureq_urlopen. rewrite Hfetch, bind_lift, Hparse.
    cbn [negb Z.eqb Pos.eqb]. unfold ret at 1 2.
    rewrite !bind_lift, Hdata, !bind_lift, Hrandom, !bind_lift, Hpage,
      !bind_lift, Hurl, !bind_lift. cbn [as_str].
    destruct (Hformat url) as (prompt & Hprompt).
    unfold bind at 1, try_except. rewrite bind_lift, Hprompt. unfold bind.
    destruct (Hsum prompt (scp_system_prompt args) (model args)
                (add_fetch default_graphql_api_endpoint w)) as (t & ->).
    by exists prompt.
Qed.

Lemma retry_exhaustion_witness :
  let env := Fixtures.answering
               (fun _ => ReplyText (Some (py "ERROR: the page is unreachable")))
               Fixtures.online (inr Fixtures.scp_173) in
  let args := Fixtures.args_of 2 in
  let w := Fixtures.world_of
             {[ py "./wikipedia_urls.txt"
                := Fixtures.ln "https://en.wikipedia.org/wiki/Rooster" ]} in
  (exists t,
     summarize env 3 (py "Summarize") None (py "gemini") 2 w
     = Some (Raise (LLMResponseInvalidError t),
             add_requests 3
               {| req_model := py "gemini"; req_contents := py "Summarize";
                  req_system_instruction := None |} w))
  /\ (exists prompt,
        while_none 3 (wikipedia_pass env 3 args (py "Summarize this: ")) w
        = Some (Ok None,
                add_requests 3
                  {| req_model := model args; req_contents := prompt;
                     req_system_instruction := None |} (add_draw w)))
  /\ (exists prompt,
        while_none 3 (scp_pass env 3 args (py "Summarize the SCP article at ")) w
        = Some (Ok None,
                add_requests 3
                  {| req_model := model args; req_contents := prompt;
                     req_system_instruction := None |}
                  (add_fetch default_graphql_api_endpoint w))).
Proof.
  intros env args w.
  assert (Hmarked : forall k req, error_marked (generate_content env k req)).
  { intros k req. eexists. split; [reflexivity|]. split; reflexivity. }
  assert (Hfile : files w !! wikipedia_urls args
                  = Some (Fixtures.ln "https://en.wikipedia.org/wiki/Rooster"))
    by (vm_compute; reflexivity).
  destruct (retry_exhaustion env args 3 w ltac:(simpl; lia) ltac:(simpl; lia)
              Hmarked) as (Hsum & Hwiki & Hscp).
  split; [exact (Hsum (py "Summarize") None (py "gemini"))|]. split.
  - apply (Hwiki (py "Summarize this: ") _ Hfile); [discriminate|].
    intros url. eexists. reflexivity.
  - apply (Hscp (py "Summarize the SCP article at ") (py "{...}")
             Fixtures.scp_173 _ _ _ _ eq_refl eq_refl eq_refl eq_refl eq_refl
             eq_refl).
    intros url. eexists. reflexivity.
Defined.

(** ** The work of the two loops *)

Lemma summarize_inappropriate env user_prompt system_prompt model fuel
    max_retries w t :
  generate_content env (length (requests w))
    {| req_model := model; req_contents := user_prompt;
       req_system_instruction := system_prompt |} = ReplyText (Some t) ->
  contains (py "INAPPROPRIATE") t = true ->
  summarize env (S fuel) user_prompt system_prompt model max_retries w
  = Some (Raise (LLMResponseInappropriateError t),
          add_request {| req_model := model; req_contents := user_prompt;
                         req_system_instruction := system_prompt |} w).
Proof.
  intros Hreply Hpol. cbn [summarize]. unfold bind, models_generate_content.
  by rewrite Hreply, Hpol.
Qed.

Lemma resamples_grows {A} (body : M (flow A)) dr df dd k w w1 :
  (forall w r w', body w = Some (r, w') -> grows dr df dd w w') ->
  resamples body k w w1 ->
  grows (k * dr) (k * df) (k * dd) w w1.
Proof.
  intros Hbody Hk. induction Hk as [w|k w w1 w2 Hpass _ IH].
  - apply grows_refl.
  - eapply grows_trans; [exact (Hbody _ _ _ Hpass)|exact IH|lia..].
Qed.

(** C9, as stated, fails: against a service that finds every article
    inappropriate the Wikipedia loop draws a new article for ever, and
    [_main] does not end, whatever the fuel. *)
Lemma resampling_never_ends :
  let env := Fixtures.answering
               (fun _ => ReplyText (Some (py "INAPPROPRIATE")))
               Fixtures.offline Fixtures.unparsed in
  let w := Fixtures.world_of
             {[ py "./wikipedia_urls.txt"
                := Fixtures.ln "https://en.wikipedia.org/wiki/Rooster" ]} in
  ~ exists fuel r, _main env fuel (Fixtures.args_of 3) w = Some r.
Proof.
  intros env w (fuel & r & Hrun). revert Hrun.
  destruct fuel as [|fuel]; [discriminate|].
  unfold _main. cbn [scp_user_prompt wikipedia_user_prompt gemini_api_key
                       Fixtures.args_of].
  unfold bind at 1.
  assert (Hscp : while_none (S fuel)
                   (scp_pass env (S fuel) (Fixtures.args_of 3)
                      (py "Summarize the SCP article at ")) w
                 = Some (Ok None, add_fetch default_graphql_api_endpoint w)).
  { cbn [while_none]. unfold bind at 1, scp_pass.
    unfold bind at 1, try_except at 1, bind at 1.
    cbn [get_random_scp]. rewrite default_endpoint_accepted.
    reflexivity. }
  rewrite Hscp. unfold bind at 1.
  rewrite (while_none_diverges _
             (fun w => files w !! py "./wikipedia_urls.txt"
                       = Some (Fixtures.ln "https://en.wikipedia.org/wiki/Rooster")));
    [discriminate| |vm_compute; reflexivity].
  intros w0 Hfile.
  unfold wikipedia_pass. unfold bind at 1.
  change (wikipedia_urls (Fixtures.args_of 3)) with (py "./wikipedia_urls.txt").
  destruct (get_random_wikipedia_url_of_lines env _ _ _ Hfile)
    as (line & _ & ->); [discriminate|].
  unfold bind at 1, try_except. rewrite bind_lift. cbn [str_format env
    Fixtures.answering]. unfold bind.
  erewrite summarize_inappropriate; [|reflexivity..].
  eexists. split; [reflexivity|exact Hfile].
Qed.

(** C9, amended. With a budget [N] that is not negative, every pass of
    either loop ends, after at most [N + 1] requests and, for the SCP
    channel, [N + 1] fetches, or one draw for the Wikipedia channel; and a
    loop ends with the first pass that does not end in [continue]: with
    the data, with no data, or with the exception that the pass let
    through, after [k] passes that were rejected for their content. The
    number [k] of these has no bound. *)
Theorem loops_end_with_first_decisive_pass env args fuel
    scp_user_prompt wikipedia_user_prompt :
  (0 <= max_retries args)%Z ->
  (max_retries args < Z.of_nat fuel)%Z ->
  let n := Z.to_nat (max_retries args) + 1 in
  let scp := scp_pass env fuel args scp_user_prompt in
  let wikipedia := wikipedia_pass env fuel args wikipedia_user_prompt in
  (forall w, exists r w', scp w = Some (r, w') /\ grows n n 0 w w')
  /\ (forall w, exists r w', wikipedia w = Some (r, w') /\ grows n 0 1 w w')
  /\ (forall k w w1 r w2,
        k < fuel -> resamples scp k w w1 ->
        scp w1 = Some (r, w2) -> r <> Ok Continue ->
        while_none fuel scp w = Some (loop_result r, w2)
        /\ grows ((k + 1) * n) ((k + 1) * n) 0 w w2)
  /\ (forall k w w1 r w2,
        k < fuel -> resamples wikipedia k w w1 ->
        wikipedia w1 = Some (r, w2) -> r <> Ok Continue ->
        while_none fuel wikipedia w = Some (loop_result r, w2)
        /\ grows ((k + 1) * n) 0 (k + 1) w w2).
Proof.
  intros Hpos Hfuel n scp wikipedia.
  assert (Hscp : forall w, exists r w', scp w = Some (r, w') /\ grows n n 0 w w')
    by (intros w; by apply scp_pass_ends).
  assert (Hwiki : forall w, exists r w',
            wikipedia w = Some (r, w') /\ grows n 0 1 w w')
    by (intros w; by apply wikipedia_pass_ends).
  split; [exact Hscp|]. split; [exact Hwiki|]. split.
  - intros k w w1 r w2 Hk Hres Hlast Hr.
    split; [by eapply while_none_ends|].
    eapply grows_trans.
    + apply (resamples_grows scp n n 0 k w w1); [|exact Hres].
      intros w0 r0 w0' Hpass. destruct (Hscp w0) as (r' & w' & Heq & Hg).
      congruence.
    + destruct (Hscp w1) as (r' & w' & Heq & Hg).
      replace w2 with w' by congruence. exact Hg.
    + lia.
    + lia.
    + lia.
  - intros k w w1 r w2 Hk Hres Hlast Hr.
    split; [by eapply while_none_ends|].
    eapply grows_trans.
    + apply (resamples_grows wikipedia n 0 1 k w w1); [|exact Hres].
      intros w0 r0 w0' Hpass. destruct (Hwiki w0) as (r' & w' & Heq & Hg).
      congruence.
    + destruct (Hwiki w1) as (r' & w' & Heq & Hg).
      replace w2 with w' by congruence. exact Hg.
    + lia.
    + lia.
    + lia.
Qed.

Lemma loops_end_with_first_decisive_pass_witness :
  let env := Fixtures.answering
               (fun n => if n =? 0
                         then ReplyText (Some (py "INAPPROPRIATE"))
                         else ReplyText (Some (replicate 201 97%N)))
               Fixtures.offline Fixtures.unparsed in
  let args := Fixtures.args_of 1 in
  let url := py "https://en.wikipedia.org/wiki/Rooster" in
  let w := Fixtures.world_of {[ py "./wikipedia_urls.txt" := url ++ [LF] ]} in
  let req := {| req_model := model args;
                req_contents := py "Summarize this: " ++ url;
                req_system_instruction := None |} in
  let w1 := add_request req (add_draw w) in
  let w2 := add_request req (add_draw w1) in
  let scp := scp_pass env 2 args (py "Summarize the SCP article at ") in
  let wikipedia := wikipedia_pass env 2 args (py "Summarize this: ") in
  (while_none 2 scp w
   = Some (Ok None, add_fetch default_graphql_api_endpoint w)
   /\ grows 2 2 0 w (add_fetch default_graphql_api_endpoint w))
  /\ (while_none 2 wikipedia w
      = Some (Ok (Some {| wikipedia_title := py "Rooster";
                          wikipedia_url := url;
                          wikipedia_summary := replicate 201 97%N |}), w2)
      /\ grows 4 0 2 w w2).
Proof.
  intros env args url w req w1 w2 scp wikipedia.
  destruct (loops_end_with_first_decisive_pass env args 2
              (py "Summarize the SCP article at ") (py "Summarize this: ")
              ltac:(simpl; lia) ltac:(simpl; lia))
    as (_ & _ & Hscp & Hwikipedia).
  split.
  - apply (Hscp 0 w w (Ok Break) (add_fetch default_graphql_api_endpoint w)).
    + lia.
    + constructor.
    + vm_compute; reflexivity.
    + discriminate.
  - apply (Hwikipedia 1 w w1
             (Ok (Assign {| wikipedia_title := py "Rooster";
                            wikipedia_url := url;
                            wikipedia_summary := replicate 201 97%N |})) w2).
    + lia.
    + apply (resamples_S _ 0 w w1 w1); [vm_compute; reflexivity|constructor].
    + vm_compute; reflexivity.
    + discriminate.
Defined.

(** ** A failure of the Wikipedia source *)

(** C7, on an input where it fails: the SCP article is fetched and
    summarized, and the file of Wikipedia URLs is empty. The [IndexError]
    of [get_random_wikipedia_url] leaves [_main]: no README is generated,
    nothing is written and nothing is printed. *)
Lemma empty_url_list_aborts_main :
  let env := Fixtures.answering
               (fun _ => ReplyText (Some (replicate 201 97%N)))
               Fixtures.online (inr Fixtures.scp_173) in
  let w := Fixtures.world_of
             {[ py "./wikipedia_urls.txt" := [];
                py "./README_TEMPLATE.md" := Fixtures.ln "{{SCP_SUMMARY}}";
                py "README.md" := Fixtures.ln "An older summary." ]} in
  let req := {| req_model := py "gemini-2.5-flash-lite";
                req_contents := py "Summarize the SCP article at "
                                ++ py "http://scp-wiki.wikidot.com/scp-173";
                req_system_instruction := None |} in
  scp_pass env 4 (Fixtures.args_of 3) (py "Summarize the SCP article at ") w
  = Some (Ok (Assign {| scp_title := py "SCP-173";
                        scp_title_alt := py "The Sculpture";
                        scp_url := py "http://scp-wiki.wikidot.com/scp-173";
                        scp_summary := replicate 201 97%N |}),
          add_request req (add_fetch default_graphql_api_endpoint w))
  /\ _main env 4 (Fixtures.args_of 3) w
     = Some (Raise IndexError,
             add_request req (add_fetch default_graphql_api_endpoint w)).
Proof. intros env w req. split; vm_compute; reflexivity. Qed.

(** ** difflib on two equal sequences

    When [a] and [b] are the same sequence and nothing is junk, the longest
    match that [find_longest_match] finds lies on the diagonal, and its
    extension covers the whole sequence, also when the popular elements
    are left out of [b2j]. *)

Module DifflibFacts.

Import Difflib.

Section EqualSequences.

Context {A : Type} `{EqDecision A}.
Variable isjunk : A -> bool.
Hypothesis nothing_is_junk : forall x, isjunk x = false.
Variable l : list A.

Local Abbreviation run := (Runs.run isjunk l).
Local Abbreviation before := (Runs.before isjunk l).
Local Abbreviation diagonal := (Runs.diagonal isjunk l).

Lemma run_unfold i j :
  run i j
  = match l !! i, l !! j with
    | Some x, Some y =>
        if decide (x = y) then
          if ispopular isjunk l x then 0
          else S match j with
                 | S j' => before i j'
                 | O => 0
                 end
        else 0
    | _, _ => 0
    end.
Proof. destruct i, j; reflexivity. Qed.

Lemma run_diag i x :
  l !! i = Some x -> ispopular isjunk l x = false ->
  run i i = S match i with S i' => before i i' | O => 0 end.
Proof. intros Hi Hpop. by rewrite run_unfold, Hi, decide_True, Hpop. Qed.

Lemma run_positive i j x y :
  l !! i = Some x -> l !! j = Some y -> run i j <> 0 ->
  x = y /\ ispopular isjunk l x = false
  /\ run i j = S match j with S j' => before i j' | O => 0 end.
Proof.
  intros Hi Hj. rewrite run_unfold, Hi, Hj.
  destruct (decide (x = y)); [|done]. destruct (ispopular isjunk l x); done.
Qed.

Lemma run_zero i j : l !! i = None \/ l !! j = None -> run i j = 0.
Proof.
  rewrite run_unfold. intros [-> | ->]; [done|]. by destruct (l !! i).
Qed.

Lemma run_le_diag i j : run i j <= run i i /\ run i j <= run j j.
Proof.
  revert j. induction i as [|i IH]; intros j.
  - destruct (decide (run 0 j = 0)) as [->|Hpos]; [lia|].
    destruct (l !! 0) as [x|] eqn:Hi; [|by rewrite run_zero in Hpos; auto].
    destruct (l !! j) as [y|] eqn:Hj; [|by rewrite run_zero in Hpos; auto].
    destruct (run_positive _ _ _ _ Hi Hj Hpos) as (<- & Hpop & ->).
    rewrite (run_diag _ _ Hi Hpop), (run_diag _ _ Hj Hpop).
    destruct j; cbn; lia.
  - destruct (decide (run (S i) j = 0)) as [->|Hpos]; [lia|].
    destruct (l !! S i) as [x|] eqn:Hi; [|by rewrite run_zero in Hpos; auto].
    destruct (l !! j) as [y|] eqn:Hj; [|by rewrite run_zero in Hpos; auto].
    destruct (run_positive _ _ _ _ Hi Hj Hpos) as (<- & Hpop & ->).
    rewrite (run_diag _ _ Hi Hpop), (run_diag _ _ Hj Hpop).
    destruct j as [|j]; cbn; [lia|]. destruct (IH j). lia.
Qed.

Lemma run_le i j : run i j <= S i.
Proof.
  revert j. induction i as [|i IH]; intros j.
  - destruct (decide (run 0 j = 0)) as [->|Hpos]; [lia|].
    destruct (l !! 0) as [x|] eqn:Hi; [|by rewrite run_zero in Hpos; auto].
    destruct (l !! j) as [y|] eqn:Hj; [|by rewrite run_zero in Hpos; auto].
    destruct (run_positive _ _ _ _ Hi Hj Hpos) as (<- & Hpop & ->).
    destruct j; cbn; lia.
  - destruct (decide (run (S i) j = 0)) as [->|Hpos]; [lia|].
    destruct (l !! S i) as [x|] eqn:Hi; [|by rewrite run_zero in Hpos; auto].
    destruct (l !! j) as [y|] eqn:Hj; [|by rewrite run_zero in Hpos; auto].
    destruct (run_positive _ _ _ _ Hi Hj Hpos) as (<- & Hpop & ->).
    destruct j as [|j]; cbn; [lia|]. specialize (IH j). lia.
Qed.

(** One row of the scan, from the position [s] of [b] on. *)
Lemma scan_row_diagonal i x j2len s rest m best :
  l !! i = Some x ->
  ispopular isjunk l x = false ->
  (forall j, default 0 (j2len !! j) = before i j) ->
  drop s l = rest ->
  (forall j, j < s -> default 0 (m !! j) = run i j) ->
  (forall j, s <= j -> m !! j = None) ->
  (let '(besti, bestj, bestsize) := best in
   besti = bestj /\ besti + bestsize <= S i
   /\ (forall i', i' < i -> run i' i' <= bestsize)
   /\ (s <= i -> besti + bestsize <= i)
   /\ (i < s -> run i i <= bestsize)) ->
  let '(m', best') :=
    scan_row i 0 (length l) j2len (indices_from x s rest) m best in
  (forall j, default 0 (m' !! j) = run i j) /\ diagonal (S i) best'.
Proof.
  intros Hi Hpop Hprev. revert s m best.
  induction rest as [|y rest IH]; intros s m [[besti bestj] bestsize]
    Hdrop Hm Hnone (Hdiag & Hend & Hbefore & Hnot_yet & Hdone).
  - assert (length l <= s) as Hs.
    { apply (f_equal length) in Hdrop. rewrite length_drop in Hdrop.
      cbn in Hdrop. lia. }
    cbn. split.
    + intros j. destruct (decide (j < s)) as [?|?]; [by apply Hm|].
      rewrite Hnone by lia. rewrite run_unfold, Hi.
      rewrite (lookup_ge_None_2 l j) by lia. done.
    + split_and!; [done|lia|].
      intros i' Hi'. destruct (decide (i' = i)) as [->|]; [|apply Hbefore; lia].
      apply Hdone. apply lookup_lt_Some in Hi. lia.
  - assert (l !! s = Some y) as Hs.
    { rewrite <- (Nat.add_0_r s), <- lookup_drop, Hdrop. done. }
    assert (drop (S s) l = rest) as Hdrop'.
    { rewrite <- (drop_drop l 1 s) || rewrite <- Nat.add_1_r, <- drop_drop.
      all: by rewrite Hdrop. }
    assert (s < length l) as Hlt by (by apply lookup_lt_Some in Hs).
    cbn [indices_from]. destruct (decide (y = x)) as [->|Hne].
    + cbn [scan_row].
      replace (s <? 0) with false by (symmetry; apply Nat.ltb_ge; lia).
      replace (length l <=? s) with false by (symmetry; apply Nat.leb_gt; lia).
      set (k := match s with
                | O => 0
                | S j' => default 0 (j2len !! j')
                end + 1).
      assert (k = run i s) as Hk.
      { subst k. rewrite run_unfold, Hi, Hs, decide_True, Hpop by done.
        destruct s; [lia|]. rewrite Hprev. lia. }
      apply IH; [done| | |].
      * intros j Hj. destruct (decide (j = s)) as [->|].
        -- by rewrite lookup_insert_eq.
        -- rewrite lookup_insert_ne by done. apply Hm. lia.
      * intros j Hj. rewrite lookup_insert_ne by lia. apply Hnone. lia.
      * cbn [snd]. rewrite Hk.
        destruct (run_le_diag i s). pose proof (run_le i i).
        destruct (decide (s < i)) as [?|?];
          [|destruct (decide (s = i)) as [->|?]].
        -- pose proof (Hbefore s ltac:(done)).
           replace (bestsize <? run i s) with false
             by (symmetry; apply Nat.ltb_ge; lia).
           split_and!; [done|lia|done|lia|lia].
        -- destruct (bestsize <? run i i) eqn:Hupd.
           ++ split_and!; [lia|lia|..].
              ** intros i' Hi'. apply Nat.ltb_lt in Hupd.
                 specialize (Hbefore i' Hi'). lia.
              ** lia.
              ** lia.
           ++ apply Nat.ltb_ge in Hupd.
              split_and!; [done|lia|done|lia|lia].
        -- specialize (Hdone ltac:(lia)).
           replace (bestsize <? run i s) with false
             by (symmetry; apply Nat.ltb_ge; lia).
           split_and!; [done|lia|done|lia|lia].
    + apply IH; [done| | |].
      * intros j Hj. destruct (decide (j = s)) as [->|]; [|apply Hm; lia].
        rewrite Hnone by lia. rewrite run_unfold, Hi, Hs.
        by rewrite decide_False by congruence.
      * intros j Hj. apply Hnone. lia.
      * split_and!; [done|lia|done|lia|].
        intros ?. apply Hdone.
        destruct (decide (s = i)); [congruence|lia].
Qed.

Lemma run_popular i j x :
  l !! i = Some x -> ispopular isjunk l x = true -> run i j = 0.
Proof.
  intros Hi Hpop. rewrite run_unfold, Hi.
  destruct (l !! j); [|done]. destruct (decide _); [|done]. by rewrite Hpop.
Qed.

(** The rows [i], ..., [i + cnt - 1] of the scan. *)
Lemma scan_rows_diagonal cnt i j2len best :
  i + cnt <= length l ->
  (forall j, default 0 (j2len !! j) = before i j) ->
  diagonal i best ->
  diagonal (i + cnt)
    (scan_rows isjunk l l 0 (length l) (seq i cnt) j2len best).
Proof.
  revert i j2len best. induction cnt as [|cnt IH];
    intros i j2len [[besti bestj] bestsize] Hcnt Hprev Hbest.
  - by rewrite Nat.add_0_r.
  - cbn [seq scan_rows].
    destruct (lookup_lt_is_Some_2 l i ltac:(lia)) as [x Hi]. rewrite Hi.
    unfold b2j_get, isbjunk. rewrite nothing_is_junk, andb_false_r. cbn [orb].
    replace (i + S cnt) with (S i + cnt) by lia.
    destruct Hbest as (Hdiag & Hend & Hbefore).
    destruct (ispopular isjunk l x) eqn:Hpop.
    + cbn [scan_row]. apply IH; [lia| |].
      * intros j. cbn [before]. by rewrite (run_popular i j x).
      * split_and!; [done|lia|].
        intros i' Hi'. destruct (decide (i' = i)) as [->|]; [|apply Hbefore; lia].
        rewrite (run_popular i i x) by done. lia.
    + pose proof (scan_row_diagonal i x j2len 0 l ∅ (besti, bestj, bestsize)
                    Hi Hpop Hprev eq_refl) as Hrow.
      destruct (scan_row i 0 (length l) j2len (indices_from x 0 l) ∅
                  (besti, bestj, bestsize)) as [m' best'].
      destruct Hrow as [Hm' Hbest']; [intros; lia|done| |by apply IH; [lia|..]].
      split_and!; [done|lia|done|lia|lia].
Qed.

Lemma same_at_diagonal junk i :
  i < length l -> same_at isjunk l l junk i i = negb junk.
Proof.
  intros Hi. unfold same_at, isbjunk.
  destruct (lookup_lt_is_Some_2 l i Hi) as [x ->].
  rewrite nothing_is_junk, andb_false_r, (bool_decide_eq_true_2 (x = x)) by done.
  by destruct junk.
Qed.

Lemma extend_back_diagonal besti bestsize :
  besti <= length l ->
  extend_back isjunk l l false 0 0 besti besti bestsize
  = (0, 0, besti + bestsize).
Proof.
  revert bestsize. induction besti as [|besti IH]; intros bestsize Hi; [done|].
  cbn [extend_back]. rewrite same_at_diagonal by lia. cbn.
  rewrite IH by lia. f_equal. lia.
Qed.

Lemma extend_fwd_diagonal n bestsize :
  bestsize + n = length l ->
  extend_fwd isjunk l l false (length l) (length l) n 0 0 bestsize = length l.
Proof.
  revert bestsize. induction n as [|n IH]; intros bestsize Hn; cbn [extend_fwd].
  - lia.
  - cbn [Nat.add]. rewrite same_at_diagonal by lia.
    replace (bestsize <? length l) with true
      by (symmetry; apply Nat.ltb_lt; lia).
    cbn. apply IH. lia.
Qed.

Lemma find_longest_match_equal :
  find_longest_match isjunk l l 0 (length l) 0 (length l) = (0, 0, length l).
Proof.
  unfold find_longest_match. rewrite Nat.sub_0_r.
  pose proof (scan_rows_diagonal (length l) 0 ∅ (0, 0, 0)) as Hscan.
  destruct (scan_rows isjunk l l 0 (length l) (seq 0 (length l)) ∅ (0, 0, 0))
    as [[besti bestj] bestsize].
  destruct Hscan as (<- & Hend & _); [lia|done| |].
  { split_and!; [done|lia|]. intros i' Hi'. lia. }
  cbn [Nat.add] in Hend.
  rewrite extend_back_diagonal by lia.
  rewrite extend_fwd_diagonal by lia.
  cbn [extend_back Nat.add]. by rewrite Nat.sub_diag.
Qed.

Lemma get_matching_blocks_equal :
  get_matching_blocks isjunk l l
  = if length l =? 0 then [(0, 0, 0)]
    else [(0, 0, length l); (length l, length l, 0)].
Proof.
  unfold get_matching_blocks. replace (2 * length l + 1) with (S (2 * length l))
    by lia.
  cbn [matching_loop]. rewrite find_longest_match_equal.
  destruct (length l) as [|n] eqn:Hn; [by destruct (2 * 0)|].
  cbn [Nat.eqb]. rewrite !Nat.ltb_irrefl. cbn [andb Nat.add app].
  replace (S n <? S n) with false by (symmetry; apply Nat.ltb_irrefl).
  by destruct (2 * S n).
Qed.

Lemma get_opcodes_equal :
  get_opcodes isjunk l l
  = if length l =? 0 then [] else [(Equal, 0, length l, 0, length l)].
Proof.
  unfold get_opcodes. rewrite get_matching_blocks_equal.
  destruct (length l) as [|n]; [done|].
  cbn -[Nat.ltb]. by rewrite !Nat.ltb_irrefl.
Qed.

End EqualSequences.

(** On two equal lists of lines, the delta of [ndiff] is these lines, each
    after two spaces: no line is marked as added or removed. *)
Lemma ndiff_equal (lines : list text) :
  ndiff lines lines = map (fun line => py "  " ++ line) lines.
Proof.
  unfold ndiff, compare. rewrite (get_opcodes_equal no_junk) by done.
  destruct (Nat.eqb_spec (length lines) 0) as [Hlen|Hlen].
  - by rewrite (nil_length_inv _ Hlen).
  - cbn [flat_map]. rewrite app_nil_r.
    unfold _dump, slice. by rewrite Nat.sub_0_r, drop_0, take_ge.
Qed.

End DifflibFacts.

(** ** The update of the output README *)

Lemma join_push c ls : join (push c ls) = c :: join ls.
Proof. by destruct ls. Qed.

(** [splitlines(keepends=True)] loses nothing. *)
Lemma join_splitlines s : join (splitlines true s) = s.
Proof.
  induction s as [|c s IH]; [done|]. cbn [splitlines].
  destruct (cr_before_lf c s); [by rewrite join_push, IH|].
  destruct (is_linebreak c); [|by rewrite join_push, IH].
  unfold join in *. cbn. by rewrite IH.
Qed.

Lemma changed_lines_cons line delta :
  changed_lines (line :: delta)
  = if startswith (py "+ ") line
    then removeprefix (py "+ ") line :: changed_lines delta
    else changed_lines delta.
Proof.
  unfold changed_lines. cbn [omap list_omap].
  by destruct (startswith (py "+ ") line).
Qed.

Lemma in_range_dec readme_inter_lines len changed_line :
  Decision (in_range readme_inter_lines len changed_line).
Proof.
  unfold in_range. destruct (index readme_inter_lines changed_line) as [idx|].
  - destruct (decide (idx < len)); [left; eauto|right].
    intros (idx' & [= <-] & ?). lia.
  - right. by intros (idx' & ? & _).
Qed.

Section Patch.

Variables (readme_fp readme_template_fp : text).
Variable readme_inter_lines : list text.

Lemma patch_line_outcome readme_lines line :
  patch_line readme_fp readme_template_fp readme_inter_lines readme_lines line
  = if startswith (py "+ ") line then
      match index readme_inter_lines (removeprefix (py "+ ") line) with
      | Some idx =>
          if idx <? length readme_lines
          then Ok (<[idx := removeprefix (py "+ ") line]> readme_lines)
          else Raise (ValueError
                        (update_error_message readme_fp readme_template_fp))
      | None =>
          Raise (ValueError (update_error_message readme_fp readme_template_fp))
      end
    else Ok readme_lines.
Proof. reflexivity. Qed.

(** The loop fails exactly when the position of a changed line is not in
    the README, with the [ValueError] of the script; otherwise the README
    keeps its number of lines. *)
Lemma patch_lines_outcome delta readme_lines :
  (Forall (in_range readme_inter_lines (length readme_lines))
     (changed_lines delta)
   /\ exists readme_lines',
        patch_lines readme_fp readme_template_fp readme_inter_lines delta
          readme_lines = Ok readme_lines'
        /\ length readme_lines' = length readme_lines)
  \/ (Exists (fun line => ~ in_range readme_inter_lines (length readme_lines) line)
        (changed_lines delta)
      /\ patch_lines readme_fp readme_template_fp readme_inter_lines delta
           readme_lines
         = Raise (ValueError
                    (update_error_message readme_fp readme_template_fp))).
Proof.
  revert readme_lines. induction delta as [|line delta IH]; intros readme_lines.
  - left. split; [constructor|]. by exists readme_lines.
  - cbn [patch_lines]. rewrite patch_line_outcome, changed_lines_cons.
    destruct (startswith (py "+ ") line); [|exact (IH readme_lines)].
    destruct (index readme_inter_lines (removeprefix (py "+ ") line))
      as [idx|] eqn:Hidx.
    + destruct (Nat.ltb_spec idx (length readme_lines)) as [Hlt|Hge].
      * destruct (IH (<[idx := removeprefix (py "+ ") line]> readme_lines))
          as [(Hall & out & Hout & Hlen)|(Hex & Hout)];
          rewrite length_insert in *.
        -- left. split; [constructor; [by exists idx|done]|]. by exists out.
        -- right. split; [by apply Exists_cons_tl|done].
      * right. split; [|done]. apply Exists_cons_hd.
        intros (idx' & Hidx' & ?). rewrite Hidx in Hidx'.
        injection Hidx' as <-. lia.
    + right. split; [|done]. apply Exists_cons_hd.
      intros (idx' & Hidx' & _). by rewrite Hidx in Hidx'.
Qed.

Lemma patch_lines_unmarked delta readme_lines :
  changed_lines delta = [] ->
  patch_lines readme_fp readme_template_fp readme_inter_lines delta readme_lines
  = Ok readme_lines.
Proof.
  revert readme_lines. induction delta as [|line delta IH];
    intros readme_lines; [done|].
  rewrite changed_lines_cons. cbn [patch_lines]. rewrite patch_line_outcome.
  destruct (startswith (py "+ ") line); [done|]. apply IH.
Qed.

End Patch.

Lemma changed_lines_equal lines :
  changed_lines (Difflib.ndiff lines lines) = [].
Proof.
  rewrite DifflibFacts.ndiff_equal.
  induction lines as [|line lines IH]; [done|].
  cbn [map]. by rewrite changed_lines_cons.
Qed.

(** C3. No-op patch: patching with a rendered text that is the template
    itself returns the current text of the README unchanged, whatever the
    template and the README are. *)
Theorem patch_with_template_is_identity readme_fp readme_template_fp
    readme_template readme_text :
  patch readme_fp readme_template_fp readme_template readme_template
    readme_text = Ok readme_text.
Proof.
  unfold patch.
  rewrite patch_lines_unmarked by apply changed_lines_equal.
  by rewrite join_splitlines.
Qed.

Lemma startswith_app p s : startswith p (p ++ s) = true.
Proof. induction p as [|c p IH]; [done|]. cbn. by rewrite N.eqb_refl. Qed.

Lemma contains_infix sub pre post : contains sub (pre ++ sub ++ post) = true.
Proof.
  induction pre as [|c pre IH].
  - pose proof (startswith_app sub post) as Hstart.
    cbn [app]. destruct (sub ++ post); cbn [contains]; by rewrite Hstart.
  - cbn [app contains]. rewrite IH. apply orb_true_r.
Qed.

(** The message of the [ValueError] names the README and the template. *)
Lemma update_error_message_names readme_fp readme_template_fp :
  contains readme_fp (update_error_message readme_fp readme_template_fp) = true
  /\ contains readme_template_fp
       (update_error_message readme_fp readme_template_fp) = true.
Proof.
  unfold update_error_message. split.
  - apply contains_infix.
  - rewrite !app_assoc, <- app_assoc. apply contains_infix.
Qed.

Lemma index_lookup xs x i : index xs x = Some i -> xs !! i = Some x.
Proof.
  revert i. induction xs as [|y ys IH]; intros i; [done|]. cbn [index].
  destruct (decide (y = x)) as [->|_]; [by intros [= <-]|].
  destruct (index ys x) as [j|]; [|done]. intros [= <-]. by apply IH.
Qed.

Lemma index_found xs x i : xs !! i = Some x -> is_Some (index xs x).
Proof.
  revert i. induction xs as [|y ys IH]; intros i Hi; [done|]. cbn [index].
  destruct (decide (y = x)) as [->|Hne]; [done|].
  destruct i as [|i]; [by injection Hi|].
  destruct (IH i Hi) as (j & ->). done.
Qed.

(** A line that stands once has one position. *)
Lemma occurrences_once lines line i j :
  occurrences lines line <= 1 ->
  lines !! i = Some line -> lines !! j = Some line -> i = j.
Proof.
  unfold occurrences. revert i j.
  induction lines as [|l lines IH]; intros i j Hocc Hi Hj; [done|].
  rewrite filter_cons in Hocc.
  destruct (decide (l = line)) as [->|Hne].
  - cbn [length] in Hocc.
    assert (Hnone : forall k, lines !! k <> Some line).
    { intros k Hk.
      assert (Hin : line ∈ filter (fun l => l = line) lines).
      { apply list_elem_of_filter. split; [done|].
        by eapply list_elem_of_lookup_2. }
      destruct (filter _ lines); [by apply elem_of_nil in Hin|].
      cbn [length] in Hocc. lia. }
    destruct i as [|i]; [|by destruct (Hnone i)].
    destruct j as [|j]; [done|by destruct (Hnone j)].
  - destruct i as [|i]; [by injection Hi|].
    destruct j as [|j]; [by injection Hj|].
    f_equal. by apply IH.
Qed.

(** The position that [list.index] gives a line that stands once is the
    position of the line. *)
Lemma in_range_once lines len line :
  occurrences lines line <= 1 ->
  in_range lines len line <-> stands_below lines len line.
Proof.
  intros Honce. split.
  - intros (i & Hi & Hlt). exists i. split; [by apply index_lookup|done].
  - intros (i & Hi & Hlt). exists i. split; [|done].
    destruct (index_found _ _ _ Hi) as (j & Hj). rewrite Hj. f_equal.
    apply index_lookup in Hj. by apply (occurrences_once lines line).
Qed.

(** C2, as stated, fails: a README of two lines against a template of
    one line is patched, and written. *)
Lemma longer_readme_is_patched :
  let scp := {| scp_title := py "SCP-173"; scp_title_alt := py "The Sculpture";
                scp_url := py "http://scp-wiki.wikidot.com/scp-173";
                scp_summary := py "A statue." |} in
  let readme_template := Fixtures.ln "{{SCP_URL}}" in
  let readme_text := Fixtures.ln "an old link" ++ Fixtures.ln "a line of mine" in
  let patched := Fixtures.ln "http://scp-wiki.wikidot.com/scp-173"
                 ++ Fixtures.ln "a line of mine" in
  let w := Fixtures.world_of
             {[ py "./README_TEMPLATE.md" := readme_template;
                py "README.md" := readme_text ]} in
  length (splitlines true readme_text)
  <> length (splitlines true readme_template)
  /\ generate_readme (Some scp) None (Some (py "README.md"))
       (py "./README_TEMPLATE.md") w
     = Some (Ok patched, set_file (py "README.md") patched w).
Proof.
  intros scp readme_template readme_text patched w. split.
  - vm_compute. discriminate.
  - vm_compute. reflexivity.
Qed.

(** C2, amended. Take a rendering in which no changed line stands more
    than once, so that a changed line has one position in the rendered
    text. The update fails exactly when a changed line stands in the
    rendered text at a position that the README does not have: then
    [generate_readme] raises the [ValueError] whose message names the
    README and the template, and leaves the world as it was, nothing
    written. When the README has the position of every changed line, the
    README is patched and written, whether or not it has as many lines as
    the template. *)
Theorem mismatch_is_a_position_out_of_range scp_data wikipedia_data
    readme_fp readme_template_fp w readme_template readme_text :
  files w !! readme_template_fp = Some readme_template ->
  files w !! readme_fp = Some readme_text ->
  is_Some scp_data \/ is_Some wikipedia_data ->
  let readme_inter := render scp_data wikipedia_data readme_template in
  let readme_inter_lines := splitlines true readme_inter in
  let changed := changed_lines
                   (Difflib.ndiff (splitlines true readme_template)
                      readme_inter_lines) in
  let in_readme := stands_below readme_inter_lines
                     (length (splitlines true readme_text)) in
  Forall (fun line => occurrences readme_inter_lines line <= 1) changed ->
  (Exists (fun line => ~ in_readme line) changed ->
   generate_readme scp_data wikipedia_data (Some readme_fp)
     readme_template_fp w
   = Some (Raise (ValueError
                    (update_error_message readme_fp readme_template_fp)), w)
   /\ contains readme_fp (update_error_message readme_fp readme_template_fp)
      = true
   /\ contains readme_template_fp
        (update_error_message readme_fp readme_template_fp) = true)
  /\ (Forall in_readme changed ->
      exists readme_text',
        generate_readme scp_data wikipedia_data (Some readme_fp)
          readme_template_fp w
        = Some (Ok readme_text', set_file readme_fp readme_text' w)).
Proof.
  intros Htemplate Hreadme Hdata readme_inter readme_inter_lines changed
    in_readme Honce.
  assert (Hrun : generate_readme scp_data wikipedia_data (Some readme_fp)
                   readme_template_fp w
                 = match patch readme_fp readme_template_fp readme_template
                           readme_inter readme_text with
                   | Raise e => Some (Raise e, w)
                   | Ok readme_text' =>
                       Some (Ok readme_text', set_file readme_fp readme_text' w)
                   end).
  { unfold generate_readme, bind at 1, read_text. rewrite Htemplate.
    destruct scp_data, wikipedia_data;
      try (by destruct Hdata as [[? [=]]|[? [=]]]);
      unfold bind at 1; rewrite Hreadme; fold readme_inter;
      by destruct (patch _ _ _ _ _). }
  rewrite Forall_forall in Honce.
  rewrite Hrun. unfold patch. fold readme_inter_lines.
  destruct (patch_lines_outcome readme_fp readme_template_fp
              readme_inter_lines
              (Difflib.ndiff (splitlines true readme_template)
                 readme_inter_lines)
              (splitlines true readme_text))
    as [(Hall & out & -> & _)|(Hex & ->)].
  - split.
    + intros Hex. exfalso. apply Exists_exists in Hex as (line & Hin & Hout).
      rewrite Forall_forall in Hall.
      by apply Hout, in_range_once, Hall; [apply Honce|].
    + intros _. by eexists.
  - split.
    + intros _. split; [done|]. apply update_error_message_names.
    + intros Hall. exfalso. apply Exists_exists in Hex as (line & Hin & Hout).
      rewrite Forall_forall in Hall.
      by apply Hout, in_range_once, Hall; [apply Honce|].
Qed.

Lemma mismatch_is_a_position_out_of_range_witness :
  let scp := {| scp_title := py "SCP-173"; scp_title_alt := py "The Sculpture";
                scp_url := py "http://scp-wiki.wikidot.com/scp-173";
                scp_summary := py "A statue." |} in
  let readme_template :=
    Fixtures.ln "{{SCP_URL}}" ++ Fixtures.ln "--" ++ Fixtures.ln "{{SCP_TITLE}}" in
  let files_with readme_text : gmap text text :=
    {[ py "./README_TEMPLATE.md" := readme_template;
       py "README.md" := readme_text ]} in
  let short := Fixtures.world_of (files_with (Fixtures.ln "an old link")) in
  let long :=
    Fixtures.world_of
      (files_with (Fixtures.ln "an old link" ++ Fixtures.ln "--"
                   ++ Fixtures.ln "an old title" ++ Fixtures.ln "a line of mine")) in
  generate_readme (Some scp) None (Some (py "README.md"))
    (py "./README_TEMPLATE.md") short
  = Some (Raise (ValueError
                   (update_error_message (py "README.md")
                      (py "./README_TEMPLATE.md"))), short)
  /\ exists readme_text',
       generate_readme (Some scp) None (Some (py "README.md"))
         (py "./README_TEMPLATE.md") long
       = Some (Ok readme_text', set_file (py "README.md") readme_text' long).
Proof.
  intros scp readme_template files_with short long.
  assert (Hshort_template : files short !! py "./README_TEMPLATE.md"
                            = Some readme_template) by (vm_compute; reflexivity).
  assert (Hshort : files short !! py "README.md"
                   = Some (Fixtures.ln "an old link"))
    by (vm_compute; reflexivity).
  assert (Hlong_template : files long !! py "./README_TEMPLATE.md"
                           = Some readme_template) by (vm_compute; reflexivity).
  assert (Hlong : files long !! py "README.md"
                  = Some (Fixtures.ln "an old link" ++ Fixtures.ln "--"
                          ++ Fixtures.ln "an old title"
                          ++ Fixtures.ln "a line of mine"))
    by (vm_compute; reflexivity).
  assert (Hchanged :
            changed_lines
              (Difflib.ndiff (splitlines true readme_template)
                 (splitlines true (render (Some scp) None readme_template)))
            = [Fixtures.ln "http://scp-wiki.wikidot.com/scp-173";
               Fixtures.ln "SCP-173"]) by (vm_compute; reflexivity).
  assert (Honce :
            Forall (fun line =>
                      occurrences
                        (splitlines true (render (Some scp) None readme_template))
                        line <= 1)
              [Fixtures.ln "http://scp-wiki.wikidot.com/scp-173";
               Fixtures.ln "SCP-173"])
    by (repeat (apply Forall_cons; split; [vm_compute; lia|]);
        apply Forall_nil_2).
  split.
  - apply (mismatch_is_a_position_out_of_range (Some scp) None
             (py "README.md") (py "./README_TEMPLATE.md") short
             readme_template (Fixtures.ln "an old link") Hshort_template
             Hshort (or_introl (mk_is_Some _ _ eq_refl))).
    + by rewrite Hchanged.
    + rewrite Hchanged. apply Exists_cons_tl, Exists_cons_hd.
      intros (i & Hi & Hlt). vm_compute in Hlt.
      destruct i as [|i]; [discriminate Hi|lia].
  - apply (mismatch_is_a_position_out_of_range (Some scp) None
             (py "README.md") (py "./README_TEMPLATE.md") long
             readme_template _ Hlong_template Hlong
             (or_introl (mk_is_Some _ _ eq_refl))).
    + by rewrite Hchanged.
    + rewrite Hchanged.
      apply Forall_cons; split; [exists 0; split; [reflexivity|vm_compute; lia]|].
      apply Forall_cons; split; [exists 2; split; [reflexivity|vm_compute; lia]|].
      apply Forall_nil_2.
Defined.

(** C1, on an input where it fails. The template has a blank line and,
    below it, the line of the alternative title; the README was rendered
    from it, and its first line was then edited by hand; the new article
    has no alternative title, so the second line is rendered as a blank
    line. The three texts have two lines each, and the rendered text
    differs from the template in the second line only. The loop looks the
    changed line up with [list.index], finds the blank line above it, and
    overwrites the first line of the README, the one edited by hand; the
    second line keeps the old title. *)
Lemma repeated_line_is_patched_at_its_first_position :
  let scp := {| scp_title := py "SCP-173"; scp_title_alt := [];
                scp_url := py "http://scp-wiki.wikidot.com/scp-173";
                scp_summary := py "A statue." |} in
  let readme_template := Fixtures.ln "" ++ Fixtures.ln "{{SCP_TITLE_ALT}}" in
  let readme_inter := render (Some scp) None readme_template in
  let readme_text := Fixtures.ln "# My profile" ++ Fixtures.ln "The Sculpture" in
  let w := Fixtures.world_of
             {[ py "./README_TEMPLATE.md" := readme_template;
                py "README.md" := readme_text ]} in
  let written := Fixtures.ln "" ++ Fixtures.ln "The Sculpture" in
  splitlines true readme_template
  = [Fixtures.ln ""; Fixtures.ln "{{SCP_TITLE_ALT}}"]
  /\ splitlines true readme_inter = [Fixtures.ln ""; Fixtures.ln ""]
  /\ splitlines true readme_text
     = [Fixtures.ln "# My profile"; Fixtures.ln "The Sculpture"]
  /\ generate_readme (Some scp) None (Some (py "README.md"))
       (py "./README_TEMPLATE.md") w
     = Some (Ok written, set_file (py "README.md") written w)
  /\ written <> Fixtures.ln "# My profile" ++ Fixtures.ln "".
Proof.
  intros scp readme_template readme_inter readme_text w written.
  split_and!; try (vm_compute; reflexivity). vm_compute. discriminate.
Qed.

(** ** The placeholders *)

Lemma render_substitutions scp_data wikipedia_data readme_template :
  render scp_data wikipedia_data readme_template
  = foldl (fun readme_inter '(placeholder, value) =>
             replace readme_inter placeholder value)
      readme_template (substitutions scp_data wikipedia_data).
Proof. by destruct scp_data, wikipedia_data. Qed.

Lemma brace_free_py_name (name : string) :
  forallb (fun c => negb (c =? OPEN)%N && negb (c =? CLOSE)%N) (py name) = true ->
  brace_free (py name).
Proof.
  intros Hall. apply Forall_forall. intros c Hc.
  rewrite forallb_forall in Hall. apply list_elem_of_In, Hall in Hc.
  apply andb_true_iff in Hc as [Ho Hc]. split; intros ->; discriminate.
Qed.

Lemma placeholders_are_tokens : Forall token placeholders.
Proof.
  repeat apply Forall_cons_2; [..|apply Forall_nil_2].
  - exists (py "SCP_URL"). split; [done|by apply brace_free_py_name].
  - exists (py "SCP_TITLE"). split; [done|by apply brace_free_py_name].
  - exists (py "SCP_TITLE_ALT"). split; [done|by apply brace_free_py_name].
  - exists (py "SCP_SUMMARY"). split; [done|by apply brace_free_py_name].
  - exists (py "WIKIPEDIA_URL"). split; [done|by apply brace_free_py_name].
  - exists (py "WIKIPEDIA_TITLE"). split; [done|by apply brace_free_py_name].
  - exists (py "WIKIPEDIA_SUMMARY"). split; [done|by apply brace_free_py_name].
Qed.

Lemma substitutions_placeholders scp_data wikipedia_data :
  (map fst (substitutions scp_data wikipedia_data)) `sublist_of` placeholders.
Proof.
  destruct scp_data, wikipedia_data;
    cbv [substitutions map fst app placeholders].
  - reflexivity.
  - do 4 apply sublist_skip. apply sublist_nil_l.
  - do 4 apply sublist_cons. reflexivity.
  - apply sublist_nil_l.
Qed.

Lemma replace_from_skip old new x s :
  replace_from old new (length x) (x ++ s) = replace_from old new 0 s.
Proof.
  induction x as [|c x IH]; [|exact IH].
  by destruct s.
Qed.

Lemma startswith_first_differs c d p s :
  c <> d -> startswith (c :: p) (d :: s) = false.
Proof. intros Hne. cbn. by rewrite (proj2 (N.eqb_neq c d) Hne). Qed.

Lemma replace_from_after_no_open p new before s :
  Forall (fun c => c <> OPEN) before ->
  replace_from (OPEN :: p) new 0 (before ++ s)
  = before ++ replace_from (OPEN :: p) new 0 s.
Proof.
  induction 1 as [|c before Hc _ IH]; [done|].
  cbn [app replace_from]. by rewrite IH, startswith_first_differs.
Qed.

Lemma brace_free_no_open s : brace_free s -> Forall (fun c => c <> OPEN) s.
Proof. intros Hs. eapply Forall_impl; [exact Hs|]. by intros c [? _]. Qed.

(** A prefix of [x ++ y] that is not a prefix of [x] goes on in [y]. *)
Lemma startswith_app_inv p x y :
  startswith p (x ++ y) = true ->
  startswith p x = true
  \/ exists p', p = x ++ p' /\ p' <> [] /\ startswith p' y = true.
Proof.
  revert p. induction x as [|c x IH]; intros p Hp.
  - destruct p as [|d p]; [by left|]. right. by exists (d :: p).
  - destruct p as [|d p]; [by left|]. cbn in Hp.
    apply andb_true_iff in Hp as [Hd%N.eqb_eq Hp]. subst d.
    destruct (IH p Hp) as [Hx|(p' & -> & Hne & Hy)].
    + left. cbn. by rewrite N.eqb_refl.
    + right. by exists p'.
Qed.

Lemma startswith_prefix p s : startswith p s = true -> exists s', s = p ++ s'.
Proof.
  revert s. induction p as [|c p IH]; intros s Hs; [by exists s|].
  destruct s as [|d s]; [done|]. cbn in Hs.
  apply andb_true_iff in Hs as [Hd%N.eqb_eq Hs]. subst d.
  destruct (IH s Hs) as (s' & ->). by exists s'.
Qed.

Lemma token_not_empty placeholder : token placeholder -> placeholder <> [].
Proof. by intros (name & -> & _). Qed.

Section Substitutions.

Variable scp_data : option SCPData.
Variable wikipedia_data : option WikipediaData.

Lemma substitution_is_token i placeholder value :
  substitutions scp_data wikipedia_data !! i = Some (placeholder, value) ->
  token placeholder.
Proof.
  intros Hi.
  pose proof placeholders_are_tokens as Htokens.
  rewrite Forall_forall in Htokens. apply Htokens.
  eapply elem_of_sublist; [|apply substitutions_placeholders].
  apply list_elem_of_lookup. exists i.
  by rewrite list_lookup_fmap, Hi.
Qed.

End Substitutions.

(** A beginning of the placeholder that [unfinished] does not find is
    not at the end of the text. *)
Lemma unfinished_false placeholder s p1 p2 s0 :
  unfinished placeholder s = false ->
  placeholder = p1 ++ p2 -> p1 <> [] -> p2 <> [] ->
  s <> s0 ++ p1.
Proof.
  intros Hnone -> Hp1 Hp2 ->. unfold unfinished in Hnone.
  assert (Hfound : existsb (fun k => endswith (take k (p1 ++ p2)) (s0 ++ p1))
                     (seq 1 (length (p1 ++ p2) - 1)) = true).
  { apply existsb_exists. exists (length p1). split.
    - apply in_seq. rewrite length_app.
      destruct p1, p2; cbn in *; try done; lia.
    - rewrite take_app_length. unfold endswith.
      rewrite reverse_app. apply startswith_app. }
  congruence.
Qed.

(** The scan goes over a text that neither holds the placeholder nor ends
    with a beginning of it. *)
Lemma replace_from_apart p v x r :
  contains p x = false ->
  (forall p1 p2 x0, p = p1 ++ p2 -> p1 <> [] -> p2 <> [] -> x <> x0 ++ p1) ->
  replace_from p v 0 (x ++ r) = x ++ replace_from p v 0 r.
Proof.
  induction x as [|c x IH]; intros Hnone Hend; [done|].
  cbn [contains] in Hnone. apply orb_false_iff in Hnone as [Hstart Hnone].
  cbn [app replace_from].
  destruct (startswith p (c :: x ++ r)) eqn:Hacross.
  - exfalso.
    change (c :: x ++ r) with ((c :: x) ++ r) in Hacross.
    apply startswith_app_inv in Hacross
      as [Hin|(p' & Hsplit & Hne & _)]; [congruence|].
    by apply (Hend (c :: x) p' []).
  - f_equal. apply IH; [done|].
    intros p1 p2 x0 Hp Hp1 Hp2 ->. by apply (Hend p1 p2 (c :: x0)).
Qed.

(** The scan replaces the placeholder where it stands. *)
Lemma replace_from_here p v r :
  p <> [] -> replace_from p v 0 (p ++ r) = v ++ replace_from p v 0 r.
Proof.
  destruct p as [|c p]; [done|]. intros _. cbn [app replace_from].
  change (c :: p ++ r) with ((c :: p) ++ r). rewrite startswith_app.
  cbn [length Nat.sub]. by rewrite Nat.sub_0_r, replace_from_skip.
Qed.

Lemma names_agree_before name name' r :
  brace_free name -> brace_free name' ->
  startswith (name' ++ [CLOSE; CLOSE]) (name ++ [CLOSE; CLOSE] ++ r) = true ->
  name' = name.
Proof.
  intros Hname Hname'. revert name Hname.
  induction Hname' as [|c name' [_ Hc] _ IH]; intros name Hname Hstart.
  - destruct Hname as [|d name [_ Hd] _]; [done|].
    cbn [app] in Hstart. by rewrite startswith_first_differs in Hstart.
  - destruct Hname as [|d name [_ Hd] Hname].
    + cbn [app] in Hstart. by rewrite startswith_first_differs in Hstart.
    + cbn [app startswith] in Hstart.
      apply andb_true_iff in Hstart as [->%N.eqb_eq Hstart].
      f_equal. by apply IH.
Qed.

(** The scan goes over another placeholder. *)
Lemma replace_from_token p v q r :
  token p -> token q -> q <> p ->
  replace_from p v 0 (q ++ r) = q ++ replace_from p v 0 r.
Proof.
  intros (name & -> & Hname) (name' & -> & Hname') Hne.
  set (p := OPEN :: OPEN :: name ++ [CLOSE; CLOSE]).
  assert (Hrest : forall s,
            Forall (fun c => c <> OPEN) s ->
            replace_from p v 0 (s ++ r) = s ++ replace_from p v 0 r)
    by (intros s; apply replace_from_after_no_open).
  assert (Hinside : Forall (fun c => c <> OPEN) (name' ++ [CLOSE; CLOSE])).
  { apply Forall_app. split; [by apply brace_free_no_open|].
    by repeat constructor. }
  cbn [app replace_from].
  assert (Hfirst : startswith p
                     (OPEN :: OPEN :: (name' ++ [CLOSE; CLOSE]) ++ r) = false).
  { subst p. cbn [startswith]. rewrite !N.eqb_refl. cbn [andb].
    destruct (startswith _ _) eqn:Hstart; [|done]. exfalso. apply Hne.
    rewrite <- app_assoc in Hstart.
    by rewrite (names_agree_before name' name r Hname' Hname Hstart). }
  rewrite Hfirst.
  assert (Hsecond : startswith p (OPEN :: (name' ++ [CLOSE; CLOSE]) ++ r)
                    = false).
  { subst p. cbn [startswith]. apply andb_false_intro2.
    destruct (name' ++ [CLOSE; CLOSE]) as [|c s] eqn:Hs;
      [by destruct name'|].
    apply Forall_cons in Hinside as [Hc _].
    cbn [app]. apply startswith_first_differs. congruence. }
  rewrite Hsecond. by rewrite Hrest.
Qed.

(** The replacement of one placeholder in a text made of pieces that it
    does not straddle. *)
Lemma replace_pieces p v (xs : list text) :
  p <> [] ->
  Forall (fun x => x <> p ->
                   forall r, replace_from p v 0 (x ++ r)
                             = x ++ replace_from p v 0 r) xs ->
  replace (concat xs) p v
  = concat (map (fun x => if decide (x = p) then v else x) xs).
Proof.
  intros Hp Hxs.
  assert (Hreplace : forall s, replace s p v = replace_from p v 0 s)
    by (by destruct p).
  rewrite Hreplace. induction Hxs as [|x xs Hx _ IH]; [done|].
  cbn [concat map]. destruct (decide (x = p)) as [->|Hne].
  - by rewrite replace_from_here, IH.
  - by rewrite Hx, IH.
Qed.

Lemma value_of_found subs placeholder :
  placeholder ∈ subs.*1 ->
  exists i, subs !! i = Some (placeholder, value_of subs placeholder).
Proof.
  induction subs as [|[p value] subs IH]; [by intros ?%elem_of_nil|].
  cbn [value_of fmap list_fmap fst]. destruct (decide (p = placeholder)) as [->|Hne].
  - intros _. by exists 0.
  - intros [?|Hin]%elem_of_cons; [done|].
    destruct (IH Hin) as (i & Hi). by exists (S i).
Qed.

Lemma value_of_snoc subs p value placeholder :
  value_of (subs ++ [(p, value)]) placeholder
  = if decide (placeholder ∈ subs.*1) then value_of subs placeholder
    else if decide (p = placeholder) then value
    else placeholder.
Proof.
  induction subs as [|[p' value'] subs IH].
  - cbn [app value_of fmap list_fmap].
    by destruct (decide (placeholder ∈ [])) as [?%elem_of_nil|_].
  - cbn [app value_of fmap list_fmap fst].
    destruct (decide (p' = placeholder)) as [->|Hne].
    + destruct (decide (placeholder ∈ placeholder :: subs.*1)) as [_|Hout];
        [done|].
      exfalso. apply Hout. by left.
    + rewrite IH.
      destruct (decide (placeholder ∈ subs.*1)) as [Hin|Hout],
        (decide (placeholder ∈ p' :: subs.*1)) as [Hin'|Hout']; try done.
      * exfalso. apply Hout'. by right.
      * by apply elem_of_cons in Hin' as [?|?].
Qed.

Lemma contains_itself p : p <> [] -> contains p p = true.
Proof.
  intros Hp. destruct p as [|c p]; [done|]. cbn [contains].
  rewrite <- (app_nil_r (c :: p)) at 2. by rewrite startswith_app.
Qed.

Lemma replace_from_unfinished p v x :
  contains p x = false -> unfinished p x = false ->
  forall r, replace_from p v 0 (x ++ r) = x ++ replace_from p v 0 r.
Proof.
  intros Hnone Hend r. apply replace_from_apart; [done|].
  intros p1 p2 x0 Hp Hp1 Hp2. by eapply unfinished_false.
Qed.

(** One replacement, after those of [done]: the texts between the
    placeholders and the values put in before stay, the placeholder is
    replaced where it stands, the other placeholders stay. *)
Lemma replace_filled done p v parts :
  token p ->
  (forall q, Slot q ∈ parts -> token q) ->
  (forall t, Gap t ∈ parts ->
             contains p t = false /\ unfinished p t = false) ->
  (forall i q value,
     Slot q ∈ parts -> done !! i = Some (q, value) ->
     contains p value = false /\ unfinished p value = false) ->
  replace (filled done parts) p v = filled (done ++ [(p, v)]) parts.
Proof.
  intros Hp Hslots Hgaps Hdone.
  pose proof (token_not_empty p Hp) as Hne.
  unfold filled. rewrite replace_pieces; [|done|].
  - f_equal. rewrite map_map. apply map_ext_in.
    intros [t|q] Hin%list_elem_of_In.
    + destruct (decide (t = p)) as [->|_]; [|done].
      destruct (Hgaps p Hin) as [Hnone _].
      by rewrite contains_itself in Hnone.
    + rewrite value_of_snoc.
      destruct (decide (q ∈ done.*1)) as [Hq|Hq].
      * destruct (value_of_found done q Hq) as (i & Hi).
        destruct (Hdone i q _ Hin Hi) as [Hnone _].
        destruct (decide (value_of done q = p)) as [Heq|_]; [|done].
        by rewrite Heq, contains_itself in Hnone.
      * assert (Hsame : value_of done q = q).
        { clear - Hq. induction done as [|[p' value'] done IH]; [done|].
          cbn [value_of]. cbn [fmap list_fmap fst] in Hq.
          apply not_elem_of_cons in Hq as [Hq1 Hq2].
          rewrite decide_False by done. by apply IH. }
        rewrite Hsame.
        destruct (decide (q = p)) as [->|Hqp].
        -- by rewrite decide_True.
        -- by rewrite decide_False by congruence.
  - apply Forall_forall. intros x Hx%list_elem_of_In.
    apply in_map_iff in Hx as ([t|q] & <- & Hin%list_elem_of_In).
    + intros _. destruct (Hgaps t Hin). by apply replace_from_unfinished.
    + destruct (decide (q ∈ done.*1)) as [Hq|Hq].
      * destruct (value_of_found done q Hq) as (i & Hi).
        intros _. destruct (Hdone i q _ Hin Hi).
        by apply replace_from_unfinished.
      * assert (Hsame : value_of done q = q).
        { clear - Hq. induction done as [|[p' value'] done IH]; [done|].
          cbn [value_of]. cbn [fmap list_fmap fst] in Hq.
          apply not_elem_of_cons in Hq as [Hq1 Hq2].
          rewrite decide_False by done. by apply IH. }
        rewrite Hsame. intros Hqp r.
        apply replace_from_token; [done|by apply Hslots|done].
Qed.

(** C6, as stated, fails: a summary of the SCP article that holds the
    placeholder of the Wikipedia URL is put in, and the replacement of
    that placeholder, which comes later, expands it. *)
Lemma later_placeholder_in_value_is_expanded :
  let scp := {| scp_title := py "SCP-173"; scp_title_alt := [];
                scp_url := py "http://scp-wiki.wikidot.com/scp-173";
                scp_summary := py "see {{WIKIPEDIA_URL}}" |} in
  let wikipedia := {| wikipedia_title := py "Rooster";
                      wikipedia_url := py "https://en.wikipedia.org/wiki/Rooster";
                      wikipedia_summary := py "A bird." |} in
  render (Some scp) (Some wikipedia) (py "{{SCP_SUMMARY}}")
  = py "see https://en.wikipedia.org/wiki/Rooster"
  /\ render (Some scp) (Some wikipedia) (py "{{SCP_SUMMARY}}")
     <> scp_summary scp.
Proof.
  intros scp wikipedia. split; [vm_compute; reflexivity|].
  vm_compute. discriminate.
Qed.

(** The placeholder of a later replacement that a value and the text
    after it make up between them is expanded too. *)
Lemma placeholder_completed_by_value_is_expanded :
  let scp := {| scp_title := py "SCP-173"; scp_title_alt := [];
                scp_url := py "SUMMARY}}";
                scp_summary := py "A statue." |} in
  render (Some scp) None (py "{{SCP_{{SCP_URL}}") = py "A statue.".
Proof. intros scp. vm_compute. reflexivity. Qed.

(** C6, amended. [render] makes the replacements of the channels that
    are present one after the other, in the order of [substitutions].
    Take a template made of placeholders and of texts between them, any
    number of each, where no text between holds a placeholder of a
    channel that is present or ends with an unfinished one, and where no
    value put in for a placeholder of the template holds the placeholder
    of a later replacement or ends with an unfinished one. Then the text
    rendered is the template with every occurrence of every placeholder
    of a present channel replaced by its value as it is, the texts
    between and the placeholders of an absent channel unchanged:
    placeholder syntax inside a value, of the same placeholder, of an
    earlier one or of an absent channel, is not expanded. *)
Theorem render_fills_every_slot scp_data wikipedia_data parts :
  let subs := substitutions scp_data wikipedia_data in
  (forall placeholder, Slot placeholder ∈ parts -> placeholder ∈ placeholders) ->
  (forall t placeholder value,
     Gap t ∈ parts -> (placeholder, value) ∈ subs ->
     contains placeholder t = false /\ unfinished placeholder t = false) ->
  (forall i j placeholder value later value',
     Slot placeholder ∈ parts -> i < j ->
     subs !! i = Some (placeholder, value) ->
     subs !! j = Some (later, value') ->
     contains later value = false /\ unfinished later value = false) ->
  render scp_data wikipedia_data (template_of parts) = filled subs parts.
Proof.
  intros subs Hslots Hgaps Hvalues.
  assert (Htokens : forall q, Slot q ∈ parts -> token q).
  { intros q Hq. pose proof placeholders_are_tokens as Hall.
    rewrite Forall_forall in Hall. by apply Hall, Hslots. }
  rewrite render_substitutions. fold subs.
  change (template_of parts) with (filled [] parts).
  assert (Hrest : forall todo done,
            done ++ todo = subs ->
            foldl (fun readme_inter '(placeholder, value) =>
                     replace readme_inter placeholder value)
              (filled done parts) todo
            = filled subs parts).
  { induction todo as [|[p v] todo IH]; intros done Hsplit.
    - rewrite app_nil_r in Hsplit. by subst done.
    - cbn [foldl].
      assert (Hp : subs !! length done = Some (p, v)).
      { rewrite <- Hsplit. by rewrite lookup_app_r, Nat.sub_diag by lia. }
      rewrite (replace_filled done p v parts).
      + apply IH. by rewrite <- app_assoc.
      + by eapply substitution_is_token.
      + done.
      + intros t Ht. apply (Hgaps t p v Ht).
        eapply list_elem_of_lookup_2, Hp.
      + intros i q value Hq Hi.
        apply (Hvalues i (length done) q value p v Hq).
        * by eapply lookup_lt_Some.
        * rewrite <- Hsplit. by apply lookup_app_l_Some.
        * done. }
  by apply (Hrest subs []).
Qed.

Lemma render_fills_every_slot_witness :
  let scp := {| scp_title := py "SCP-173"; scp_title_alt := [];
                scp_url := py "http://scp-wiki.wikidot.com/scp-173";
                scp_summary := py "see {{SCP_URL}} and {{SCP_SUMMARY}}" |} in
  render (Some scp) None
    (py "[{{SCP_TITLE}}]({{SCP_URL}}) {{SCP_SUMMARY}} / {{SCP_TITLE}}{{WIKIPEDIA_URL}}")
  = py "[SCP-173](http://scp-wiki.wikidot.com/scp-173) see {{SCP_URL}} and {{SCP_SUMMARY}} / SCP-173{{WIKIPEDIA_URL}}".
Proof.
  intros scp.
  apply (render_fills_every_slot (Some scp) None
           [Gap (py "["); Slot (py "{{SCP_TITLE}}"); Gap (py "](");
            Slot (py "{{SCP_URL}}"); Gap (py ") ");
            Slot (py "{{SCP_SUMMARY}}"); Gap (py " / ");
            Slot (py "{{SCP_TITLE}}"); Slot (py "{{WIKIPEDIA_URL}}")]).
  - intros placeholder Hin.
    repeat (apply elem_of_cons in Hin as [Hin|Hin];
            [try discriminate Hin; injection Hin as ->; repeat constructor|]).
    by apply elem_of_nil in Hin.
  - intros t placeholder value Ht Hin.
    repeat (apply elem_of_cons in Hin as [Hin|Hin];
            [injection Hin as -> ->;
             repeat (apply elem_of_cons in Ht as [Ht|Ht];
                     [try discriminate Ht; injection Ht as ->;
                      vm_compute; split; reflexivity|]);
             by apply elem_of_nil in Ht|]).
    by apply elem_of_nil in Hin.
  - intros i j placeholder value later value' _ Hlt Hi Hj.
    destruct i as [|[|[|[|i]]]]; try discriminate Hi;
      injection Hi as <- <-;
      (destruct j as [|[|[|[|j]]]]; try discriminate Hj; try lia;
       injection Hj as <- <-; vm_compute; split; reflexivity).
Defined.

(** * Further properties *)

(** ** Python strings *)

(** *** Trimming *)

Lemma lstrip_spec s :
  exists pre, s = pre ++ lstrip s
    /\ Forall (fun c => isspace c = true) pre
    /\ forall c, head (lstrip s) = Some c -> isspace c = false.
Proof.
  induction s as [|c s (pre & Hs & Hpre & Hhead)]; cbn [lstrip].
  - by exists [].
  - destruct (isspace c) eqn:Hc.
    + exists (c :: pre). split_and!; [by rewrite Hs at 1|by constructor|done].
    + exists []. split_and!; [done|constructor|]. by intros ? [= <-].
Qed.

Lemma lstrip_fixed s :
  (forall c, head s = Some c -> isspace c = false) -> lstrip s = s.
Proof.
  destruct s as [|c s]; [done|]. intros Hc. cbn. by rewrite (Hc c).
Qed.

Lemma rstrip_spec s :
  exists post, s = rstrip s ++ post
    /\ Forall (fun c => isspace c = true) post
    /\ forall c, last (rstrip s) = Some c -> isspace c = false.
Proof.
  unfold rstrip. destruct (lstrip_spec (reverse s)) as (pre & Hs & Hpre & Hhead).
  exists (reverse pre). split_and!.
  - rewrite <- reverse_app. rewrite <- Hs. by rewrite reverse_involutive.
  - by apply Forall_reverse.
  - intros c. rewrite last_reverse. apply Hhead.
Qed.

Lemma rstrip_fixed s :
  (forall c, last s = Some c -> isspace c = false) -> rstrip s = s.
Proof.
  intros Hc. unfold rstrip. rewrite lstrip_fixed, reverse_involutive; [done|].
  intros c. rewrite head_reverse. apply Hc.
Qed.

Lemma head_app_keeps {A} (s post : list A) c :
  head (s ++ post) = Some c -> s <> [] -> head s = Some c.
Proof. by destruct s. Qed.

(** [strip] takes white space off both ends and nothing else. *)
Lemma strip_spec s :
  exists pre post, s = pre ++ strip s ++ post
    /\ Forall (fun c => isspace c = true) pre
    /\ Forall (fun c => isspace c = true) post
    /\ trimmed (strip s).
Proof.
  unfold strip.
  destruct (lstrip_spec s) as (pre & Hs & Hpre & Hhead).
  destruct (rstrip_spec (lstrip s)) as (post & Hl & Hpost & Hlast).
  exists pre, post. split_and!; [by rewrite <- Hl|done..|].
  split; [|done]. intros c Hc. apply Hhead. rewrite Hl.
  destruct (rstrip (lstrip s)); [done|]. done.
Qed.

Lemma strip_fixed s : trimmed s -> strip s = s.
Proof.
  intros [Hhead Hlast]. unfold strip. by rewrite lstrip_fixed, rstrip_fixed.
Qed.

(** *** Replacing one character *)

Lemma replace_char s x y :
  replace s [x] [y] = (fun c => if (x =? c)%N then y else c) <$> s.
Proof.
  cbn [replace]. induction s as [|c s IH]; [done|].
  cbn [replace_from startswith length]. rewrite andb_true_r.
  cbn [Nat.sub]. rewrite IH, fmap_cons. by destruct (x =? c)%N.
Qed.

Lemma replace_char_length s x y : length (replace s [x] [y]) = length s.
Proof. by rewrite replace_char, length_fmap. Qed.

Lemma replace_char_gone s x y : x <> y -> x ∉ replace s [x] [y].
Proof.
  intros Hxy. rewrite replace_char. intros (c & Hx & _)%list_elem_of_fmap.
  destruct (N.eqb_spec x c); congruence.
Qed.

Lemma replace_char_absent s x y : x ∉ s -> replace s [x] [y] = s.
Proof.
  rewrite replace_char. induction s as [|c s IH]; [done|].
  intros Hx. rewrite fmap_cons, IH by (intros ?; apply Hx; by right).
  destruct (N.eqb_spec x c) as [->|]; [|done]. destruct Hx. left.
Qed.

Lemma startswith_replace_char p s x y :
  x ∉ p -> y ∉ p ->
  startswith p (replace s [x] [y]) = startswith p s.
Proof.
  rewrite replace_char. revert s.
  induction p as [|d p IH]; intros [|c s] Hx Hy; try done.
  apply not_elem_of_cons in Hx as [Hxd Hx], Hy as [Hyd Hy].
  cbn. rewrite IH by done. f_equal.
  destruct (N.eqb_spec x c) as [->|]; [|done].
  by destruct (N.eqb_spec d y), (N.eqb_spec d c).
Qed.

Lemma contains_replace_char p s x y :
  x ∉ p -> y ∉ p ->
  contains p (replace s [x] [y]) = contains p s.
Proof.
  intros Hx Hy. induction s as [|c s IH].
  - done.
  - cbn [contains]. rewrite <- IH.
    rewrite <- (startswith_replace_char p (c :: s) x y) by done.
    rewrite !replace_char. done.
Qed.

Lemma trimmed_replace_char s x y :
  isspace x = true -> trimmed s -> trimmed (replace s [x] [y]).
Proof.
  intros Hx [Hhead Hlast]. rewrite replace_char. split; intros c.
  - destruct s as [|d s']; [done|]. cbn. intros [= <-].
    specialize (Hhead d eq_refl).
    destruct (N.eqb_spec x d); [congruence|done].
  - rewrite fmap_last. destruct (last s) as [d|] eqn:Hd; [|done].
    intros [= <-]. specialize (Hlast d eq_refl).
    destruct (N.eqb_spec x d); [congruence|done].
Qed.

(** *** Occurrences *)

Lemma startswith_app_l p s t :
  startswith p s = true -> startswith p (s ++ t) = true.
Proof.
  revert s. induction p as [|d p IH]; intros [|c s]; try done.
  cbn. intros [-> ?]%andb_true_iff. by rewrite IH.
Qed.

Lemma contains_app_l p s t : contains p s = true -> contains p (s ++ t) = true.
Proof.
  induction s as [|c s IH]; cbn [contains].
  - rewrite orb_false_r. destruct p; [|done]. intros _. by destruct t.
  - intros [H|H]%orb_true_iff; cbn [app contains].
    + pose proof (startswith_app_l p (c :: s) t H) as H'.
      cbn [app] in H'. by rewrite H'.
    + rewrite IH by done. apply orb_true_r.
Qed.

Lemma contains_app_r p s t : contains p s = true -> contains p (t ++ s) = true.
Proof.
  intros H. induction t as [|c t IH]; [done|].
  cbn [app contains]. rewrite IH. apply orb_true_r.
Qed.

Lemma contains_strip p s : contains p (strip s) = true -> contains p s = true.
Proof.
  intros H. destruct (strip_spec s) as (pre & post & Hs & _).
  rewrite Hs. by apply contains_app_r, contains_app_l.
Qed.

Lemma not_contains_strip p s : contains p s = false -> contains p (strip s) = false.
Proof.
  intros H. destruct (contains p (strip s)) eqn:Hc; [|done].
  by rewrite (contains_strip _ _ Hc) in H.
Qed.

(** A literal of the script without a given character. *)
Ltac not_in_literal :=
  let H := fresh in
  intros H; vm_compute in H;
  repeat (apply elem_of_cons in H as [H|H]; [discriminate H|]);
  by apply elem_of_nil in H.

Lemma clean_reply_summary reply :
  contains (py "ERROR") reply = false ->
  contains (py "INAPPROPRIATE") reply = false ->
  200 < length (strip reply) ->
  well_formed_summary (replace (strip reply) [LF] [SPACE]).
Proof.
  intros Herr Hpol Hlen. split_and!.
  - by rewrite replace_char_length.
  - by apply replace_char_gone.
  - apply trimmed_replace_char; [done|]. by destruct (strip_spec reply) as (? & ? & ? & ? & ? & ?).
  - rewrite contains_replace_char; [by apply not_contains_strip|not_in_literal..].
  - rewrite contains_replace_char; [by apply not_contains_strip|not_in_literal..].
Qed.

Lemma well_formed_summary_fixed t :
  well_formed_summary t -> replace (strip t) [LF] [SPACE] = t.
Proof.
  intros (_ & Hlf & Htrim & _). rewrite (strip_fixed t Htrim).
  by apply replace_char_absent.
Qed.

Lemma add_requests_S n req w :
  add_requests n req (add_request req w) = add_requests (S n) req w.
Proof. done. Qed.

Section SummarizeResult.

Variable env : Env.
Variables (user_prompt : text) (system_prompt : option text) (model : text).

Let req : Request :=
  {| req_model := model; req_contents := user_prompt;
     req_system_instruction := system_prompt |}.

(** What a call of [summarize] that ends has done: [k + 1] requests, all
    the same, and nothing else; a summary that it returns is the reply to
    the last of them, trimmed and without newlines. *)
Lemma summarize_result fuel max_retries w r w' :
  summarize env fuel user_prompt system_prompt model max_retries w
  = Some (r, w') ->
  exists k,
    w' = add_requests (S k) req w
    /\ ((0 <= max_retries)%Z -> (Z.of_nat k <= max_retries)%Z)
    /\ forall t, r = Ok t ->
         well_formed_summary t
         /\ exists reply,
              generate_content env (length (requests w) + k) req
              = ReplyText (Some reply)
              /\ contains (py "ERROR") reply = false
              /\ contains (py "INAPPROPRIATE") reply = false
              /\ t = replace (strip reply) [LF] [SPACE].
Proof.
  revert max_retries w r w'.
  induction fuel as [|fuel IH]; intros max_retries w r w'; [done|].
  cbn [summarize]. unfold bind at 1, models_generate_content. fold req.
  destruct (generate_content env (length (requests w)) req)
    as [[reply|]|e] eqn:Hreply;
    [|by intros [= <- <-]; exists 0; split_and!; [done|lia|done]..].
  destruct (contains (py "INAPPROPRIATE") reply) eqn:Hpol;
    [by intros [= <- <-]; exists 0; split_and!; [done|lia|done]|].
  unfold bind at 1. destruct (contains (py "ERROR") reply) eqn:Herr.
  - destruct (Z.eqb_spec max_retries 0) as [->|Hmr];
      [by intros [= <- <-]; exists 0; split_and!; [done|lia|done]|].
    destruct (summarize env fuel user_prompt system_prompt model
                (max_retries - 1) (add_request req w))
      as [[[t0|e] w0]|] eqn:Hrec; [| |done].
    + destruct (IH _ _ _ _ Hrec) as (k & -> & Hk & Hok).
      destruct (Hok t0 eq_refl) as (Hwf & reply0 & Hreply0 & Herr0 & Hpol0 & Ht0).
      rewrite (strip_fixed t0) by apply Hwf.
      destruct (Nat.leb_spec (length t0) 200) as [Hlen|_];
        [destruct Hwf as [? _]; lia|].
      rewrite replace_char_absent by apply Hwf.
      intros [= <- <-]. exists (S k). split_and!; [done|lia|].
      intros t [= <-]. split; [done|]. exists reply0. split_and!; try done.
      rewrite <- Hreply0. f_equal. cbn. rewrite length_app. cbn. lia.
    + destruct (IH _ _ _ _ Hrec) as (k & -> & Hk & _).
      intros [= <- <-]. exists (S k). split_and!; [done|lia|done].
  - unfold ret at 1.
    destruct (Nat.leb_spec (length (strip reply)) 200) as [Hlen|Hlen];
      intros [= <- <-]; exists 0; (split_and!; [done|lia|]); [done|].
    intros t [= <-]. split; [by apply clean_reply_summary|].
    exists reply. by rewrite Nat.add_0_r.
Qed.

End SummarizeResult.

(** X1. A call of [summarize] that ends has sent its request at least
    once, each time with the same model, prompt and system instruction,
    and has done nothing else: the files, the fetches, the draws and the
    output are as before. With a budget that is not negative it has sent
    at most [max_retries + 1] requests. *)
Theorem summarize_only_sends_requests env user_prompt system_prompt model
    fuel max_retries w r w' :
  summarize env fuel user_prompt system_prompt model max_retries w
  = Some (r, w') ->
  exists k,
    1 <= k
    /\ w' = add_requests k
              {| req_model := model; req_contents := user_prompt;
                 req_system_instruction := system_prompt |} w
    /\ ((0 <= max_retries)%Z -> (Z.of_nat k <= max_retries + 1)%Z).
Proof.
  intros Hrun.
  destruct (summarize_result _ _ _ _ _ _ _ _ _ Hrun) as (k & Hw' & Hk & _).
  exists (S k). split_and!; [lia|done|lia].
Qed.

Lemma summarize_only_sends_requests_witness :
  let env := Fixtures.answering
               (fun _ => ReplyText (Some (py "ERROR: no such page")))
               Fixtures.offline Fixtures.unparsed in
  let req := {| req_model := py "gemini"; req_contents := py "Summarize";
                req_system_instruction := None |} in
  exists k,
    1 <= k
    /\ add_requests 3 req (Fixtures.world_of ∅)
       = add_requests k req (Fixtures.world_of ∅)
    /\ ((0 <= 2)%Z -> (Z.of_nat k <= 2 + 1)%Z).
Proof.
  intros env req.
  exact (summarize_only_sends_requests env (py "Summarize") None (py "gemini")
           5 2 (Fixtures.world_of ∅)
           (Raise (LLMResponseInvalidError (py "ERROR: no such page")))
           (add_requests 3 req (Fixtures.world_of ∅)) eq_refl).
Defined.

(** X2. A summary that [summarize] returns is well formed: it has more
    than 200 characters, no newline, no white space at either end and
    neither marker. It is the reply to the last request of the call,
    trimmed, with its newlines turned into spaces. *)
Theorem summarize_returns_last_reply env user_prompt system_prompt model
    fuel max_retries w t w' :
  summarize env fuel user_prompt system_prompt model max_retries w
  = Some (Ok t, w') ->
  let req := {| req_model := model; req_contents := user_prompt;
                req_system_instruction := system_prompt |} in
  well_formed_summary t
  /\ exists k reply,
       w' = add_requests (S k) req w
       /\ generate_content env (length (requests w) + k) req
          = ReplyText (Some reply)
       /\ t = replace (strip reply) [LF] [SPACE].
Proof.
  intros Hrun req.
  destruct (summarize_result _ _ _ _ _ _ _ _ _ Hrun) as (k & Hw' & _ & Hok).
  destruct (Hok t eq_refl) as (Hwf & reply & Hreply & _ & _ & Ht).
  split; [done|]. by exists k, reply.
Qed.

Lemma summarize_returns_last_reply_witness :
  let env := Fixtures.answering
               (fun n => ReplyText
                           (Some (if n =? 0 then py "ERROR"
                                  else LF :: replicate 100 97%N ++ [LF]
                                       ++ replicate 100 98%N ++ [SPACE])))
               Fixtures.offline Fixtures.unparsed in
  let req := {| req_model := py "gemini"; req_contents := py "Summarize";
                req_system_instruction := None |} in
  let t := replicate 100 97%N ++ [SPACE] ++ replicate 100 98%N in
  well_formed_summary t
  /\ exists k reply,
       add_requests 2 req (Fixtures.world_of ∅)
       = add_requests (S k) req (Fixtures.world_of ∅)
       /\ generate_content env (length (requests (Fixtures.world_of ∅)) + k)
            req = ReplyText (Some reply)
       /\ t = replace (strip reply) [LF] [SPACE].
Proof.
  intros env req t.
  exact (summarize_returns_last_reply env (py "Summarize") None (py "gemini")
           5 2 (Fixtures.world_of ∅) t
           (add_requests 2 req (Fixtures.world_of ∅)) eq_refl).
Defined.

(** X3. When the service answers [k] times with the error marker and then
    with a text without markers that is long enough, and the budget
    allows [k] retries, [summarize] returns this text, trimmed and with its
    newlines turned into spaces, after [k + 1] requests. *)
Theorem summarize_recovers env user_prompt system_prompt model
    fuel max_retries w k t :
  let req := {| req_model := model; req_contents := user_prompt;
                req_system_instruction := system_prompt |} in
  (forall i, i < k ->
     error_marked (generate_content env (length (requests w) + i) req)) ->
  generate_content env (length (requests w) + k) req = ReplyText (Some t) ->
  contains (py "ERROR") t = false ->
  contains (py "INAPPROPRIATE") t = false ->
  200 < length (strip t) ->
  (Z.of_nat k <= max_retries)%Z ->
  k < fuel ->
  summarize env fuel user_prompt system_prompt model max_retries w
  = Some (Ok (replace (strip t) [LF] [SPACE]), add_requests (S k) req w).
Proof.
  intros req Hmarked Hreply Herr Hpol Hlen.
  revert fuel max_retries w Hmarked Hreply.
  induction k as [|k IH]; intros fuel max_retries w Hmarked Hreply Hk Hfuel;
    (destruct fuel as [|fuel]; [lia|]).
  - rewrite Nat.add_0_r in Hreply.
    rewrite (summarize_clean env _ _ _ _ _ _ t Hreply Hpol Herr).
    destruct (Nat.leb_spec (length (strip t)) 200); [lia|]. reflexivity.
  - destruct (Hmarked 0) as (t0 & Hreply0 & Herr0 & Hpol0); [lia|].
    rewrite Nat.add_0_r in Hreply0.
    cbn [summarize]. unfold bind at 1, models_generate_content. fold req.
    rewrite Hreply0, Hpol0. unfold bind at 1. rewrite Herr0.
    rewrite (proj2 (Z.eqb_neq max_retries 0)) by lia.
    rewrite (IH fuel (max_retries - 1)%Z (add_request req w)); [| |
      |lia|lia].
    + pose proof (clean_reply_summary t Herr Hpol Hlen) as Hwf.
      rewrite (well_formed_summary_fixed _ Hwf).
      rewrite (strip_fixed _ (proj1 (proj2 (proj2 Hwf)))).
      destruct (Nat.leb_spec (length (replace (strip t) [LF] [SPACE])) 200)
        as [Hshort|_]; [destruct Hwf as [? _]; lia|done].
    + intros i Hi. cbn. rewrite length_app. cbn.
      replace (length (requests w) + 1 + i) with (length (requests w) + S i)
        by lia.
      apply Hmarked. lia.
    + cbn. rewrite length_app. cbn.
      by replace (length (requests w) + 1 + k)
        with (length (requests w) + S k) by lia.
Qed.

Lemma summarize_recovers_witness :
  let env := Fixtures.answering
               (fun n => ReplyText
                           (Some (if n <? 2 then py "ERROR"
                                  else replicate 201 97%N ++ [LF])))
               Fixtures.offline Fixtures.unparsed in
  let req := {| req_model := py "gemini"; req_contents := py "Summarize";
                req_system_instruction := None |} in
  summarize env 3 (py "Summarize") None (py "gemini") 3 (Fixtures.world_of ∅)
  = Some (Ok (replace (strip (replicate 201 97%N ++ [LF])) [LF] [SPACE]),
          add_requests 3 req (Fixtures.world_of ∅)).
Proof.
  intros env req.
  apply (summarize_recovers env (py "Summarize") None (py "gemini") 3 3
           (Fixtures.world_of ∅) 2 (replicate 201 97%N ++ [LF])).
  - intros i Hi. exists (py "ERROR").
    destruct i as [|[|i]]; [by vm_compute..|lia].
  - reflexivity.
  - reflexivity.
  - reflexivity.
  - vm_compute. lia.
  - lia.
  - lia.
Defined.

(** ** get_random_scp *)

Lemma scp_fetches_default k :
  scp_fetches default_graphql_api_endpoint k
  = replicate k default_graphql_api_endpoint.
Proof. by destruct k. Qed.

Lemma add_fetches_fetches urls w :
  fetches (add_fetches urls w) = fetches w ++ urls.
Proof.
  revert w. induction urls as [|url urls IH]; intros w; cbn.
  - by rewrite app_nil_r.
  - rewrite IH. cbn. by rewrite <- app_assoc.
Qed.

Lemma add_fetches_rest urls w :
  files (add_fetches urls w) = files w
  /\ requests (add_fetches urls w) = requests w
  /\ draws (add_fetches urls w) = draws w
  /\ stdout (add_fetches urls w) = stdout w.
Proof.
  revert w. induction urls as [|url urls IH]; intros w; cbn; [done|].
  destruct (IH (add_fetch url w)) as (-> & -> & -> & ->). done.
Qed.

(** What a call of [get_random_scp] that ends has done: [k] fetches, the
    first from the endpoint given and the others from the default one, and
    nothing else; what it returns is the body, parsed, of the last answer,
    whose status is 200. *)
Lemma get_random_scp_result env fuel max_retries graphql_api_endpoint w r w' :
  get_random_scp env fuel max_retries graphql_api_endpoint w = Some (r, w') ->
  exists k,
    w' = add_fetches (scp_fetches graphql_api_endpoint k) w
    /\ ((0 <= max_retries)%Z -> (Z.of_nat k <= max_retries + 1)%Z)
    /\ forall resp_json, r = Ok resp_json ->
         exists k' url body,
           k = S k'
           /\ last (scp_fetches graphql_api_endpoint k) = Some url
           /\ urlopen env (length (fetches w) + k') url
              = FetchResponse 200 body
           /\ json_loads env body = inr resp_json.
Proof.
  revert max_retries graphql_api_endpoint w r w'.
  induction fuel as [|fuel IH]; intros max_retries ep w r w'; [done|].
  cbn [get_random_scp].
  destruct (negb _);
    [by intros [= <- <-]; exists 0; split_and!; [done|lia|done]|].
  unfold bind at 1, ureq_urlopen.
  destruct (urlopen env (length (fetches w)) ep) as [e|status body] eqn:Hfetch;
    [by intros [= <- <-]; exists 1; split_and!; [done|lia|done]|].
  rewrite bind_lift.
  destruct (json_loads env body) as [e|resp_json] eqn:Hparse;
    [by intros [= <- <-]; exists 1; split_and!; [done|lia|done]|].
  destruct (Z.eqb_spec status 200) as [->|Hstatus]; cbn [negb].
  - intros [= <- <-]. exists 1. split_and!; [done|lia|].
    intros ? [= <-]. exists 0, ep, body. by rewrite Nat.add_0_r.
  - destruct (Z.eqb_spec max_retries 0) as [->|Hmr];
      [by intros [= <- <-]; exists 1; split_and!; [done|lia|done]|].
    intros Hrec. destruct (IH _ _ _ _ _ Hrec) as (k & -> & Hk & Hok).
    exists (S k). rewrite scp_fetches_default in *. split_and!; [done|lia|].
    intros j Hj. destruct (Hok j Hj) as (k' & url & body' & -> & Hlast & Hurl & Hj').
    exists (S k'), url, body'. split_and!; [done|done| |done].
    rewrite <- Hurl. f_equal. cbn. rewrite length_app. cbn. lia.
Qed.

(** X4. A call of [get_random_scp] that ends has only fetched: once from
    the endpoint given and then, for each retry, from the default
    endpoint, whatever endpoint was given. With a budget that is not
    negative there are at most [max_retries + 1] fetches. What is returned
    is the parsed body of the last answer, and this answer has status
    200. *)
Theorem get_random_scp_only_fetches env fuel max_retries
    graphql_api_endpoint w r w' :
  get_random_scp env fuel max_retries graphql_api_endpoint w = Some (r, w') ->
  exists k,
    w' = add_fetches (scp_fetches graphql_api_endpoint k) w
    /\ ((0 <= max_retries)%Z -> (Z.of_nat k <= max_retries + 1)%Z)
    /\ forall resp_json, r = Ok resp_json ->
         exists k' url body,
           k = S k'
           /\ last (scp_fetches graphql_api_endpoint k) = Some url
           /\ urlopen env (length (fetches w) + k') url
              = FetchResponse 200 body
           /\ json_loads env body = inr resp_json.
Proof. apply get_random_scp_result. Qed.

Lemma get_random_scp_only_fetches_witness :
  let env := Fixtures.answering (fun _ => ReplyText None)
               (fun n => FetchResponse (if n <? 2 then 202 else 200)
                           (py "{...}"))
               (inr Fixtures.scp_173) in
  let w := Fixtures.world_of ∅ in
  let mirror := py "https://crom.example/graphql" in
  exists k,
    add_fetches [mirror; default_graphql_api_endpoint;
                 default_graphql_api_endpoint] w
    = add_fetches (scp_fetches mirror k) w
    /\ ((0 <= 3)%Z -> (Z.of_nat k <= 3 + 1)%Z)
    /\ forall resp_json, Ok Fixtures.scp_173 = Ok resp_json ->
         exists k' url body,
           k = S k'
           /\ last (scp_fetches mirror k) = Some url
           /\ urlopen env (length (fetches w) + k') url
              = FetchResponse 200 body
           /\ json_loads env body = inr resp_json.
Proof.
  intros env w mirror.
  exact (get_random_scp_only_fetches env 4 3 mirror w (Ok Fixtures.scp_173)
           (add_fetches [mirror; default_graphql_api_endpoint;
                         default_graphql_api_endpoint] w) eq_refl).
Defined.

(** X5. An endpoint that starts with neither [http:] nor [https:] is
    refused with a [ValueError] before anything is fetched. *)
Theorem get_random_scp_refuses_endpoint env fuel max_retries
    graphql_api_endpoint w :
  startswith (py "http:") graphql_api_endpoint = false ->
  startswith (py "https:") graphql_api_endpoint = false ->
  exists message,
    get_random_scp env (S fuel) max_retries graphql_api_endpoint w
    = Some (Raise (ValueError message), w)
    /\ contains graphql_api_endpoint message = true.
Proof.
  intros Hhttp Hhttps. cbn [get_random_scp]. rewrite Hhttp, Hhttps.
  eexists. split; [reflexivity|]. apply contains_infix.
Qed.

Lemma get_random_scp_refuses_endpoint_witness :
  exists message,
    get_random_scp
      (Fixtures.answering (fun _ => ReplyText None) Fixtures.online
         (inr Fixtures.scp_173))
      1 3 (py "HTTPS://api.crom.avn.sh/graphql") (Fixtures.world_of ∅)
    = Some (Raise (ValueError message), Fixtures.world_of ∅)
    /\ contains (py "HTTPS://api.crom.avn.sh/graphql") message = true.
Proof.
  exact (get_random_scp_refuses_endpoint _ 0 3
           (py "HTTPS://api.crom.avn.sh/graphql") (Fixtures.world_of ∅)
           eq_refl eq_refl).
Defined.

(** X6. When every answer has a status other than 200 and a body that
    parses, and the budget is [n], there are [n + 1] fetches, the first
    from the endpoint given and the [n] retries from the default
    endpoint, and then [SCPResponseInvalidError] with the body and the
    status of the last answer. *)
Theorem get_random_scp_exhausted env fuel n graphql_api_endpoint w :
  startswith (py "http:") graphql_api_endpoint
  || startswith (py "https:") graphql_api_endpoint = true ->
  (forall k url, exists status body resp_json,
     urlopen env k url = FetchResponse status body
     /\ status <> 200%Z /\ json_loads env body = inr resp_json) ->
  n < fuel ->
  exists status body,
    get_random_scp env fuel (Z.of_nat n) graphql_api_endpoint w
    = Some (Raise (SCPResponseInvalidError body status),
            add_fetches
              (graphql_api_endpoint
               :: replicate n default_graphql_api_endpoint) w)
    /\ urlopen env (length (fetches w) + n)
         (if n =? 0 then graphql_api_endpoint
          else default_graphql_api_endpoint)
       = FetchResponse status body.
Proof.
  intros Hep Hanswers. revert fuel graphql_api_endpoint w Hep.
  induction n as [|n IH]; intros fuel ep w Hep Hfuel;
    (destruct fuel as [|fuel]; [lia|]);
    destruct (Hanswers (length (fetches w)) ep)
      as (status & body & resp_json & Hfetch & Hstatus & Hparse);
    cbn [get_random_scp]; rewrite Hep; cbn [negb];
    unfold bind at 1, ureq_urlopen; rewrite Hfetch, bind_lift, Hparse;
    rewrite (proj2 (Z.eqb_neq status 200)) by done; cbn [negb].
  - exists status, body. by rewrite Nat.add_0_r.
  - rewrite (proj2 (Z.eqb_neq (Z.of_nat (S n)) 0)) by lia.
    replace (Z.of_nat (S n) - 1)%Z with (Z.of_nat n) by lia.
    destruct (IH fuel default_graphql_api_endpoint (add_fetch ep w))
      as (status' & body' & -> & Hlast); [done|lia|].
    exists status', body'. split; [done|].
    rewrite <- Hlast. cbn [fetches add_fetch]. rewrite length_app. cbn.
    replace (length (fetches w) + 1 + n) with (length (fetches w) + S n)
      by lia.
    by destruct n.
Qed.

Lemma get_random_scp_exhausted_witness :
  let env := Fixtures.answering (fun _ => ReplyText None)
               (fun _ => FetchResponse 202 (py "{}")) (inr JNull) in
  let w := Fixtures.world_of ∅ in
  let mirror := py "https://crom.example/graphql" in
  exists status body,
    get_random_scp env 3 (Z.of_nat 2) mirror w
    = Some (Raise (SCPResponseInvalidError body status),
            add_fetches (mirror :: replicate 2 default_graphql_api_endpoint)
              w)
    /\ urlopen env (length (fetches w) + 2)
         (if 2 =? 0 then mirror else default_graphql_api_endpoint)
       = FetchResponse status body.
Proof.
  intros env w mirror.
  apply (get_random_scp_exhausted env 3 2 mirror w).
  - reflexivity.
  - intros k url. by exists 202%Z, (py "{}"), JNull.
  - lia.
Defined.

(** X7. When the first [k] answers have a status other than 200 and the
    next one has status 200, all with bodies that parse, and the budget
    allows [k] retries, the parsed body of this answer is returned after
    [k + 1] fetches. *)
Theorem get_random_scp_recovers env fuel max_retries graphql_api_endpoint w
    k body resp_json :
  startswith (py "http:") graphql_api_endpoint
  || startswith (py "https:") graphql_api_endpoint = true ->
  (forall i url, i < k ->
     exists status body' resp_json',
       urlopen env (length (fetches w) + i) url = FetchResponse status body'
       /\ status <> 200%Z /\ json_loads env body' = inr resp_json') ->
  (forall url,
     urlopen env (length (fetches w) + k) url = FetchResponse 200 body) ->
  json_loads env body = inr resp_json ->
  (Z.of_nat k <= max_retries)%Z ->
  k < fuel ->
  get_random_scp env fuel max_retries graphql_api_endpoint w
  = Some (Ok resp_json,
          add_fetches
            (graphql_api_endpoint
             :: replicate k default_graphql_api_endpoint) w).
Proof.
  intros Hep Hbefore Hlast Hparse.
  revert fuel max_retries graphql_api_endpoint w Hep Hbefore Hlast.
  induction k as [|k IH]; intros fuel max_retries ep w Hep Hbefore Hlast Hk
    Hfuel; (destruct fuel as [|fuel]; [lia|]);
    cbn [get_random_scp]; rewrite Hep; cbn [negb];
    unfold bind at 1, ureq_urlopen.
  - specialize (Hlast ep). rewrite Nat.add_0_r in Hlast.
    by rewrite Hlast, bind_lift, Hparse.
  - destruct (Hbefore 0 ep) as (status & body' & j & Hfetch & Hstatus & Hj);
      [lia|].
    rewrite Nat.add_0_r in Hfetch. rewrite Hfetch, bind_lift, Hj.
    rewrite (proj2 (Z.eqb_neq status 200)) by done. cbn [negb].
    rewrite (proj2 (Z.eqb_neq max_retries 0)) by lia.
    apply (IH fuel (max_retries - 1)%Z default_graphql_api_endpoint
             (add_fetch ep w)); [done| | |lia|lia].
    + intros i url Hi. cbn [fetches add_fetch]. rewrite length_app. cbn.
      replace (length (fetches w) + 1 + i) with (length (fetches w) + S i)
        by lia.
      apply Hbefore. lia.
    + intros url. cbn [fetches add_fetch]. rewrite length_app. cbn.
      replace (length (fetches w) + 1 + k) with (length (fetches w) + S k)
        by lia.
      apply Hlast.
Qed.

Lemma get_random_scp_recovers_witness :
  let env := Fixtures.answering (fun _ => ReplyText None)
               (fun n => FetchResponse (if n <? 2 then 202 else 200)
                           (py "{...}"))
               (inr Fixtures.scp_173) in
  let w := Fixtures.world_of ∅ in
  let mirror := py "https://crom.example/graphql" in
  get_random_scp env 3 3 mirror w
  = Some (Ok Fixtures.scp_173,
          add_fetches (mirror :: replicate 2 default_graphql_api_endpoint) w).
Proof.
  intros env w mirror.
  apply (get_random_scp_recovers env 3 3 mirror w 2 (py "{...}")).
  - reflexivity.
  - intros i url Hi. exists 202%Z, (py "{...}"), Fixtures.scp_173.
    destruct i as [|[|i]]; [by vm_compute..|lia].
  - reflexivity.
  - reflexivity.
  - lia.
  - lia.
Defined.

(** X8. An exception of the fetch, and an answer whose body does not
    parse, whatever its status, end the call with this exception after
    the one fetch: the budget of retries is not used. *)
Theorem get_random_scp_does_not_retry_exceptions env fuel max_retries
    graphql_api_endpoint w e :
  startswith (py "http:") graphql_api_endpoint
  || startswith (py "https:") graphql_api_endpoint = true ->
  urlopen env (length (fetches w)) graphql_api_endpoint = FetchRaises e
  \/ (exists status body,
        urlopen env (length (fetches w)) graphql_api_endpoint
        = FetchResponse status body
        /\ json_loads env body = inl e) ->
  get_random_scp env (S fuel) max_retries graphql_api_endpoint w
  = Some (Raise e, add_fetch graphql_api_endpoint w).
Proof.
  intros Hep Hfails. cbn [get_random_scp]. rewrite Hep. cbn [negb].
  unfold bind at 1, ureq_urlopen.
  destruct Hfails as [->|(status & body & -> & Hparse)]; [done|].
  by rewrite bind_lift, Hparse.
Qed.

Lemma get_random_scp_does_not_retry_exceptions_witness :
  let env := Fixtures.answering (fun _ => ReplyText None)
               (fun _ => FetchResponse 503 (py "<html>"))
               Fixtures.unparsed in
  let w := Fixtures.world_of ∅ in
  get_random_scp env 4 3 default_graphql_api_endpoint w
  = Some (Raise (OtherError (py "JSONDecodeError")),
          add_fetch default_graphql_api_endpoint w).
Proof.
  intros env w.
  apply (get_random_scp_does_not_retry_exceptions env 3 3
           default_graphql_api_endpoint w).
  - reflexivity.
  - right. by exists 503%Z, (py "<html>").
Defined.

(** ** What the runs leave as it was *)

Lemma bind_Some {A B} (m : M A) (k : A -> M B) w r w' :
  bind m k w = Some (r, w') ->
  (exists e, m w = Some (Raise e, w') /\ r = Raise e)
  \/ (exists a w1, m w = Some (Ok a, w1) /\ k a w1 = Some (r, w')).
Proof.
  unfold bind. destruct (m w) as [[[a|e] w1]|]; [| |done].
  - intros Hk. right. by exists a, w1.
  - intros [= <- <-]. left. by exists e.
Qed.

Lemma bind_Ok {A B} (m : M A) (k : A -> M B) w b w' :
  bind m k w = Some (Ok b, w') ->
  exists a w1, m w = Some (Ok a, w1) /\ k a w1 = Some (Ok b, w').
Proof. intros [(e & _ & [=])|H]%bind_Some. done. Qed.

Lemma lift_Some {A} (r : exn + A) w r' w' :
  lift r w = Some (r', w') ->
  w' = w /\ r' = match r with inl e => Raise e | inr a => Ok a end.
Proof. destruct r; by intros [= <- <-]. Qed.

Section Keeps.

Variable R : World -> World -> Prop.
Hypothesis R_refl : forall w, R w w.
Hypothesis R_trans : forall w1 w2 w3, R w1 w2 -> R w2 w3 -> R w1 w3.

Lemma keeps_ret {A} (a : A) : keeps R (ret a).
Proof. intros w r w' [= <- <-]. apply R_refl. Qed.

Lemma keeps_raise {A} e : keeps R (raise (A:=A) e).
Proof. intros w r w' [= <- <-]. apply R_refl. Qed.

Lemma keeps_lift {A} (r : exn + A) : keeps R (lift r).
Proof. destruct r; [apply keeps_raise|apply keeps_ret]. Qed.

Lemma keeps_bind {A B} (m : M A) (k : A -> M B) :
  keeps R m -> (forall a, keeps R (k a)) -> keeps R (bind m k).
Proof.
  intros Hm Hk w r w' [(e & Hrun & _)|(a & w1 & Hrun & Hrest)]%bind_Some.
  - by eapply Hm.
  - eapply R_trans; [by eapply Hm|by eapply Hk].
Qed.

Lemma keeps_try_except {A} (m : M A) (h : exn -> M A) :
  keeps R m -> (forall e, keeps R (h e)) -> keeps R (try_except m h).
Proof.
  intros Hm Hh w r w'. unfold try_except.
  destruct (m w) as [[[a|e] w1]|] eqn:Hrun; [| |done].
  - intros [= <- <-]. by eapply Hm.
  - intros Hrest. eapply R_trans; [by eapply Hm|by eapply Hh].
Qed.

Lemma keeps_while_none {A} fuel (body : M (flow A)) :
  keeps R body -> keeps R (while_none fuel body).
Proof.
  intros Hbody. induction fuel as [|fuel IH]; [done|].
  cbn [while_none]. apply keeps_bind; [done|].
  intros [| |a]; [done|apply keeps_ret..].
Qed.

End Keeps.

Lemma silent_refl w : silent w w.
Proof. done. Qed.

Lemma silent_trans w1 w2 w3 : silent w1 w2 -> silent w2 w3 -> silent w1 w3.
Proof. intros [? ?] [? ?]. split; congruence. Qed.

Create HintDb keeps.

#[export] Hint Resolve silent_refl silent_trans : keeps.
#[export] Hint Extern 1 (keeps silent (ret _)) =>
  apply (keeps_ret silent silent_refl) : keeps.
#[export] Hint Extern 1 (keeps silent (raise _)) =>
  apply (keeps_raise silent silent_refl) : keeps.
#[export] Hint Extern 1 (keeps silent (lift _)) =>
  apply (keeps_lift silent silent_refl) : keeps.
#[export] Hint Extern 2 (keeps silent (bind _ _)) =>
  apply (keeps_bind silent silent_trans); [|intros ?] : keeps.
#[export] Hint Extern 2 (keeps silent (try_except _ _)) =>
  apply (keeps_try_except silent silent_trans); [|intros ?] : keeps.
#[export] Hint Extern 2 (keeps silent (while_none _ _)) =>
  apply (keeps_while_none silent silent_refl silent_trans) : keeps.
#[export] Hint Extern 3 (keeps silent (match ?x with _ => _ end)) =>
  destruct x : keeps.

Section Silent.

Variable env : Env.

Lemma summarize_silent fuel user_prompt system_prompt model max_retries :
  keeps silent
    (summarize env fuel user_prompt system_prompt model max_retries).
Proof.
  intros w r w' Hrun.
  destruct (summarize_result _ _ _ _ _ _ _ _ _ Hrun) as (k & -> & _).
  by destruct (add_requests_rest (S k)
                 {| req_model := model; req_contents := user_prompt;
                    req_system_instruction := system_prompt |} w)
    as (? & _ & _ & ?).
Qed.

Lemma get_random_scp_silent fuel max_retries graphql_api_endpoint :
  keeps silent (get_random_scp env fuel max_retries graphql_api_endpoint).
Proof.
  intros w r w' Hrun.
  destruct (get_random_scp_result _ _ _ _ _ _ _ Hrun) as (k & -> & _).
  by destruct (add_fetches_rest (scp_fetches graphql_api_endpoint k) w)
    as (? & _ & _ & ?).
Qed.

Lemma read_text_silent fp : keeps silent (read_text fp).
Proof.
  intros w r w'. unfold read_text.
  by destruct (files w !! fp); intros [= <- <-].
Qed.

Lemma secrets_choice_silent {A} (seq : list A) :
  keeps silent (secrets_choice env seq).
Proof. intros w r w'. by destruct seq; intros [= <- <-]. Qed.

Lemma on_summarize_error_silent {A} e :
  keeps silent (on_summarize_error (A:=A) e).
Proof. destruct e; apply (keeps_ret silent silent_refl). Qed.

#[local] Hint Resolve summarize_silent get_random_scp_silent read_text_silent
  secrets_choice_silent on_summarize_error_silent : keeps.

Lemma get_random_wikipedia_url_silent wikipedia_urls_fp :
  keeps silent (get_random_wikipedia_url env wikipedia_urls_fp).
Proof. unfold get_random_wikipedia_url. auto 10 with keeps. Qed.

#[local] Hint Resolve get_random_wikipedia_url_silent : keeps.

Lemma wikipedia_pass_silent fuel args wikipedia_user_prompt :
  keeps silent (wikipedia_pass env fuel args wikipedia_user_prompt).
Proof. unfold wikipedia_pass. auto 20 with keeps. Qed.

Lemma scp_pass_silent fuel args scp_user_prompt :
  keeps silent (scp_pass env fuel args scp_user_prompt).
Proof. unfold scp_pass. auto 40 with keeps. Qed.

End Silent.

(** ** generate_readme *)

Section PatchLines.

Variables (readme_fp readme_template_fp : text).
Variable readme_inter_lines : list text.

(** What the loop makes of the lines of the README: the line at the first
    position of a changed line is this changed line, and every other line
    is as it was. *)
Lemma patch_lines_result delta readme_lines readme_lines' :
  patch_lines readme_fp readme_template_fp readme_inter_lines delta
    readme_lines = Ok readme_lines' ->
  length readme_lines' = length readme_lines
  /\ (forall i line,
        line ∈ changed_lines delta ->
        index readme_inter_lines line = Some i ->
        readme_lines' !! i = Some line)
  /\ (forall i,
        (forall line, line ∈ changed_lines delta ->
                      index readme_inter_lines line <> Some i) ->
        readme_lines' !! i = readme_lines !! i).
Proof.
  revert readme_lines.
  induction delta as [|line delta IH]; intros readme_lines.
  - intros [= <-]. split_and!; [done| |done]. by intros i line ?%elem_of_nil.
  - cbn [patch_lines]. rewrite patch_line_outcome, changed_lines_cons.
    destruct (startswith (py "+ ") line); [|apply IH].
    set (changed_line := removeprefix (py "+ ") line).
    destruct (index readme_inter_lines changed_line) as [idx|] eqn:Hidx;
      [|done].
    destruct (Nat.ltb_spec idx (length readme_lines)) as [Hlt|Hge]; [|done].
    intros (Hlen & Hchanged & Hother)%IH.
    rewrite length_insert in Hlen. split_and!; [done| |].
    + intros i line' [->|Hin]%elem_of_cons Hi; [|by eapply Hchanged].
      assert (i = idx) as -> by congruence.
      destruct (decide (Exists (fun line' => index readme_inter_lines line'
                                              = Some idx)
                          (changed_lines delta))) as [Hex|Hno].
      * apply Exists_exists in Hex as (line' & Hin & Hi').
        rewrite (Hchanged idx line' Hin Hi'). f_equal.
        apply index_lookup in Hi, Hi'. congruence.
      * rewrite Hother.
        -- by apply list_lookup_insert_eq.
        -- intros line' Hin Hi'. apply Hno, Exists_exists. by exists line'.
    + intros i Hi. rewrite Hother.
      * apply list_lookup_insert_ne. intros <-.
        by apply (Hi changed_line); [left|].
      * intros line' Hin. apply Hi. by right.
Qed.

End PatchLines.

(** X9. When the update succeeds, the text written is the texts of a
    list joined in order, a list with one text for each line of the
    README: at the first position that a changed line has in the rendered
    text the list has that changed line, and at every other position it
    has the line of the README. The texts are joined as they are: a
    changed line without a line break at its end runs into the text after
    it, so the text written need not have the lines of the list. *)
Theorem patch_keeps_other_lines readme_fp readme_template_fp
    readme_template readme_inter readme_text readme_text' :
  patch readme_fp readme_template_fp readme_template readme_inter readme_text
  = Ok readme_text' ->
  let readme_inter_lines := splitlines true readme_inter in
  let changed := changed_lines
                   (Difflib.ndiff (splitlines true readme_template)
                      readme_inter_lines) in
  exists readme_lines',
    readme_text' = join readme_lines'
    /\ length readme_lines' = length (splitlines true readme_text)
    /\ (forall i line,
          line ∈ changed -> index readme_inter_lines line = Some i ->
          readme_lines' !! i = Some line)
    /\ (forall i,
          (forall line, line ∈ changed ->
                        index readme_inter_lines line <> Some i) ->
          readme_lines' !! i = splitlines true readme_text !! i).
Proof.
  unfold patch.
  destruct (patch_lines _ _ _ _ _) as [readme_lines'|] eqn:Hlines; [|done].
  intros [= <-]. cbn zeta.
  exists readme_lines'. split; [done|]. by eapply patch_lines_result.
Qed.

Lemma patch_keeps_other_lines_witness :
  let readme_template := Fixtures.ln "# Today" ++ Fixtures.ln "{{SCP_TITLE}}" in
  let readme_inter := Fixtures.ln "# Today" ++ Fixtures.ln "SCP-173" in
  let readme_text := Fixtures.ln "# My profile" ++ Fixtures.ln "SCP-682" in
  let readme_inter_lines := splitlines true readme_inter in
  let changed := changed_lines
                   (Difflib.ndiff (splitlines true readme_template)
                      readme_inter_lines) in
  exists readme_lines',
    Fixtures.ln "# My profile" ++ Fixtures.ln "SCP-173" = join readme_lines'
    /\ length readme_lines' = length (splitlines true readme_text)
    /\ (forall i line,
          line ∈ changed -> index readme_inter_lines line = Some i ->
          readme_lines' !! i = Some line)
    /\ (forall i,
          (forall line, line ∈ changed ->
                        index readme_inter_lines line <> Some i) ->
          readme_lines' !! i = splitlines true readme_text !! i).
Proof.
  intros readme_template readme_inter readme_text.
  apply (patch_keeps_other_lines (py "README.md") (py "README_TEMPLATE.md")
           readme_template readme_inter readme_text).
  vm_compute. reflexivity.
Defined.

(** A template without a line break at its end: the changed line runs
    into the line of the README after it, and two lines become one. *)
Lemma patched_line_runs_into_the_next :
  patch (py "README.md") (py "./README_TEMPLATE.md") (py "{{SCP_URL}}")
    (py "http://x") (Fixtures.ln "old" ++ Fixtures.ln "mine")
  = Ok (Fixtures.ln "http://xmine")
  /\ length (splitlines true (Fixtures.ln "old" ++ Fixtures.ln "mine")) = 2
  /\ length (splitlines true (Fixtures.ln "http://xmine")) = 1.
Proof. split_and!; vm_compute; reflexivity. Qed.

(** What [generate_readme] does to the world. *)
Lemma generate_readme_result scp_data wikipedia_data readme_fp
    readme_template_fp w r w' :
  generate_readme scp_data wikipedia_data readme_fp readme_template_fp w
  = Some (r, w') ->
  match r, readme_fp with
  | Raise _, _ | Ok _, None => w' = w
  | Ok readme_text, Some fp =>
      match scp_data, wikipedia_data with
      | None, None =>
          w' = w /\ (fp <> [] -> files w !! fp = Some readme_text)
      | _, _ => w' = set_file fp readme_text w /\ is_Some (files w !! fp)
      end
  end.
Proof.
  unfold generate_readme, bind at 1, read_text.
  destruct (files w !! readme_template_fp) as [readme_template|];
    [|by intros [= <- <-]].
  assert (Hdata : forall readme_inter,
            match readme_fp with
            | Some readme_fp =>
                let* readme_text := read_text readme_fp in
                match patch readme_fp readme_template_fp readme_template
                        readme_inter readme_text with
                | Raise e => raise e
                | Ok readme_text =>
                    let* _ := write_text readme_fp readme_text in
                    ret readme_text
                end
            | None => ret readme_inter
            end w = Some (r, w') ->
            match r, readme_fp with
            | Raise _, _ | Ok _, None => w' = w
            | Ok readme_text, Some fp =>
                w' = set_file fp readme_text w /\ is_Some (files w !! fp)
            end).
  { intros readme_inter. destruct readme_fp as [fp|]; [|by intros [= <- <-]].
    unfold bind at 1, read_text.
    destruct (files w !! fp) as [readme_text|]; [|by intros [= <- <-]].
    destruct (patch _ _ _ _ _); by intros [= <- <-]. }
  destruct scp_data, wikipedia_data; try (intros Hrun; by apply Hdata in Hrun).
  destruct readme_fp as [[|c fp]|]; try by intros [= <- <-].
  unfold read_text. destruct (files w !! (c :: fp)) eqn:Hfile;
    by intros [= <- <-].
Qed.

(** X10. [generate_readme] writes one file at most, the output README,
    and only when it has data and the README exists already; what it
    writes is the text that it returns. When it raises, when no output
    path is given and when it has no data, the world is as before. After
    a call that returns, an output README that was given holds the text
    returned. *)
Theorem generate_readme_writes_what_it_returns scp_data wikipedia_data
    readme_fp readme_template_fp w r w' :
  generate_readme scp_data wikipedia_data readme_fp readme_template_fp w
  = Some (r, w') ->
  (forall e, r = Raise e -> w' = w)
  /\ forall readme_text, r = Ok readme_text ->
       (w' = w
        \/ exists fp, readme_fp = Some fp /\ is_Some (files w !! fp)
                      /\ w' = set_file fp readme_text w)
       /\ (readme_fp = None -> w' = w)
       /\ (scp_data = None -> wikipedia_data = None -> w' = w)
       /\ (forall fp, readme_fp = Some fp -> fp <> [] ->
                      files w' !! fp = Some readme_text).
Proof.
  intros Hrun%generate_readme_result. split.
  - by intros e ->.
  - intros readme_text ->.
    destruct readme_fp as [fp|]; [|subst; split_and!; by auto].
    destruct scp_data, wikipedia_data;
      try (destruct Hrun as [-> Hfile];
           split_and!; [right; by exists fp|done|done|];
           intros ? [= <-] _; apply lookup_insert_eq).
    destruct Hrun as [-> Hfile]. split_and!; [by left|done|done|].
    intros ? [= <-]. apply Hfile.
Qed.

Lemma generate_readme_writes_what_it_returns_witness :
  let scp := {| scp_title := py "SCP-173"; scp_title_alt := py "The Sculpture";
                scp_url := py "http://scp-wiki.wikidot.com/scp-173";
                scp_summary := py "A statue." |} in
  let w := Fixtures.world_of
             {[ py "README_TEMPLATE.md"
                := Fixtures.ln "# Today" ++ Fixtures.ln "{{SCP_TITLE}}";
                py "README.md"
                := Fixtures.ln "# My profile" ++ Fixtures.ln "SCP-682" ]} in
  let readme_text' := Fixtures.ln "# My profile" ++ Fixtures.ln "SCP-173" in
  generate_readme (Some scp) None (Some (py "README.md"))
    (py "README_TEMPLATE.md") w
  = Some (Ok readme_text', set_file (py "README.md") readme_text' w)
  /\ files (set_file (py "README.md") readme_text' w) !! py "README.md"
     = Some readme_text'.
Proof.
  intros scp w readme_text'.
  assert (Hrun : generate_readme (Some scp) None (Some (py "README.md"))
                   (py "README_TEMPLATE.md") w
                 = Some (Ok readme_text',
                         set_file (py "README.md") readme_text' w))
    by (vm_compute; reflexivity).
  split; [exact Hrun|].
  apply (proj2 (generate_readme_writes_what_it_returns _ _ _ _ _ _ _ Hrun)
           readme_text' eq_refl); [reflexivity|discriminate].
Defined.

(** X11. [generate_readme] creates no file. Without the template it
    raises [FileNotFoundError], whatever else it is given; with the
    template and without the output README that it is to update, or to
    return for want of data, it raises [FileNotFoundError] too. Nothing is
    written in either case. *)
Theorem generate_readme_creates_no_file scp_data wikipedia_data readme_fp
    readme_template_fp w :
  (files w !! readme_template_fp = None ->
   generate_readme scp_data wikipedia_data readme_fp readme_template_fp w
   = Some (Raise (FileNotFoundError readme_template_fp), w))
  /\ (forall fp,
        is_Some (files w !! readme_template_fp) ->
        readme_fp = Some fp ->
        files w !! fp = None ->
        is_Some scp_data \/ is_Some wikipedia_data \/ fp <> [] ->
        generate_readme scp_data wikipedia_data readme_fp readme_template_fp w
        = Some (Raise (FileNotFoundError fp), w)).
Proof.
  split.
  - unfold generate_readme, bind at 1, read_text. by intros ->.
  - intros fp [readme_template Htemplate] -> Hfile Hneeded.
    unfold generate_readme, bind at 1, read_text. rewrite Htemplate.
    destruct scp_data, wikipedia_data;
      try (unfold bind, read_text; by rewrite Hfile).
    destruct Hneeded as [[? [=]]|[[? [=]]|Hfp]].
    destruct fp as [|c fp]; [done|]. unfold read_text. by rewrite Hfile.
Qed.

Lemma generate_readme_creates_no_file_witness :
  let scp := {| scp_title := py "SCP-173"; scp_title_alt := [];
                scp_url := py "http://scp-wiki.wikidot.com/scp-173";
                scp_summary := py "A statue." |} in
  let w := Fixtures.world_of
             {[ py "README_TEMPLATE.md" := Fixtures.ln "{{SCP_TITLE}}" ]} in
  generate_readme (Some scp) None (Some (py "README.md")) (py "TEMPLATE.md") w
  = Some (Raise (FileNotFoundError (py "TEMPLATE.md")), w)
  /\ generate_readme (Some scp) None (Some (py "README.md"))
       (py "README_TEMPLATE.md") w
     = Some (Raise (FileNotFoundError (py "README.md")), w).
Proof.
  intros scp w. split.
  - apply (proj1 (generate_readme_creates_no_file (Some scp) None
                    (Some (py "README.md")) (py "TEMPLATE.md") w)).
    vm_compute. reflexivity.
  - apply (proj2 (generate_readme_creates_no_file (Some scp) None
                    (Some (py "README.md")) (py "README_TEMPLATE.md") w)
             (py "README.md")).
    + eexists. vm_compute. reflexivity.
    + reflexivity.
    + vm_compute. reflexivity.
    + left. by eexists.
Defined.

(** ** get_random_wikipedia_url *)

Lemma strip_Forall (P : N -> Prop) s : Forall P s -> Forall P (strip s).
Proof.
  destruct (strip_spec s) as (pre & post & Hs & _). rewrite Hs at 1.
  by intros [_ [? _]%Forall_app]%Forall_app.
Qed.

Lemma push_Forall (P : N -> Prop) c ls :
  P c -> Forall (Forall P) ls -> Forall (Forall P) (push c ls).
Proof.
  intros Hc Hls. destruct Hls as [|l ls Hl Hls]; cbn; by repeat constructor.
Qed.

(** The lines that [splitlines] gives without their ends hold no line
    boundary. *)
Lemma splitlines_unbroken s :
  Forall (Forall (fun c => is_linebreak c = false)) (splitlines false s).
Proof.
  induction s as [|c s IH]; [constructor|]. cbn [splitlines].
  destruct (cr_before_lf c s); [done|].
  destruct (is_linebreak c) eqn:Hc; [by constructor|by apply push_Forall].
Qed.

(** What a call of [get_random_wikipedia_url] that returns has done. *)
Lemma get_random_wikipedia_url_result env wikipedia_urls_fp w
    wikipedia_url w' :
  get_random_wikipedia_url env wikipedia_urls_fp w
  = Some (Ok wikipedia_url, w') ->
  w' = add_draw w
  /\ exists contents line,
       files w !! wikipedia_urls_fp = Some contents
       /\ line ∈ splitlines false contents
       /\ wikipedia_url = strip line.
Proof.
  unfold get_random_wikipedia_url, bind at 1, read_text.
  destruct (files w !! wikipedia_urls_fp) as [contents|]; [|done].
  intros (line & w1 & Hchoice & [= <- <-])%bind_Ok.
  destruct (decide (splitlines false contents = [])) as [Hnone|Hsome].
  - by rewrite Hnone in Hchoice.
  - destruct (secrets_choice_nonempty env _ w Hsome) as (line' & Hin & Hline).
    rewrite Hline in Hchoice. injection Hchoice as <- <-.
    split; [done|]. by exists contents, line'.
Qed.

(** X12. The URL that [get_random_wikipedia_url] returns is a line of
    the file, trimmed: it has no white space at either end and no line
    boundary anywhere. The call has drawn once and done nothing else. *)
Theorem get_random_wikipedia_url_is_one_line env wikipedia_urls_fp w
    wikipedia_url w' :
  get_random_wikipedia_url env wikipedia_urls_fp w
  = Some (Ok wikipedia_url, w') ->
  trimmed wikipedia_url
  /\ Forall (fun c => is_linebreak c = false) wikipedia_url
  /\ w' = add_draw w
  /\ exists contents line,
       files w !! wikipedia_urls_fp = Some contents
       /\ line ∈ splitlines false contents
       /\ wikipedia_url = strip line.
Proof.
  intros (-> & contents & line & Hfile & Hin & ->)%
    get_random_wikipedia_url_result.
  split_and!.
  - by destruct (strip_spec line) as (? & ? & _ & _ & _ & ?).
  - apply strip_Forall.
    pose proof (splitlines_unbroken contents) as Hunbroken.
    rewrite Forall_forall in Hunbroken. by apply Hunbroken.
  - done.
  - by exists contents, line.
Qed.

Lemma get_random_wikipedia_url_is_one_line_witness :
  let env := Fixtures.answering (fun _ => ReplyText None) Fixtures.offline
               Fixtures.unparsed in
  let url := py "https://en.wikipedia.org/wiki/Rooster" in
  let w := Fixtures.world_of
             {[ py "urls.txt" := [SPACE] ++ url ++ [SPACE; CR; LF] ]} in
  trimmed url
  /\ Forall (fun c => is_linebreak c = false) url
  /\ add_draw w = add_draw w
  /\ exists contents line,
       files w !! py "urls.txt" = Some contents
       /\ line ∈ splitlines false contents
       /\ url = strip line.
Proof.
  intros env url w.
  apply (get_random_wikipedia_url_is_one_line env (py "urls.txt") w).
  vm_compute. reflexivity.
Defined.

(** ** The data of the two channels *)

Lemma contains_char x s : contains [x] s = true <-> x ∈ s.
Proof.
  induction s as [|c s IH]; cbn [contains startswith].
  - split; [done|by intros ?%elem_of_nil].
  - rewrite andb_true_r, orb_true_iff, elem_of_cons, N.eqb_eq. by rewrite IH.
Qed.

(** [s.split("/")[-1]] is what follows the last slash of [s], and all of
    [s] when it has none. *)
Lemma last_segment_spec s :
  exists before,
    s = before ++ last_segment s
    /\ (47%N ∉ last_segment s)
    /\ (before = [] \/ last before = Some 47%N).
Proof.
  induction s as [|c s (before & Hs & Hseg & Hbefore)];
    [exists []; split_and!; [done|apply not_elem_of_nil|by left]|].
  cbn [last_segment].
  destruct (contains (py "/") s) eqn:Hslash;
    change (py "/") with [47%N] in Hslash.
  - exists (c :: before). split_and!; [by rewrite Hs at 1|done|right].
    destruct Hbefore as [->|Hlast].
    + apply contains_char in Hslash. by rewrite Hs in Hslash.
    + by destruct before.
  - assert (47%N ∉ s) as Hs' by (by rewrite <- contains_char, Hslash).
    destruct (N.eqb_spec c 47) as [Hc|Hc]; [subst c|].
    + exists [47%N]. split_and!; [done|done|by right].
    + exists []. split_and!; [done| |by left].
      by intros [?|?]%elem_of_cons.
Qed.

Lemma lift_Ok {A} (r : exn + A) w a w' :
  lift r w = Some (Ok a, w') -> r = inr a /\ w' = w.
Proof. destruct r; by intros [= <- <-]. Qed.

Lemma as_str_inr v s : as_str v = inr s -> v = JString s.
Proof. destruct v; by intros [= <-]. Qed.

Lemma on_summarize_error_flow {A} e w (s : flow A + text) w' :
  on_summarize_error e w = Some (Ok s, w') ->
  s = inl Continue \/ s = inl Break.
Proof. destruct e; intros [= <- <-]; auto. Qed.

(** The [try] around [summarize] hands on a summary only when [summarize]
    has returned it, and assigns no data itself. *)
Lemma summarized_outcome env {A} fuel (prompt : exn + text) system_prompt
    model max_retries w (s : flow A + text) w' :
  try_except
    (let* prompt := lift prompt in
     let* summary :=
       summarize env fuel prompt system_prompt model max_retries in
     ret (inr summary))
    on_summarize_error w = Some (Ok s, w') ->
  match s with
  | inl f => f = Continue \/ f = Break
  | inr summary =>
      exists prompt',
        prompt = inr prompt'
        /\ summarize env fuel prompt' system_prompt model max_retries w
           = Some (Ok summary, w')
  end.
Proof.
  unfold try_except.
  destruct (bind (lift prompt) _ w) as [[[r|e] w1]|] eqn:Hrun; [| |done].
  - intros [= -> ->].
    apply bind_Ok in Hrun as (prompt' & w0 & [-> ->]%lift_Ok & Hrun).
    apply bind_Ok in Hrun as (summary' & w1 & Hrun & [= <- <-]).
    by exists prompt'.
  - intros [->| ->]%on_summarize_error_flow; auto.
Qed.

(** X13. The [WikipediaData] that a pass of the Wikipedia loop builds:
    its URL is the one drawn from the file; its summary is what
    [summarize] returned for the prompt formatted with this URL, and is
    well formed; its title is the part of the URL after its last slash,
    decoded, with every underscore turned into a space. *)
Theorem wikipedia_pass_data env fuel args wikipedia_user_prompt w d w' :
  wikipedia_pass env fuel args wikipedia_user_prompt w
  = Some (Ok (Assign d), w') ->
  get_random_wikipedia_url env (wikipedia_urls args) w
  = Some (Ok (wikipedia_url d), add_draw w)
  /\ (exists prompt,
        str_format env wikipedia_user_prompt (py "wikipedia_url")
          (wikipedia_url d) = inr prompt
        /\ summarize env fuel prompt (wikipedia_system_prompt args)
             (model args) (max_retries args) (add_draw w)
           = Some (Ok (wikipedia_summary d), w'))
  /\ well_formed_summary (wikipedia_summary d)
  /\ (exists before segment,
        wikipedia_url d = before ++ segment
        /\ (47%N ∉ segment)
        /\ (before = [] \/ last before = Some 47%N)
        /\ wikipedia_title d
           = replace (unquote env segment) (py "_") (py " "))
  /\ (95%N ∉ wikipedia_title d).
Proof.
  unfold wikipedia_pass.
  intros (url & w1 & Hurl & Hrun)%bind_Ok.
  apply bind_Ok in Hrun as (summarized & w2 & Hsum & Hrun).
  apply summarized_outcome in Hsum.
  destruct summarized as [f|summary]; [by destruct Hsum as [-> | ->]|].
  destruct Hsum as (prompt & Hprompt & Hsum).
  injection Hrun as <- <-. cbn [wikipedia_url wikipedia_summary wikipedia_title].
  pose proof (get_random_wikipedia_url_result _ _ _ _ _ Hurl) as (-> & _).
  split_and!.
  - done.
  - by exists prompt.
  - destruct (summarize_result _ _ _ _ _ _ _ _ _ Hsum) as (k & _ & _ & Hok).
    by destruct (Hok _ eq_refl).
  - destruct (last_segment_spec url) as (before & Hbefore & Hseg & Hlast).
    by exists before, (last_segment url).
  - by apply replace_char_gone.
Qed.

Lemma wikipedia_pass_data_witness :
  let env := Fixtures.answering
               (fun _ => ReplyText (Some (replicate 201 97%N)))
               Fixtures.offline Fixtures.unparsed in
  let url := py "https://en.wikipedia.org/wiki/Red_junglefowl" in
  let w := Fixtures.world_of
             {[ py "./wikipedia_urls.txt" := [SPACE] ++ url ++ [LF] ]} in
  let d := {| wikipedia_title := py "Red junglefowl"; wikipedia_url := url;
              wikipedia_summary := replicate 201 97%N |} in
  wikipedia_pass env 1 (Fixtures.args_of 3) (py "Summarize this: ") w
  = Some (Ok (Assign d),
          add_request {| req_model := py "gemini-2.5-flash-lite";
                         req_contents := py "Summarize this: " ++ url;
                         req_system_instruction := None |} (add_draw w))
  /\ well_formed_summary (wikipedia_summary d)
  /\ (95%N ∉ wikipedia_title d).
Proof.
  intros env url w d.
  assert (Hrun : wikipedia_pass env 1 (Fixtures.args_of 3)
                   (py "Summarize this: ") w
                 = Some (Ok (Assign d),
                         add_request
                           {| req_model := py "gemini-2.5-flash-lite";
                              req_contents := py "Summarize this: " ++ url;
                              req_system_instruction := None |} (add_draw w)))
    by (vm_compute; reflexivity).
  split; [exact Hrun|].
  destruct (wikipedia_pass_data _ _ _ _ _ _ _ Hrun) as (_ & _ & Hwf & _ & Htitle).
  by split.
Defined.

Lemma getpath_cons v key keys :
  getpath v (key :: keys)
  = match getitem v key with
    | inl e => inl e
    | inr x => getpath x keys
    end.
Proof. done. Qed.

(** X14. The [SCPData] that a pass of the SCP loop builds: its URL and
    its title are the strings that the answer of the endpoint holds at
    [data.randomPage.page.url] and at [...page.wikidotInfo.title]; its
    alternate title is the title of the first of [...page.alternateTitles],
    and empty when these are empty or null; its summary is what
    [summarize] returned for the prompt formatted with the URL, and is
    well formed. *)
Theorem scp_pass_data env fuel args scp_user_prompt w d w' :
  scp_pass env fuel args scp_user_prompt w = Some (Ok (Assign d), w') ->
  exists scp_raw_data page w1,
    get_random_scp env fuel (max_retries args) default_graphql_api_endpoint w
    = Some (Ok scp_raw_data, w1)
    /\ getpath scp_raw_data [py "data"; py "randomPage"; py "page"]
       = inr page
    /\ getitem page (py "url") = inr (JString (scp_url d))
    /\ getpath page [py "wikidotInfo"; py "title"]
       = inr (JString (scp_title d))
    /\ (exists alt_titles,
          getitem page (py "alternateTitles") = inr alt_titles
          /\ if truthy alt_titles
             then exists first,
                    getitem0 alt_titles = inr first
                    /\ getitem first (py "title")
                       = inr (JString (scp_title_alt d))
             else scp_title_alt d = [])
    /\ (exists prompt,
          str_format env scp_user_prompt (py "scp_url") (scp_url d)
          = inr prompt
          /\ summarize env fuel prompt (scp_system_prompt args) (model args)
               (max_retries args) w1
             = Some (Ok (scp_summary d), w'))
    /\ well_formed_summary (scp_summary d).
Proof.
  unfold scp_pass.
  intros (fetched & w1 & Hfetched & Hrun)%bind_Ok.
  destruct fetched as [scp_raw_data|]; [|done].
  assert (Hget : get_random_scp env fuel (max_retries args)
                   default_graphql_api_endpoint w
                 = Some (Ok scp_raw_data, w1)).
  { revert Hfetched. unfold try_except, bind, ret.
    destruct (get_random_scp _ _ _ _ _) as [[[j|e] w0]|]; [| |done].
    - by intros [= <- <-].
    - by destruct e. }
  apply bind_Ok in Hrun as (data & ? & [Hdata ->]%lift_Ok & Hrun).
  apply bind_Ok in Hrun as (random_page & ? & [Hrandom ->]%lift_Ok & Hrun).
  apply bind_Ok in Hrun as (page & ? & [Hpage ->]%lift_Ok & Hrun).
  apply bind_Ok in Hrun as (url & ? & [Hurl ->]%lift_Ok & Hrun).
  apply bind_Ok in Hrun as (url' & ? & [->%as_str_inr ->]%lift_Ok & Hrun).
  apply bind_Ok in Hrun as (summarized & w2 & Hsum & Hrun).
  apply summarized_outcome in Hsum.
  destruct summarized as [f|summary]; [by destruct Hsum as [-> | ->]|].
  destruct Hsum as (prompt & Hprompt & Hsum).
  apply bind_Ok in Hrun as (info & ? & [Hinfo ->]%lift_Ok & Hrun).
  apply bind_Ok in Hrun as (title_v & ? & [Htitle_v ->]%lift_Ok & Hrun).
  apply bind_Ok in Hrun as (title & ? & [->%as_str_inr ->]%lift_Ok & Hrun).
  apply bind_Ok in Hrun as (alt_titles & ? & [Halt ->]%lift_Ok & Hrun).
  apply bind_Ok in Hrun as (title_alt & w3 & Htitle_alt & [= <- <-]).
  cbn [scp_url scp_title scp_title_alt scp_summary].
  exists scp_raw_data, page, w1. split_and!.
  - done.
  - by rewrite getpath_cons, Hdata, getpath_cons, Hrandom, getpath_cons, Hpage.
  - done.
  - by rewrite getpath_cons, Hinfo, getpath_cons, Htitle_v.
  - exists alt_titles. split; [done|].
    destruct (truthy alt_titles).
    + apply bind_Ok in Htitle_alt as (first & ? & [Hfirst ->]%lift_Ok & Hrun).
      apply bind_Ok in Hrun as (t & ? & [Ht ->]%lift_Ok & Hrun).
      apply lift_Ok in Hrun as [->%as_str_inr ->]. by exists first.
    + by injection Htitle_alt as <- <-.
  - exists prompt. split; [done|].
    destruct (truthy alt_titles).
    + apply bind_Ok in Htitle_alt as (first & ? & [Hfirst ->]%lift_Ok & Hrun).
      apply bind_Ok in Hrun as (t & ? & [Ht ->]%lift_Ok & Hrun).
      by apply lift_Ok in Hrun as [_ ->].
    + by injection Htitle_alt as <- <-.
  - destruct (summarize_result _ _ _ _ _ _ _ _ _ Hsum) as (k & _ & _ & Hok).
    by destruct (Hok _ eq_refl).
Qed.

Lemma scp_pass_data_witness :
  let env := Fixtures.answering
               (fun _ => ReplyText (Some (replicate 201 97%N)))
               Fixtures.online (inr Fixtures.scp_173) in
  let w := Fixtures.world_of ∅ in
  let d := {| scp_title := py "SCP-173"; scp_title_alt := py "The Sculpture";
              scp_url := py "http://scp-wiki.wikidot.com/scp-173";
              scp_summary := replicate 201 97%N |} in
  exists w',
    scp_pass env 1 (Fixtures.args_of 3) (py "Summarize the SCP article at ") w
    = Some (Ok (Assign d), w')
    /\ exists page,
         getpath Fixtures.scp_173 [py "data"; py "randomPage"; py "page"]
         = inr page
         /\ getitem page (py "url") = inr (JString (scp_url d))
         /\ well_formed_summary (scp_summary d).
Proof.
  intros env w d. eexists.
  assert (Hrun : scp_pass env 1 (Fixtures.args_of 3)
                   (py "Summarize the SCP article at ") w
                 = Some (Ok (Assign d), _)) by (vm_compute; reflexivity).
  split; [exact Hrun|].
  destruct (scp_pass_data _ _ _ _ _ _ _ Hrun)
    as (scp_raw_data & page & w1 & Hget & Hpage & Hurl & _ & _ & _ & Hwf).
  injection Hget as <- _. by exists page.
Defined.

(** ** _main *)

(** The ways of a run of [_main] that ends: it raises, with the files and
    the output as they were, or it gets a text from [generate_readme] and
    prints it. *)
Lemma _main_Some env fuel args w r w' :
  _main env fuel args w = Some (r, w') ->
  (silent w w' /\ exists e, r = Raise e)
  \/ exists scp_data wikipedia_data w2 readme_text w3,
       silent w w2
       /\ generate_readme scp_data wikipedia_data (output_readme args)
            (template args) w2 = Some (Ok readme_text, w3)
       /\ r = Ok tt /\ w' = add_stdout readme_text w3.
Proof.
  unfold _main.
  destruct (scp_user_prompt args) as [scp_user_prompt|];
    [|intros [= <- <-]; left; split; [done|by eexists]].
  destruct (wikipedia_user_prompt args) as [wikipedia_user_prompt|];
    [|intros [= <- <-]; left; split; [done|by eexists]].
  destruct (gemini_api_key args);
    [|intros [= <- <-]; left; split; [done|by eexists]].
  intros [(e & Hscp & ->)|(scp_data & w1 & Hscp & Hrun)]%bind_Some;
    apply (keeps_while_none silent silent_refl silent_trans) in Hscp;
    try apply scp_pass_silent; [left; split; [done|by exists e]|].
  apply bind_Some in Hrun
      as [(e & Hwiki & ->)|(wikipedia_data & w2 & Hwiki & Hrun)];
    apply (keeps_while_none silent silent_refl silent_trans) in Hwiki;
    try apply wikipedia_pass_silent.
  { left. split; [by eapply silent_trans|by exists e]. }
  apply bind_Some in Hrun
      as [(e & Hreadme & ->)|(readme_text & w3 & Hreadme & Hrun)].
  - apply generate_readme_result in Hreadme as ->.
    left. split; [by eapply silent_trans|by exists e].
  - injection Hrun as <- <-. right.
    exists scp_data, wikipedia_data, w2, readme_text, w3.
    split_and!; [by eapply silent_trans|done..].
Qed.

(** X15. When [_main] raises, whatever the exception, it has written no
    file and printed nothing. *)
Theorem _main_raises_before_it_writes env fuel args w e w' :
  _main env fuel args w = Some (Raise e, w') ->
  files w' = files w /\ stdout w' = stdout w.
Proof.
  intros Hrun.
  apply _main_Some in Hrun
      as [[Hsilent _]|(? & ? & ? & ? & ? & _ & _ & Hr & _)];
    [exact Hsilent|discriminate Hr].
Qed.

(** X16. When [_main] returns, it has printed one text, the README. With
    no output path the files are as before; with an output path, the
    README at this path holds the text printed, and no other file has
    changed. *)
Theorem _main_prints_the_readme env fuel args w w' :
  _main env fuel args w = Some (Ok tt, w') ->
  exists readme_text,
    stdout w' = stdout w ++ [readme_text]
    /\ (output_readme args = None -> files w' = files w)
    /\ forall fp, output_readme args = Some fp -> fp <> [] ->
                  files w' = <[fp := readme_text]> (files w).
Proof.
  intros Hrun.
  apply _main_Some in Hrun
      as [[_ [? Hr]]|(scp_data & wikipedia_data & w2 & readme_text & w3
                      & [Hfiles Hstdout] & Hreadme & _ & ->)];
    [discriminate Hr|].
  apply generate_readme_result in Hreadme. exists readme_text.
  destruct (output_readme args) as [fp|]; [|subst w3].
  - destruct scp_data, wikipedia_data;
      try (destruct Hreadme as [-> _]; cbn;
           rewrite Hfiles, Hstdout; split_and!; [done|done|];
           by intros ? [= <-] _).
    destruct Hreadme as [-> Hfile]. cbn. rewrite Hstdout.
    split_and!; [done|done|]. intros ? [= <-] Hfp.
    rewrite <- Hfiles. symmetry. by apply insert_id, Hfile.
  - cbn. rewrite Hfiles, Hstdout. split_and!; [done|done|done].
Qed.

Lemma _main_raises_before_it_writes_witness :
  let env := Fixtures.answering
               (fun _ => ReplyText (Some (replicate 201 97%N)))
               Fixtures.online (inr Fixtures.scp_173) in
  let w := Fixtures.world_of
             {[ py "./wikipedia_urls.txt" := [];
                py "./README_TEMPLATE.md" := Fixtures.ln "{{SCP_SUMMARY}}";
                py "README.md" := Fixtures.ln "An older summary." ]} in
  exists w',
    _main env 4 (Fixtures.args_of 3) w = Some (Raise IndexError, w')
    /\ files w' = files w /\ stdout w' = stdout w.
Proof.
  intros env w. eexists.
  assert (Hrun : _main env 4 (Fixtures.args_of 3) w
                 = Some (Raise IndexError, _)) by (vm_compute; reflexivity).
  split; [exact Hrun|].
  exact (_main_raises_before_it_writes _ _ _ _ _ _ Hrun).
Defined.

Lemma _main_prints_the_readme_witness :
  let env := Fixtures.answering
               (fun _ => ReplyText (Some (replicate 201 97%N)))
               Fixtures.online (inr Fixtures.scp_173) in
  let w := Fixtures.world_of
             {[ py "./wikipedia_urls.txt"
                := Fixtures.ln "https://en.wikipedia.org/wiki/Rooster";
                py "./README_TEMPLATE.md"
                := Fixtures.ln "# Today" ++ Fixtures.ln "{{SCP_TITLE}}";
                py "README.md"
                := Fixtures.ln "# My profile" ++ Fixtures.ln "SCP-682" ]} in
  exists w' readme_text,
    _main env 4 (Fixtures.args_of 3) w = Some (Ok tt, w')
    /\ stdout w' = stdout w ++ [readme_text]
    /\ files w' = <[py "README.md" := readme_text]> (files w).
Proof.
  intros env w. eexists.
  assert (Hrun : _main env 4 (Fixtures.args_of 3) w = Some (Ok tt, _))
    by (vm_compute; reflexivity).
  destruct (_main_prints_the_readme _ _ _ _ _ Hrun)
    as (readme_text & Hstdout & _ & Hfiles).
  exists readme_text. split_and!; [exact Hrun|exact Hstdout|].
  by apply Hfiles.
Defined.

(** X17. Whatever [get_random_scp] raises, the SCP loop ends with no
    data and without a request to the service, and [_main] goes on with
    the Wikipedia channel and the README from where the fetch left
    off. *)
Theorem scp_sourcing_error_is_absorbed env fuel args scp_prompt
    wikipedia_prompt key e w w1 :
  scp_user_prompt args = Some scp_prompt ->
  wikipedia_user_prompt args = Some wikipedia_prompt ->
  gemini_api_key args = Some key ->
  get_random_scp env fuel (max_retries args) default_graphql_api_endpoint w
  = Some (Raise e, w1) ->
  while_none fuel (scp_pass env fuel args scp_prompt) w = Some (Ok None, w1)
  /\ _main env fuel args w
     = (let* wikipedia_data :=
          while_none fuel (wikipedia_pass env fuel args wikipedia_prompt) in
        let* readme_text :=
          generate_readme None wikipedia_data (output_readme args)
            (template args) in
        print readme_text) w1.
Proof.
  intros Hscp Hwikipedia Hkey Hget.
  assert (Hloop : while_none fuel (scp_pass env fuel args scp_prompt) w
                  = Some (Ok None, w1)).
  { destruct fuel as [|fuel']; [done|]. cbn [while_none].
    unfold bind at 1, scp_pass, bind at 1, try_except, bind at 1.
    rewrite Hget. by destruct e. }
  split; [done|].
  unfold _main. rewrite Hscp, Hwikipedia, Hkey. unfold bind at 1.
  by rewrite Hloop.
Qed.

Lemma scp_sourcing_error_is_absorbed_witness :
  let env := Fixtures.answering
               (fun _ => ReplyText (Some (replicate 201 97%N)))
               Fixtures.offline Fixtures.unparsed in
  let w := Fixtures.world_of ∅ in
  while_none 4
    (scp_pass env 4 (Fixtures.args_of 3) (py "Summarize the SCP article at "))
    w
  = Some (Ok None, add_fetch default_graphql_api_endpoint w).
Proof.
  intros env w.
  refine (proj1 (scp_sourcing_error_is_absorbed env 4 (Fixtures.args_of 3)
                   _ _ _ (OtherError (py "URLError")) w _
                   eq_refl eq_refl eq_refl _)).
  reflexivity.
Defined.

(** X18. An answer of the endpoint with status 200 that lacks one of the
    fields [data.randomPage.page.url] ends [_main] with the exception of
    the failed lookup, a [KeyError] or a [TypeError]: no request is made
    to the service, the Wikipedia channel is not tried, and nothing is
    written or printed. *)
Theorem unexpected_answer_aborts_main env fuel args scp_prompt
    wikipedia_prompt key scp_raw_data e w w1 :
  scp_user_prompt args = Some scp_prompt ->
  wikipedia_user_prompt args = Some wikipedia_prompt ->
  gemini_api_key args = Some key ->
  get_random_scp env fuel (max_retries args) default_graphql_api_endpoint w
  = Some (Ok scp_raw_data, w1) ->
  getpath scp_raw_data [py "data"; py "randomPage"; py "page"; py "url"]
  = inl e ->
  _main env fuel args w = Some (Raise e, w1).
Proof.
  intros Hscp Hwikipedia Hkey Hget Hpath.
  unfold _main. rewrite Hscp, Hwikipedia, Hkey.
  destruct fuel as [|fuel']; [done|]. cbn [while_none].
  unfold bind at 1 2, scp_pass, bind at 1, try_except, bind at 1.
  rewrite Hget. unfold ret at 1. cbn [getpath] in Hpath.
  repeat (rewrite bind_lift;
          match type of Hpath with
          | context [getitem ?v ?key] => destruct (getitem v key)
          end; [by injection Hpath as ->|]).
  done.
Qed.

Lemma unexpected_answer_aborts_main_witness :
  let errors := JObject [(py "errors", JArray [JString (py "Timeout")])] in
  let env := Fixtures.answering (fun _ => ReplyText None) Fixtures.online
               (inr errors) in
  let w := Fixtures.world_of ∅ in
  _main env 4 (Fixtures.args_of 3) w
  = Some (Raise (KeyError (py "data")),
          add_fetch default_graphql_api_endpoint w).
Proof.
  intros errors env w.
  refine (unexpected_answer_aborts_main env 4 (Fixtures.args_of 3) _ _ _
            errors (KeyError (py "data")) w _ eq_refl eq_refl eq_refl _ _);
    reflexivity.
Defined.

(** ** _setup_logging *)

Section LoggingFacts.

Import Logging.

Lemma log_after_setup debug raise_exceptions st levelno :
  logger_filters (module_logger st) = [] ->
  disabled (module_logger st) = false ->
  (disable st < levelno)%Z ->
  log (_setup_logging debug raise_exceptions st) levelno
  = (if (levelno <? (if debug then DEBUG else INFO))%Z then []
     else
       filter (fun hdlr => handler_emits hdlr levelno = true)
         (handlers (module_logger (_setup_logging debug raise_exceptions st)))
       ++ if propagate (module_logger st)
          then (callHandlers (ancestors st) levelno).1 else []).
Proof.
  intros Hfilters Hdisabled Hdisable.
  unfold log, isEnabledFor, _setup_logging.
  cbn [module_logger ancestors disable disabled logger_filters
       getEffectiveLevel logger_level callHandlers propagate handlers].
  rewrite Hfilters, Hdisabled.
  rewrite (proj2 (Z.leb_gt levelno (disable st))) by done.
  cbn [negb andb filter_passes forallb].
  assert (Hbase : ((if debug then DEBUG else INFO) =? 0)%Z = false)
    by (by destruct debug).
  rewrite Hbase.
  destruct (Z.ltb_spec levelno (if debug then DEBUG else INFO)) as [Hlt|Hge].
  - by rewrite (proj2 (Z.leb_gt _ _)) by done.
  - rewrite (proj2 (Z.leb_le _ _)) by done. rewrite length_app.
    cbn [length andb].
    destruct (propagate (module_logger st));
      [destruct (callHandlers (ancestors st) levelno) as [emitting found]|];
      by rewrite (proj2 (Nat.eqb_neq _ 0)) by lia.
Qed.

(** What the two handlers of [_setup_logging] take. *)
Lemma handlers_of_setup_emit (debug : bool) raise_exceptions st levelno :
  handlers (module_logger st) = [] ->
  (levelno <? (if debug then DEBUG else INFO))%Z = false ->
  map stream
    (filter (fun hdlr => handler_emits hdlr levelno = true)
       (handlers (module_logger (_setup_logging debug raise_exceptions st))))
  = if (levelno <=? WARNING)%Z then [sys_stdout]
    else if (ERROR <=? levelno)%Z then [sys_stderr]
    else [].
Proof.
  intros Hhandlers Hge%Z.ltb_ge.
  cbn [_setup_logging module_logger handlers]. rewrite Hhandlers. cbn [app].
  rewrite !filter_cons, filter_nil. unfold handler_emits.
  cbn [level filters filter_passes forallb stream].
  rewrite (proj2 (Z.leb_le _ _) Hge).
  destruct (Z.leb_spec levelno WARNING) as [Hw|Hw],
    (Z.leb_spec ERROR levelno) as [He|He];
    try (unfold WARNING, ERROR in *; lia); cbn;
    repeat case_decide; try done.
Qed.

(** X19. After [_setup_logging] on a logger that nothing has configured
    yet, a record goes to one stream at most: to standard output when its
    level is at least the base level ([DEBUG] with [debug], else [INFO])
    and at most [WARNING], to standard error when its level is at least
    [ERROR], and nowhere below the base level and between [WARNING] and
    [ERROR]. This is so when no handler above the logger takes the
    record. *)
Theorem _setup_logging_routes debug raise_exceptions st levelno :
  handlers (module_logger st) = [] ->
  logger_filters (module_logger st) = [] ->
  disabled (module_logger st) = false ->
  (disable st < levelno)%Z ->
  (propagate (module_logger st) = true ->
   (callHandlers (ancestors st) levelno).1 = []) ->
  map stream (log (_setup_logging debug raise_exceptions st) levelno)
  = if (levelno <? (if debug then DEBUG else INFO))%Z then []
    else if (levelno <=? WARNING)%Z then [sys_stdout]
    else if (ERROR <=? levelno)%Z then [sys_stderr]
    else [].
Proof.
  intros Hhandlers Hfilters Hdisabled Hdisable Habove.
  rewrite log_after_setup by done.
  destruct (Z.ltb_spec0 levelno (if debug then DEBUG else INFO)) as [Hlt|Hge];
    [done|].
  assert (Hrest : (if propagate (module_logger st)
                   then (callHandlers (ancestors st) levelno).1 else [])
                  = []).
  { destruct (propagate (module_logger st)); [by apply Habove|done]. }
  rewrite Hrest, app_nil_r. apply handlers_of_setup_emit; [done|].
  by apply Z.ltb_nlt.
Qed.

Lemma _setup_logging_routes_witness :
  map stream (log (_setup_logging true false at_import) INFO) = [sys_stdout]
  /\ map stream (log (_setup_logging true false at_import) CRITICAL)
     = [sys_stderr]
  /\ map stream (log (_setup_logging false false at_import) DEBUG) = [].
Proof.
  split_and!.
  - apply (_setup_logging_routes true false at_import INFO);
      [reflexivity..|done|reflexivity].
  - apply (_setup_logging_routes true false at_import CRITICAL);
      [reflexivity..|done|reflexivity].
  - apply (_setup_logging_routes false false at_import DEBUG);
      [reflexivity..|done|reflexivity].
Defined.

(** X20. [_setup_logging] adds its two handlers each time it is called:
    after a second call on the same logger every record that is written
    is written twice. *)
Theorem _setup_logging_twice_writes_twice debug raise_exceptions st levelno :
  handlers (module_logger st) = [] ->
  logger_filters (module_logger st) = [] ->
  disabled (module_logger st) = false ->
  (disable st < levelno)%Z ->
  (propagate (module_logger st) = true ->
   (callHandlers (ancestors st) levelno).1 = []) ->
  let once := _setup_logging debug raise_exceptions st in
  let twice := _setup_logging debug raise_exceptions once in
  map stream (log twice levelno)
  = map stream (log once levelno) ++ map stream (log once levelno).
Proof.
  intros Hhandlers Hfilters Hdisabled Hdisable Habove once twice.
  subst once twice. rewrite !log_after_setup by done.
  destruct (Z.ltb_spec0 levelno (if debug then DEBUG else INFO)) as [Hlt|Hge];
    [done|].
  cbn [_setup_logging module_logger ancestors propagate handlers].
  assert (Hrest : (if propagate (module_logger st)
                   then (callHandlers (ancestors st) levelno).1 else [])
                  = []).
  { destruct (propagate (module_logger st)); [by apply Habove|done]. }
  rewrite Hrest, !app_nil_r, Hhandlers. cbn [app].
  by rewrite <- fmap_app, <- filter_app.
Qed.

Lemma _setup_logging_twice_writes_twice_witness :
  map stream
    (log (_setup_logging true false (_setup_logging true false at_import))
       WARNING)
  = [sys_stdout; sys_stdout].
Proof.
  apply (_setup_logging_twice_writes_twice true false at_import WARNING);
    [reflexivity..|done|reflexivity].
Defined.

End LoggingFacts.

(** ** cpt.py *)

Section CptFacts.

Import Cpt.

Lemma lazy_group_spec s g :
  lazy_group s = Some g ->
  exists after, s = g ++ LESS :: after /\ (LF ∉ g) /\ (LESS ∉ g).
Proof.
  revert g. induction s as [|c s IH]; intros g; [done|]. cbn [lazy_group].
  destruct (N.eqb_spec c LESS) as [->|Hless].
  - intros [= <-]. exists s. split_and!; [done|apply not_elem_of_nil..].
  - destruct (N.eqb_spec c LF) as [->|Hlf]; [done|].
    destruct (lazy_group s) as [g'|]; [|done]. intros [= <-].
    destruct (IH g' eq_refl) as (after & -> & Hlf' & Hless').
    exists after. split_and!; [done|by apply not_elem_of_cons..].
Qed.

(** What [search] finds is the text of a cell on one line. *)
Lemma search_spec opening s g :
  search opening s = Some g ->
  exists before after,
    s = before ++ opening ++ g ++ LESS :: after /\ (LF ∉ g) /\ (LESS ∉ g).
Proof.
  assert (Hhere : forall s,
            (if startswith opening s
             then lazy_group (drop (length opening) s) else None) = Some g ->
            exists after, s = opening ++ g ++ LESS :: after
                          /\ (LF ∉ g) /\ (LESS ∉ g)).
  { intros s0. destruct (startswith opening s0) eqn:Hstart; [|done].
    apply startswith_prefix in Hstart as (rest & ->).
    rewrite drop_app_length. intros (after & -> & ? & ?)%lazy_group_spec.
    by exists after. }
  induction s as [|c s IH].
  - cbn [search].
    destruct (if startswith opening [] then _ else _) as [g'|] eqn:Hfound;
      [|done].
    intros [= ->]. apply Hhere in Hfound as (after & ? & ? & ?).
    by exists [], after.
  - cbn [search].
    destruct (if startswith opening (c :: s) then _ else _) as [g'|]
      eqn:Hfound.
    + intros [= ->]. apply Hhere in Hfound as (after & ? & ? & ?).
      by exists [], after.
    + intros (before & after & -> & ? & ?)%IH. by exists (c :: before), after.
Qed.

(** Putting a text in its own place changes nothing. *)
Lemma replace_same s old : replace s old old = s.
Proof.
  destruct old as [|c0 old']; cbn [replace].
  - cbn [app]. induction s as [|c s IH]; [done|]. cbn. by rewrite IH.
  - assert (Hle : forall n s, length s <= n ->
                    replace_from (c0 :: old') (c0 :: old') 0 s = s).
    { induction n as [|n IH]; intros s0 Hn.
      - destruct s0; [done|cbn in Hn; lia].
      - destruct s0 as [|c s0]; [done|]. cbn [replace_from].
        destruct (startswith (c0 :: old') (c :: s0)) eqn:Hstart.
        + apply startswith_prefix in Hstart as (rest & Hrest).
          injection Hrest as -> ->. cbn [length].
          replace (S (length old') - 1) with (length old') by lia.
          rewrite replace_from_skip, IH; [done|].
          cbn in Hn. rewrite length_app in Hn. lia.
        + rewrite IH; [done|]. cbn in Hn. lia. }
    by apply (Hle (length s)).
Qed.

(** X21. When the update for a currency succeeds, the README had a cell
    [<td id="#symbol">...<] for it, the text [old] of the cell being on one
    line; the price has been put in the place of every occurrence of
    [old] in the README, the cell or not; and there has been one fetch,
    from the address of the currency. *)
Theorem update_price_replaces_cell_text env source symbol w source' w' :
  literal symbol = true ->
  update_price env source symbol w = Some (Ok source', w') ->
  exists old new before after status body,
    source = before ++ cell_opening symbol ++ old ++ LESS :: after
    /\ (LF ∉ old) /\ (LESS ∉ old)
    /\ quote_urlopen env (length (fetches w)) (price_url symbol)
       = FetchResponse status body
    /\ format_price env body = inr new
    /\ source' = replace source old new
    /\ w' = add_fetch (price_url symbol) w.
Proof.
  intros Hliteral. unfold update_price.
  intros (req & w1 & Hfetch & Hrun)%bind_Ok.
  apply bind_Ok in Hrun as (found & ? & [Hfound ->]%lift_Ok & Hrun).
  unfold search_cell in Hfound. rewrite Hliteral in Hfound.
  injection Hfound as <-.
  destruct (search (cell_opening symbol) source) as [old|] eqn:Hsearch;
    [|done].
  apply bind_Ok in Hrun as (new & ? & [Hnew ->]%lift_Ok & [= <- <-]).
  apply search_spec in Hsearch as (before & after & Hsource & Hlf & Hless).
  revert Hfetch. unfold try_except, request_urlopen.
  destruct (quote_urlopen env (length (fetches w)) (price_url symbol))
    as [e|status body] eqn:Hanswer; [done|].
  intros [= <- <-]. by exists old, new, before, after, status, body.
Qed.

Lemma update_price_replaces_cell_text_witness :
  let env := {| environ := ∅;
                quote_urlopen := fun _ _ => FetchResponse 200 (py "{...}");
                format_price := fun _ => inr (py "64,250.10");
                str_of_exception := fun _ => [];
                re_search := fun _ _ => inr None |} in
  let row price := py "<tr><td>BTC</td>" ++ cell_opening (py "BTC") ++ price
                   ++ py "</td></tr>" in
  let w := Fixtures.world_of ∅ in
  update_price env (row (py "61,000.00")) (py "BTC") w
  = Some (Ok (row (py "64,250.10")), add_fetch (price_url (py "BTC")) w)
  /\ exists old new before after status body,
       row (py "61,000.00")
       = before ++ cell_opening (py "BTC") ++ old ++ LESS :: after
       /\ (LF ∉ old) /\ (LESS ∉ old)
       /\ quote_urlopen env (length (fetches w)) (price_url (py "BTC"))
          = FetchResponse status body
       /\ format_price env body = inr new
       /\ row (py "64,250.10") = replace (row (py "61,000.00")) old new
       /\ add_fetch (price_url (py "BTC")) w
          = add_fetch (price_url (py "BTC")) w.
Proof.
  intros env row w.
  assert (Hrun : update_price env (row (py "61,000.00")) (py "BTC") w
                 = Some (Ok (row (py "64,250.10")),
                         add_fetch (price_url (py "BTC")) w))
    by (vm_compute; reflexivity).
  split; [exact Hrun|].
  exact (update_price_replaces_cell_text env _ (py "BTC") w _ _ eq_refl Hrun).
Defined.

(** X22. When the cell of the currency is empty, the price is put before
    every character of the README and after the last one. *)
Theorem update_price_empty_cell env source symbol w status body new :
  literal symbol = true ->
  search (cell_opening symbol) source = Some [] ->
  quote_urlopen env (length (fetches w)) (price_url symbol)
  = FetchResponse status body ->
  format_price env body = inr new ->
  update_price env source symbol w
  = Some (Ok (new ++ flat_map (fun c => c :: new) source),
          add_fetch (price_url symbol) w).
Proof.
  intros Hliteral Hsearch Hanswer Hnew. unfold update_price.
  unfold bind at 1, try_except, request_urlopen. rewrite Hanswer.
  unfold search_cell. rewrite Hliteral, bind_lift, Hsearch, bind_lift, Hnew.
  done.
Qed.

Lemma update_price_empty_cell_witness :
  let env := {| environ := ∅;
                quote_urlopen := fun _ _ => FetchResponse 200 (py "{...}");
                format_price := fun _ => inr (py "0.07");
                str_of_exception := fun _ => [];
                re_search := fun _ _ => inr None |} in
  let source := cell_opening (py "DOGE") ++ py "</td>" in
  let w := Fixtures.world_of ∅ in
  update_price env source (py "DOGE") w
  = Some (Ok (py "0.07" ++ flat_map (fun c => c :: py "0.07") source),
          add_fetch (price_url (py "DOGE")) w).
Proof.
  intros env source w.
  apply (update_price_empty_cell env source (py "DOGE") w 200%Z (py "{...}"));
    reflexivity.
Defined.

(** X23. The two failures of the update for a currency. When the fetch
    raises, the text of the exception is printed and the update ends with
    an [AttributeError], that of [os.exit], which the module [os] does not
    have. When the README has no cell for the currency, the update ends
    with an [AttributeError] after the fetch, before the answer is
    read. *)
Theorem update_price_fails_with_attribute_error env source symbol w :
  (forall e,
     quote_urlopen env (length (fetches w)) (price_url symbol)
     = FetchRaises e ->
     update_price env source symbol w
     = Some (Raise (OtherError (py "AttributeError")),
             add_stdout (str_of_exception env e)
               (add_fetch (price_url symbol) w)))
  /\ (forall status body,
        quote_urlopen env (length (fetches w)) (price_url symbol)
        = FetchResponse status body ->
        literal symbol = true ->
        search (cell_opening symbol) source = None ->
        update_price env source symbol w
        = Some (Raise (OtherError (py "AttributeError")),
                add_fetch (price_url symbol) w)).
Proof.
  split.
  - intros e Hanswer. unfold update_price.
    unfold bind at 1, try_except, request_urlopen. by rewrite Hanswer.
  - intros status body Hanswer Hliteral Hsearch. unfold update_price.
    unfold bind at 1, try_except, request_urlopen. rewrite Hanswer.
    unfold search_cell. by rewrite Hliteral, bind_lift, Hsearch.
Qed.

Lemma update_price_fails_with_attribute_error_witness :
  let offline := {| environ := ∅;
                    quote_urlopen :=
                      fun _ _ => FetchRaises (OtherError (py "URLError"));
                    format_price := fun _ => inr (py "0.07");
                    str_of_exception := fun _ => py "<urlopen error>";
                    re_search := fun _ _ => inr None |} in
  let online := {| environ := ∅;
                   quote_urlopen := fun _ _ => FetchResponse 200 (py "{...}");
                   format_price := fun _ => inr (py "0.07");
                   str_of_exception := fun _ => [];
                   re_search := fun _ _ => inr None |} in
  let w := Fixtures.world_of ∅ in
  update_price offline (py "<td>DOGE</td>") (py "DOGE") w
  = Some (Raise (OtherError (py "AttributeError")),
          add_stdout (py "<urlopen error>")
            (add_fetch (price_url (py "DOGE")) w))
  /\ update_price online (py "<td>DOGE</td>") (py "DOGE") w
     = Some (Raise (OtherError (py "AttributeError")),
             add_fetch (price_url (py "DOGE")) w).
Proof.
  intros offline online w. split.
  - apply (proj1 (update_price_fails_with_attribute_error offline
                    (py "<td>DOGE</td>") (py "DOGE") w)
             (OtherError (py "URLError"))).
    reflexivity.
  - apply (proj2 (update_price_fails_with_attribute_error online
                    (py "<td>DOGE</td>") (py "DOGE") w) 200%Z (py "{...}"));
      reflexivity.
Defined.

(** X24. When the price fetched is the text that the cell holds already,
    the README is left as it is. *)
Theorem update_price_same_price env source symbol w status body old :
  literal symbol = true ->
  search (cell_opening symbol) source = Some old ->
  quote_urlopen env (length (fetches w)) (price_url symbol)
  = FetchResponse status body ->
  format_price env body = inr old ->
  update_price env source symbol w
  = Some (Ok source, add_fetch (price_url symbol) w).
Proof.
  intros Hliteral Hsearch Hanswer Hnew. unfold update_price.
  unfold bind at 1, try_except, request_urlopen. rewrite Hanswer.
  unfold search_cell. rewrite Hliteral, bind_lift, Hsearch, bind_lift, Hnew.
  unfold ret. by rewrite replace_same.
Qed.

Lemma update_price_same_price_witness :
  let env := {| environ := ∅;
                quote_urlopen := fun _ _ => FetchResponse 200 (py "{...}");
                format_price := fun _ => inr (py "0.07");
                str_of_exception := fun _ => [];
                re_search := fun _ _ => inr None |} in
  let source := py "DOGE at 0.07: " ++ cell_opening (py "DOGE")
                ++ py "0.07</td>" in
  let w := Fixtures.world_of ∅ in
  update_price env source (py "DOGE") w
  = Some (Ok source, add_fetch (price_url (py "DOGE")) w).
Proof.
  intros env source w.
  apply (update_price_same_price env source (py "DOGE") w 200%Z (py "{...}")
           (py "0.07")); reflexivity.
Defined.

Lemma split_nonempty sep s : split sep s <> [].
Proof.
  destruct s as [|c s]; [done|]. cbn [split].
  destruct (c =? sep)%N; [done|]. by destruct (split sep s).
Qed.

Lemma update_price_result env source symbol w r w' :
  update_price env source symbol w = Some (r, w') ->
  files w' = files w
  /\ forall source', r = Ok source' -> w' = add_fetch (price_url symbol) w.
Proof.
  unfold update_price, bind at 1, try_except, request_urlopen.
  destruct (quote_urlopen env (length (fetches w)) (price_url symbol))
    as [e|status body]; [by intros [= <- <-]|].
  rewrite bind_lift.
  destruct (search_cell env symbol source) as [e|[old|]];
    [by intros [= <- <-]| |by intros [= <- <-]].
  rewrite bind_lift.
  by destruct (format_price env body); intros [= <- <-].
Qed.

Lemma update_prices_result env symbols source w r w' :
  update_prices env symbols source w = Some (r, w') ->
  files w' = files w
  /\ forall source', r = Ok source' ->
       w' = add_fetches (price_url <$> symbols) w.
Proof.
  revert source w. induction symbols as [|symbol symbols IH]; intros source w.
  - by intros [= <- <-].
  - cbn [update_prices].
    intros [(e & Hrun & ->)|(source1 & w1 & Hrun & Hrest)]%bind_Some;
      apply update_price_result in Hrun as [Hfiles Hok]; [done|].
    apply IH in Hrest as [Hfiles' Hok']. split; [congruence|].
    intros source' Hr. rewrite (Hok' source' Hr), (Hok source1 eq_refl). done.
Qed.

(** X25. The script writes the README once, at its end, or not at all:
    when it raises, for a setting or a file that is missing or in the
    update for one of the currencies, no file has changed. When it ends
    well, it has fetched one price for each element of [CURRENCIES], in
    their order and at least one, and only the README, which was there
    before, has changed. *)
Theorem script_writes_at_the_end env w r w' :
  script env w = Some (r, w') ->
  (forall e, r = Raise e -> files w' = files w)
  /\ (r = Ok tt ->
      exists currencies source',
        environ env !! py "CURRENCIES" = Some currencies
        /\ split COMMA currencies <> []
        /\ is_Some (files w !! SOURCE_PATH)
        /\ w' = set_file SOURCE_PATH source'
                  (add_fetches (price_url <$> split COMMA currencies) w)).
Proof.
  unfold script.
  destruct (environ env !! py "CMC_API_KEY") as [CMC_API_KEY|];
    [|by intros [= <- <-]].
  destruct (environ env !! py "CURRENCIES") as [currencies|];
    [|by intros [= <- <-]].
  unfold bind at 1, read_text.
  destruct (files w !! SOURCE_PATH) as [source|] eqn:Hfile;
    [|by intros [= <- <-]].
  intros [(e & Hrun & ->)|(source' & w1 & Hrun & [= <- <-])]%bind_Some;
    apply update_prices_result in Hrun as [Hfiles Hok].
  - split; [by intros ? _|done].
  - split; [done|]. intros _. exists currencies, source'.
    rewrite (Hok source' eq_refl).
    split_and!; [done|apply split_nonempty|by eexists|done].
Qed.

Lemma script_writes_at_the_end_witness :
  let env := {| environ := {[ py "CMC_API_KEY" := py "key";
                              py "CURRENCIES" := py "BTC,DOGE" ]};
                quote_urlopen := fun _ _ => FetchResponse 200 (py "{...}");
                format_price := fun _ => inr (py "0.07");
                str_of_exception := fun _ => [];
                re_search := fun _ _ => inr None |} in
  let w := Fixtures.world_of
             {[ SOURCE_PATH := cell_opening (py "BTC") ++ py "1</td>" ]} in
  exists w',
    script env w = Some (Raise (OtherError (py "AttributeError")), w')
    /\ files w' = files w.
Proof.
  intros env w. eexists.
  assert (Hrun : script env w
                 = Some (Raise (OtherError (py "AttributeError")), _))
    by (vm_compute; reflexivity).
  split; [exact Hrun|].
  exact (proj1 (script_writes_at_the_end env w _ _ Hrun) _ eq_refl).
Defined.

End CptFacts.
